(** * Transform stage of the sales ETL pipeline ([Python/etl_pipeline.py])

    A shallow embedding of [SalesDataETL.transform_sales_data] and of the
    pandas operations it calls.

    Modelling conventions.
    - A DataFrame is a list of rows; the sales frame carries its index labels
      (a [RangeIndex] given by [read_sql], kept by [dropna] and by boolean
      selection), because the [profit_margin] column is computed by an
      index-aligned Series operation.
    - A cell that can hold NaN / None / NaT is an [option]; arithmetic on
      cells propagates the null, as pandas does.
    - Finite floating-point numbers are read as the rationals they denote
      ([Q]) and integers as [Z].  The arithmetic of the model is exact, that
      of the code is float64 and int64 arithmetic: the two agree where no
      operation rounds or wraps.  The equations between totals are stated
      on columns where the sums are exact ([exact_sum], [exact_int_sum]);
      sums are compared with [==].
    - An exception inside the [try] block makes the method return the empty
      dict: stages that can raise return an [option].  The model has the
      exception of an unparseable date.  pandas raises on more inputs (a
      date outside the range of datetime64[ns], a date string that does not
      follow the format of the first one, a merge on a key column that is
      null in every row): there the model returns frames where the code
      returns the empty dict, so the theorems say what the tables are when
      the code returns them, and which inputs are certain to fail. *)

From Stdlib Require Import List ZArith QArith Qabs String Bool Lia Permutation.
From Stdlib Require Import Sorting.Sorted.
Import ListNotations.

Local Open Scope Z_scope.

(** ** Nullable cells *)

Definition isnull {A : Type} (x : option A) : bool :=
  match x with Some _ => false | None => true end.

Definition notnull {A : Type} (x : option A) : bool := negb (isnull x).

Definition obind {A B : Type} (x : option A) (f : A -> option B) : option B :=
  match x with Some a => f a | None => None end.

Definition omap {A B : Type} (f : A -> B) (x : option A) : option B :=
  match x with Some a => Some (f a) | None => None end.

Definition olift2 {A B C : Type} (f : A -> B -> C)
  (x : option A) (y : option B) : option C :=
  match x, y with Some a, Some b => Some (f a b) | _, _ => None end.

Notation "x >>= f" := (obind x f) (at level 50, left associativity).

(** [a * b] and [a - b] on float columns: NaN in, NaN out. *)
Definition nmul : option Q -> option Q -> option Q := olift2 Qmult.
Definition nsub : option Q -> option Q -> option Q := olift2 Qminus.

(** An integer column used in float arithmetic is upcast. *)
Definition as_float (x : option Z) : option Q := omap inject_Z x.

Definition Qlt_bool (x y : Q) : bool := negb (Qle_bool y x).

(** ** Calendar dates (the [.dt] accessor) *)

Record date : Type := mkDate { d_year : Z; d_month : Z; d_day : Z }.

Definition date_leb (a b : date) : bool :=
  (d_year a <? d_year b)
  || ((d_year a =? d_year b)
      && ((d_month a <? d_month b)
          || ((d_month a =? d_month b) && (d_day a <=? d_day b)))).

(** Days since 1970-01-01 in the proleptic Gregorian calendar. *)
Definition days_from_civil (d : date) : Z :=
  let y := if d_month d <=? 2 then d_year d - 1 else d_year d in
  let era := y / 400 in
  let yoe := y - era * 400 in
  let mp := (d_month d + 9) mod 12 in
  let doy := (153 * mp + 2) / 5 + d_day d - 1 in
  let doe := yoe * 365 + yoe / 4 - yoe / 100 + doy in
  era * 146097 + doe - 719468.

Definition dt_year (d : option date) : option Z := omap d_year d.
Definition dt_month (d : option date) : option Z := omap d_month d.
Definition dt_quarter (d : option date) : option Z :=
  omap (fun x => (d_month x - 1) / 3 + 1) d.

(** Monday = 0 (1970-01-01 was a Thursday). *)
Definition dayofweek (d : date) : Z := (days_from_civil d + 3) mod 7.
Definition dt_dayofweek (d : option date) : option Z := omap dayofweek d.

Definition iso_p (y : Z) : Z := (y + y / 4 - y / 100 + y / 400) mod 7.
Definition iso_weeks_in_year (y : Z) : Z :=
  if (iso_p y =? 4) || (iso_p (y - 1) =? 3) then 53 else 52.

Definition isoweek (d : date) : Z :=
  let doy := days_from_civil d
             - days_from_civil (mkDate (d_year d) 1 1) + 1 in
  let w := (doy - (dayofweek d + 1) + 10) / 7 in
  if w <? 1 then iso_weeks_in_year (d_year d - 1)
  else if iso_weeks_in_year (d_year d) <? w then 1
  else w.
Definition dt_isoweek (d : option date) : option Z := omap isoweek d.

(** What a [transaction_date] cell holds before [pd.to_datetime]. *)
Inductive raw_date : Type :=
| RawNull
| RawDate (d : date)
| RawUnparseable (s : string).

(** [pd.to_datetime] on one cell: a null becomes NaT, a date is kept, and
    anything else raises (the result [None]).  The cells are parsed one by
    one and the dates have no bound: the call of the code also raises on a
    date outside the range of datetime64[ns] and on a string that does not
    follow the format inferred from the first value of the column. *)
Definition to_datetime (v : raw_date) : option (option date) :=
  match v with
  | RawNull => Some None
  | RawDate d => Some (Some d)
  | RawUnparseable _ => None
  end.

(** ** Record model *)

Module Sales.
(** A row of [raw_data['sales']]; [D] is the type of the date cell. *)
Record t (D : Type) : Type := mk {
  transaction_id : option Z;
  transaction_date : D;
  product_id : option Z;
  customer_id : option Z;
  quantity_sold : option Z;
  unit_price : option Q;
  total_amount : option Q;
  sales_rep_id : option Z;
  region_id : option Z
}.
Arguments mk {D}.
Arguments transaction_id {D}.
Arguments transaction_date {D}.
Arguments product_id {D}.
Arguments customer_id {D}.
Arguments quantity_sold {D}.
Arguments unit_price {D}.
Arguments total_amount {D}.
Arguments sales_rep_id {D}.
Arguments region_id {D}.

Definition set_date {D E : Type} (r : t D) (d : E) : t E :=
  mk (transaction_id r) d (product_id r) (customer_id r)
     (quantity_sold r) (unit_price r) (total_amount r)
     (sales_rep_id r) (region_id r).
End Sales.

Module Product.
Record t : Type := mk {
  product_id : option Z;
  product_name : option string;
  category_id : option Z;
  category_name : option string;
  brand : option string;
  cost_price : option Q;
  list_price : option Q
}.
End Product.

Module Customer.
Record t : Type := mk {
  customer_id : option Z;
  customer_name : option string;
  customer_type : option string;
  region_id : option Z;
  region_name : option string;
  signup_date : option date
}.
End Customer.

(** A frame with its index labels. *)
Definition Indexed (R : Type) : Type := list (nat * R).

(** [read_sql] gives a frame a [RangeIndex]. *)
Definition range_index {R : Type} (rows : list R) : Indexed R :=
  combine (seq 0 (List.length rows)) rows.

Definition RawSales : Type := Sales.t raw_date.
Definition CleanSales : Type := Sales.t (option date).

(** ** Cleaner (lines 141-143) *)

(** [sales_df['transaction_date'] = pd.to_datetime(...)]: one bad cell
    raises for the whole column. *)
Fixpoint parse_dates (df : Indexed RawSales) : option (Indexed CleanSales) :=
  match df with
  | [] => Some []
  | (i, r) :: rest =>
      match to_datetime (Sales.transaction_date r), parse_dates rest with
      | Some d, Some rest' => Some ((i, Sales.set_date r d) :: rest')
      | _, _ => None
      end
  end.

(** [dropna(subset=['transaction_id', 'total_amount'])] *)
Definition dropna_subset {D : Type} (df : Indexed (Sales.t D))
  : Indexed (Sales.t D) :=
  filter (fun ir => notnull (Sales.transaction_id (snd ir))
                    && notnull (Sales.total_amount (snd ir))) df.

(** [sales_df[sales_df['total_amount'] > 0]]; NaN > 0 is False. *)
Definition amount_positive {D : Type} (r : Sales.t D) : bool :=
  match Sales.total_amount r with
  | Some a => Qlt_bool 0 a
  | None => false
  end.

Definition keep_positive {D : Type} (df : Indexed (Sales.t D))
  : Indexed (Sales.t D) :=
  filter (fun ir => amount_positive (snd ir)) df.

Definition cleaner (df : Indexed RawSales) : option (Indexed CleanSales) :=
  omap (fun parsed => keep_positive (dropna_subset parsed)) (parse_dates df).

(** A cleaned frame read back as an input frame: a parsed date is a date,
    NaT is a null. *)
Definition as_raw_date (d : option date) : raw_date :=
  match d with Some x => RawDate x | None => RawNull end.

Definition as_raw (df : Indexed CleanSales) : Indexed RawSales :=
  map (fun ir => (fst ir, Sales.set_date (snd ir)
                            (as_raw_date (Sales.transaction_date (snd ir))))) df.

(** ** Feature Deriver (lines 146-152) *)

Module Derived.
Record t : Type := mk {
  base : CleanSales;
  revenue : option Q;
  profit_margin : option Q;
  year : option Z;
  month : option Z;
  quarter : option Z;
  day_of_week : option Z;
  week_of_year : option Z
}.
End Derived.

(** A float Series with its index labels, and [Series.loc] on a unique
    index: a label that is absent gives NaN once two Series are aligned. *)
Definition Series : Type := Indexed (option Q).

Definition loc (s : Series) (i : nat) : option Q :=
  match find (fun e => Nat.eqb (fst e) i) s with
  | Some e => snd e
  | None => None
  end.

(** [self.raw_data['products']['cost_price']]: the column of the product
    frame under the product frame's own [RangeIndex]. *)
Definition cost_price_series (products : list Product.t) : Series :=
  range_index (map Product.cost_price products).

(** [sales_df['quantity_sold'] * sales_df['unit_price']]: both operands are
    columns of the same frame.  The product of the model is exact, the
    float64 product of the code is its rounding. *)
Definition revenue_of (r : CleanSales) : option Q :=
  nmul (as_float (Sales.quantity_sold r)) (Sales.unit_price r).

(** [sales_df['total_amount'] - (sales_df['quantity_sold'] *
    self.raw_data['products']['cost_price'])]: the operands belong to two
    frames, so pandas aligns them on their index labels.  The row of
    [sales_df] labelled [i] meets the cost price labelled [i] in the product
    frame, whatever the row's [product_id]. *)
Definition profit_margin_of (products : list Product.t)
  (i : nat) (r : CleanSales) : option Q :=
  nsub (Sales.total_amount r)
       (nmul (as_float (Sales.quantity_sold r))
             (loc (cost_price_series products) i)).

Definition derive_row (products : list Product.t) (ir : nat * CleanSales)
  : nat * Derived.t :=
  let r := snd ir in
  let d := Sales.transaction_date r in
  (fst ir,
   Derived.mk r (revenue_of r) (profit_margin_of products (fst ir) r)
     (dt_year d) (dt_month d) (dt_quarter d) (dt_dayofweek d) (dt_isoweek d)).

(** A row whose cells are all null. *)
Definition null_sale : CleanSales :=
  Sales.mk None None None None None None None None None.

(** Line 147 assigns a Series, indexed by the labels of the product frame,
    to a column of the sales frame.  A frame that has rows keeps its own
    labels and takes the cells of the Series at these labels.  A frame left
    without rows by the cleaning takes over the index of the Series: it gets
    one row per product label, and every cell of these rows is null. *)
Definition adopt_index (products : list Product.t) (df : Indexed CleanSales)
  : Indexed CleanSales :=
  match df with
  | [] => map (fun i => (i, null_sale)) (seq 0 (List.length products))
  | _ :: _ => df
  end.

Definition feature_deriver (products : list Product.t)
  (df : Indexed CleanSales) : Indexed Derived.t :=
  map (derive_row products) (adopt_index products df).

(** ** Joiner (lines 155-166) *)

(** Key comparison of [merge]: two keys match when they are equal, and pandas
    also matches a null key with a null key. *)
Definition key_eqb (a b : option Z) : bool :=
  match a, b with
  | Some x, Some y => x =? y
  | None, None => true
  | _, _ => false
  end.

(** [left.merge(right, on=key, how='left')]: every left row, in order, with
    each right row of the same key, or with nulls when there is none.  The
    function is total; pandas raises when the key column of one frame is
    null in every row and held as objects while the other holds integers. *)
Definition merge_left {L R : Type} (lkey : L -> option Z) (rkey : R -> option Z)
  (left : list L) (right : list R) : list (L * option R) :=
  flat_map (fun x =>
              match filter (fun y => key_eqb (lkey x) (rkey y)) right with
              | [] => [(x, None)]
              | ms => map (fun y => (x, Some y)) ms
              end) left.

Module Enriched.
Record t : Type := mk {
  sale : Derived.t;
  product : option Product.t;
  customer : option Customer.t
}.

(** Columns of the joined frame. *)
Definition transaction_id (e : t) := Sales.transaction_id (Derived.base (sale e)).
Definition transaction_date (e : t) := Sales.transaction_date (Derived.base (sale e)).
Definition product_id (e : t) := Sales.product_id (Derived.base (sale e)).
Definition customer_id (e : t) := Sales.customer_id (Derived.base (sale e)).
Definition quantity_sold (e : t) := Sales.quantity_sold (Derived.base (sale e)).
Definition unit_price (e : t) := Sales.unit_price (Derived.base (sale e)).
Definition total_amount (e : t) := Sales.total_amount (Derived.base (sale e)).
Definition revenue (e : t) := Derived.revenue (sale e).
Definition profit_margin (e : t) := Derived.profit_margin (sale e).
Definition year (e : t) := Derived.year (sale e).
Definition month (e : t) := Derived.month (sale e).
Definition product_name (e : t) := product e >>= Product.product_name.
Definition category_name (e : t) := product e >>= Product.category_name.
Definition region_name (e : t) := customer e >>= Customer.region_name.
End Enriched.

Definition joiner (products : list Product.t) (customers : list Customer.t)
  (sales_df : list Derived.t) : list Enriched.t :=
  let with_product :=
    merge_left (fun s => Sales.product_id (Derived.base s))
               Product.product_id sales_df products in
  let with_customer :=
    merge_left (fun sp => Sales.customer_id (Derived.base (fst sp)))
               Customer.customer_id with_product customers in
  map (fun spc => Enriched.mk (fst (fst spc)) (snd (fst spc)) (snd spc))
      with_customer.

(** [self.raw_data]: the three frames the transform reads. *)
Record RawData : Type := mkRawData {
  raw_sales : list RawSales;
  raw_products : list Product.t;
  raw_customers : list Customer.t
}.

(** [processed_data['sales_enhanced']]; [None] when the cleaning raised. *)
Definition sales_enhanced (raw : RawData) : option (list Enriched.t) :=
  omap (fun cleaned =>
          joiner (raw_products raw) (raw_customers raw)
                 (map snd (feature_deriver (raw_products raw) cleaned)))
       (cleaner (range_index (raw_sales raw))).

(** ** Aggregator (lines 172-201) *)

(** *** [groupby] *)

Section GroupBy.
Context {K R : Type}.
Variable K_eq_dec : forall a b : K, {a = b} + {a <> b}.
Variable K_leb : K -> K -> bool.
(** [K_isnull k]: one of the key columns is null. *)
Variable K_isnull : K -> bool.
Variable key : R -> K.

Definition same_key (k : K) (r : R) : bool :=
  if K_eq_dec k (key r) then true else false.

Fixpoint insert_key (k : K) (ks : list K) : list K :=
  match ks with
  | [] => [k]
  | k' :: rest => if K_leb k k' then k :: ks else k' :: insert_key k rest
  end.

(** [sort=True]: the group keys come out in ascending order. *)
Definition sort_keys (ks : list K) : list K := fold_right insert_key [] ks.

Definition group_keys (rows : list R) : list K :=
  sort_keys (nodup K_eq_dec (map key rows)).

(** [dropna=True] removes, before grouping, the rows with a null in a key
    column. *)
Definition grouped_rows (dropna : bool) (rows : list R) : list R :=
  if dropna then filter (fun r => negb (K_isnull (key r))) rows else rows.

(** The groups: each distinct key with the rows that carry it, in order. *)
Definition groupby (dropna : bool) (rows : list R) : list (K * list R) :=
  let kept := grouped_rows dropna rows in
  map (fun k => (k, filter (same_key k) kept)) (group_keys kept).
End GroupBy.

(** *** Orders and equality on key columns *)

Definition opt_leb {A : Type} (leb : A -> A -> bool) (a b : option A) : bool :=
  match a, b with
  | Some x, Some y => leb x y
  | _, None => true
  | None, Some _ => false
  end.

Definition opt_eqb {A : Type} (eqb : A -> A -> bool) (a b : option A) : bool :=
  match a, b with
  | Some x, Some y => eqb x y
  | None, None => true
  | _, _ => false
  end.

Definition oZ_leb := opt_leb Z.leb.
Definition oZ_eqb := opt_eqb Z.eqb.
Definition ostr_leb := opt_leb String.leb.
Definition ostr_eqb := opt_eqb String.eqb.

Definition oZ_eq_dec : forall a b : option Z, {a = b} + {a <> b}.
Proof. decide equality. apply Z.eq_dec. Defined.

Definition ostr_eq_dec : forall a b : option string, {a = b} + {a <> b}.
Proof. decide equality. apply string_dec. Defined.

(** *** Aggregation functions; [sum], [count], [min] and [max] skip nulls *)

(** The two sums add exactly.  The float64 sum of the code rounds and its
    int64 sum wraps past 2^63; they are these sums where no partial sum
    rounds or wraps. *)

Definition sum_skipna (col : list (option Q)) : Q :=
  fold_right (fun x acc => match x with Some v => (v + acc)%Q | None => acc end)
             0%Q col.

Definition sum_skipna_int (col : list (option Z)) : Z :=
  fold_right (fun x acc => match x with Some v => v + acc | None => acc end)
             0 col.

Definition count_notnull {A : Type} (col : list (option A)) : Z :=
  Z.of_nat (List.length (filter notnull col)).

Definition date_min (a b : date) : date := if date_leb a b then a else b.
Definition date_max (a b : date) : date := if date_leb a b then b else a.

Definition reduce_skipna {A : Type} (f : A -> A -> A) (col : list (option A))
  : option A :=
  fold_right (fun x acc =>
                match x, acc with
                | Some v, Some w => Some (f v w)
                | Some v, None => Some v
                | None, _ => acc
                end) None col.

Definition min_skipna := reduce_skipna date_min.
Definition max_skipna := reduce_skipna date_max.

(** *** Monthly revenue summary (lines 172-178) *)

Module MonthlyRevenue.
Record t : Type := mk {
  year : option Z;
  month : option Z;
  region : option string;
  revenue : Q;
  total_sales : Q;
  units_sold : Z;
  transaction_count : Z
}.
End MonthlyRevenue.

Definition MonthKey : Type := (option Z * option Z * option string)%type.

Definition month_key (e : Enriched.t) : MonthKey :=
  (Enriched.year e, Enriched.month e, Enriched.region_name e).

Definition month_key_isnull (k : MonthKey) : bool :=
  let '(y, m, r) := k in isnull y || isnull m || isnull r.

Definition month_key_leb (a b : MonthKey) : bool :=
  let '(y1, m1, r1) := a in
  let '(y2, m2, r2) := b in
  if oZ_eqb y1 y2
  then if oZ_eqb m1 m2 then ostr_leb r1 r2 else oZ_leb m1 m2
  else oZ_leb y1 y2.

Definition month_key_eq_dec : forall a b : MonthKey, {a = b} + {a <> b}.
Proof.
  decide equality; [apply ostr_eq_dec | decide equality; apply oZ_eq_dec].
Defined.

Definition monthly_groups (sales : list Enriched.t)
  : list (MonthKey * list Enriched.t) :=
  groupby month_key_eq_dec month_key_leb month_key_isnull month_key true sales.

Definition monthly_agg (g : MonthKey * list Enriched.t) : MonthlyRevenue.t :=
  let '(y, m, r) := fst g in
  MonthlyRevenue.mk y m r
    (sum_skipna (map Enriched.revenue (snd g)))
    (sum_skipna (map Enriched.total_amount (snd g)))
    (sum_skipna_int (map Enriched.quantity_sold (snd g)))
    (count_notnull (map Enriched.transaction_id (snd g))).

Definition monthly_revenue (sales : list Enriched.t) : list MonthlyRevenue.t :=
  map monthly_agg (monthly_groups sales).

(** *** Product performance summary (lines 183-188) *)

Module ProductPerformance.
Record t : Type := mk {
  category_name : option string;
  product_name : option string;
  revenue : Q;
  quantity_sold : Z;
  profit_margin : Q
}.
End ProductPerformance.

Definition ProductKey : Type := (option string * option string)%type.

Definition product_key (e : Enriched.t) : ProductKey :=
  (Enriched.category_name e, Enriched.product_name e).

Definition product_key_isnull (k : ProductKey) : bool :=
  isnull (fst k) || isnull (snd k).

Definition product_key_leb (a b : ProductKey) : bool :=
  if ostr_eqb (fst a) (fst b) then ostr_leb (snd a) (snd b)
  else ostr_leb (fst a) (fst b).

Definition product_key_eq_dec : forall a b : ProductKey, {a = b} + {a <> b}.
Proof. decide equality; apply ostr_eq_dec. Defined.

Definition product_agg (g : ProductKey * list Enriched.t)
  : ProductPerformance.t :=
  ProductPerformance.mk (fst (fst g)) (snd (fst g))
    (sum_skipna (map Enriched.revenue (snd g)))
    (sum_skipna_int (map Enriched.quantity_sold (snd g)))
    (sum_skipna (map Enriched.profit_margin (snd g))).

(** The frame before [sort_values]: groups in ascending key order. *)
Definition product_groups (sales : list Enriched.t)
  : list ProductPerformance.t :=
  map product_agg
    (groupby product_key_eq_dec product_key_leb product_key_isnull
             product_key true sales).

Definition revenue_desc (a b : ProductPerformance.t) : Prop :=
  (ProductPerformance.revenue b <= ProductPerformance.revenue a)%Q.

(** [sort_values('revenue', ascending=False)] is called with the default
    [kind='quicksort'], which pandas documents as not stable: the call
    returns the rows reordered so that [revenue] does not increase, and
    fixes nothing about rows of equal [revenue].  A sorting routine is any
    function with that contract. *)
Record sort_values_desc (sortf : list ProductPerformance.t
                                 -> list ProductPerformance.t) : Prop := {
  sort_values_perm : forall l, Permutation (sortf l) l;
  sort_values_sorted : forall l, StronglySorted revenue_desc (sortf l)
}.

Definition product_performance
  (sort_values : list ProductPerformance.t -> list ProductPerformance.t)
  (sales : list Enriched.t) : list ProductPerformance.t :=
  sort_values (product_groups sales).

(** *** Customer metrics (lines 193-201) *)

Module CustomerMetrics.
Record t : Type := mk {
  customer_id : option Z;
  total_revenue : Q;
  transaction_frequency : Z;
  first_purchase : option date;
  last_purchase : option date;
  customer_lifetime : option Z;
  avg_order_value : option Q
}.
End CustomerMetrics.

(** [(last_purchase - first_purchase).dt.days] *)
Definition lifetime_days (first last : option date) : option Z :=
  olift2 (fun l f => days_from_civil l - days_from_civil f) last first.

(** [total_revenue / transaction_frequency].  A float division by zero
    raises nothing in pandas and gives inf or NaN; neither is a number of
    the model, so both read as null. *)
Definition order_value (total : Q) (frequency : Z) : option Q :=
  if frequency =? 0 then None else Some (total / inject_Z frequency)%Q.

Definition customer_groups (sales : list Enriched.t)
  : list (option Z * list Enriched.t) :=
  groupby oZ_eq_dec oZ_leb isnull Enriched.customer_id true sales.

Definition customer_agg (g : option Z * list Enriched.t) : CustomerMetrics.t :=
  let total := sum_skipna (map Enriched.revenue (snd g)) in
  let frequency := count_notnull (map Enriched.transaction_id (snd g)) in
  let first := min_skipna (map Enriched.transaction_date (snd g)) in
  let last := max_skipna (map Enriched.transaction_date (snd g)) in
  CustomerMetrics.mk (fst g) total frequency first last
    (lifetime_days first last) (order_value total frequency).

Definition customer_metrics (sales : list Enriched.t)
  : list CustomerMetrics.t :=
  map customer_agg (customer_groups sales).

(** ** Segmenter (lines 204-214) *)

Definition categorize_customer (row : CustomerMetrics.t) : string :=
  if Qle_bool 10000 (CustomerMetrics.total_revenue row)
     && (10 <=? CustomerMetrics.transaction_frequency row)
  then "VIP"%string
  else if Qle_bool 5000 (CustomerMetrics.total_revenue row)
          || (5 <=? CustomerMetrics.transaction_frequency row)
  then "High Value"%string
  else if Qle_bool 1000 (CustomerMetrics.total_revenue row)
  then "Regular"%string
  else "Low Value"%string.

Module CustomerSegment.
Record t : Type := mk {
  metrics : CustomerMetrics.t;
  customer_segment : string
}.
End CustomerSegment.

(** [customer_metrics.apply(categorize_customer, axis=1)] *)
Definition customer_segments (sales : list Enriched.t)
  : list CustomerSegment.t :=
  map (fun row => CustomerSegment.mk row (categorize_customer row))
      (customer_metrics sales).

(** ** The transform *)

Record ProcessedData : Type := mkProcessed {
  out_sales_enhanced : list Enriched.t;
  out_monthly_revenue : list MonthlyRevenue.t;
  out_product_performance : list ProductPerformance.t;
  out_customer_segments : list CustomerSegment.t
}.

(** [transform_sales_data]; [None] stands for the empty dict returned from
    the [except] branch. *)
Definition transform_sales_data
  (sort_values : list ProductPerformance.t -> list ProductPerformance.t)
  (raw : RawData) : option ProcessedData :=
  omap (fun enhanced =>
          mkProcessed enhanced
            (monthly_revenue enhanced)
            (product_performance sort_values enhanced)
            (customer_segments enhanced))
       (sales_enhanced raw).

(** ** The specification's wording, for comparison with the code *)

(** Cost price resolved by looking the row's [product_id] up in the Product
    table; no match gives null. *)
Definition lookup_cost_price (products : list Product.t) (pid : option Z)
  : option Q :=
  match pid with
  | Some p =>
      find (fun pr => oZ_eqb (Product.product_id pr) (Some p)) products
      >>= Product.cost_price
  | None => None
  end.

(** [profit_margin = total_amount - quantity_sold * cost_price], with the
    cost price of the row's product. *)
Definition profit_margin_by_lookup (products : list Product.t)
  (r : CleanSales) : option Q :=
  nsub (Sales.total_amount r)
       (nmul (as_float (Sales.quantity_sold r))
             (lookup_cost_price products (Sales.product_id r))).

Definition key_of (p : ProductPerformance.t) : ProductKey :=
  (ProductPerformance.category_name p, ProductPerformance.product_name p).

Definition key_asc (a b : ProductPerformance.t) : Prop :=
  product_key_leb (key_of a) (key_of b) = true.

(** Rows of equal revenue in ascending (category_name, product_name)
    order, on top of the descending revenue order. *)
Definition revenue_desc_ties_by_key (a b : ProductPerformance.t) : Prop :=
  revenue_desc a b
  /\ ((ProductPerformance.revenue a == ProductPerformance.revenue b)%Q ->
      key_asc a b).

(** ** A sorting routine that meets the [sort_values] contract *)

(** Insertion in front of the rows of equal revenue: folded from the right
    it keeps rows of equal revenue in their input order (a stable sort). *)
Fixpoint insert_before_ties (x : ProductPerformance.t)
  (l : list ProductPerformance.t) : list ProductPerformance.t :=
  match l with
  | [] => [x]
  | y :: rest =>
      if Qle_bool (ProductPerformance.revenue y) (ProductPerformance.revenue x)
      then x :: l
      else y :: insert_before_ties x rest
  end.

Definition sort_stable (l : list ProductPerformance.t) :=
  fold_right insert_before_ties [] l.

Definition Qsum (l : list Q) : Q := fold_right Qplus 0%Q l.

(** ** Columns on which the sums of the code are exact *)

(** [sum_skipna] and [sum_skipna_int] add exactly.  The code adds in float64
    and in int64, which round or wrap on some columns and are exact on
    others: when the cells are whole numbers whose absolute values add up to
    at most 2^53, every partial sum, taken in any order, is a whole number
    of at most that size, which float64 holds exactly and int64 holds
    without a wrap.  The equations between totals are stated on such
    columns. *)
Definition whole (x : option Q) : bool :=
  match x with Some v => (Qden v =? 1)%positive | None => true end.

Definition exact_sum (col : list (option Q)) : Prop :=
  forallb whole col = true
  /\ (sum_skipna (map (omap Qabs) col) <= inject_Z (2 ^ 53))%Q.

Definition exact_int_sum (col : list (option Z)) : Prop :=
  sum_skipna_int (map (omap Z.abs) col) <= 2 ^ 53.

(** ** Sample frames *)

Module Samples.
Local Open Scope string_scope.

Definition jan (d : Z) : raw_date := RawDate (mkDate 2024 1 d).

Definition pen : Product.t :=
  Product.mk (Some 1) (Some "Pen") (Some 1) (Some "Office") (Some "Acme")
             (Some 10%Q) (Some 12%Q).
Definition ink : Product.t :=
  Product.mk (Some 2) (Some "Ink") (Some 1) (Some "Office") (Some "Acme")
             (Some 3%Q) (Some 5%Q).
Definition products : list Product.t := [pen; ink].

Definition north : Customer.t :=
  Customer.mk (Some 7) (Some "Asha") (Some "Retail") (Some 1) (Some "North")
              (Some (mkDate 2023 5 1)).
Definition customers : list Customer.t := [north].

(** One unit of ink (product 2) sold for 10 to customer 7. *)
Definition sale_of_ink : RawSales :=
  Sales.mk (Some 1) (jan 1) (Some 2) (Some 7) (Some 1) (Some 10%Q)
           (Some 10%Q) (Some 4) (Some 1).
(** The same sale for a product the Product table does not have. *)
Definition sale_unknown_product : RawSales :=
  Sales.mk (Some 2) (jan 2) (Some 99) (Some 7) (Some 1) (Some 10%Q)
           (Some 10%Q) (Some 4) (Some 1).
(** A sale to a customer the Customer table does not have. *)
Definition sale_unknown_customer : RawSales :=
  Sales.mk (Some 3) (jan 3) (Some 1) (Some 8) (Some 2) (Some 12%Q)
           (Some 24%Q) (Some 4) (Some 1).
(** Two pens (product 1) sold for 10: the revenue of the ink sale. *)
Definition sale_of_pen : RawSales :=
  Sales.mk (Some 9) (jan 9) (Some 1) (Some 7) (Some 2) (Some 5%Q)
           (Some 10%Q) (Some 4) (Some 1).
Definition sale_zero_amount : RawSales :=
  Sales.mk (Some 5) (jan 5) (Some 1) (Some 7) (Some 1) (Some 12%Q)
           (Some 0%Q) (Some 4) (Some 1).
Definition sale_negative_amount : RawSales :=
  Sales.mk (Some 6) (jan 6) (Some 1) (Some 7) (Some 1) (Some 12%Q)
           (Some (-50)%Q) (Some 4) (Some 1).
Definition sale_null_id : RawSales :=
  Sales.mk None (jan 7) (Some 1) (Some 7) (Some 1) (Some 12%Q)
           (Some 100%Q) (Some 4) (Some 1).
Definition sale_bad_date : RawSales :=
  Sales.mk (Some 8) (RawUnparseable "31/31/2024") (Some 1) (Some 7) (Some 1)
           (Some 12%Q) (Some 12%Q) (Some 4) (Some 1).

Definition raw_of (sales : list RawSales) : RawData :=
  mkRawData sales products customers.

(** Three derived rows: a matched sale, one with an unknown product and
    one with an unknown customer. *)
Definition parsed (r : RawSales) : CleanSales :=
  Sales.set_date r (match Sales.transaction_date r with
                    | RawDate d => Some d
                    | _ => None
                    end).
Definition derived : list Derived.t :=
  map snd (feature_deriver products
             (range_index (map parsed [sale_of_ink; sale_unknown_product;
                                       sale_unknown_customer]))).

Definition mixed_sales : list RawSales :=
  [sale_zero_amount; sale_of_ink; sale_negative_amount; sale_null_id;
   sale_unknown_customer].
End Samples.

(** ** Auxiliary definitions of the further properties *)

(** The rows of [right] that [merge] pairs with the key [k]. *)
Definition matching {R : Type} (rkey : R -> option Z) (k : option Z)
  (right : list R) : list R :=
  filter (fun y => key_eqb k (rkey y)) right.

(** How many output rows a left join makes of one left row. *)
Definition fanout {R : Type} (rkey : R -> option Z) (k : option Z)
  (right : list R) : nat :=
  Nat.max 1 (List.length (matching rkey k right)).

Definition Zsum (l : list Z) : Z := fold_right Z.add 0 l.

Definition monthly_key_of (m : MonthlyRevenue.t) : MonthKey :=
  (MonthlyRevenue.year m, MonthlyRevenue.month m, MonthlyRevenue.region m).


(** The four labels in the order of the decision list. *)
Definition segment_rank (label : string) : Z :=
  if String.eqb label "VIP" then 3
  else if String.eqb label "High Value" then 2
  else if String.eqb label "Regular" then 1
  else 0.

(** An enriched row reduced to the columns the customer metrics read: the
    transaction's own cells and its revenue. *)
Definition transaction_columns (e : Enriched.t) : Enriched.t :=
  Enriched.mk
    (Derived.mk (Derived.base (Enriched.sale e)) (Enriched.revenue e)
                None None None None None None)
    None None.


(** ** Quality Reporter (lines 282-294) *)

(** A cell of a frame, whatever its column. *)
Inductive cell : Type :=
| CNull
| CInt (z : Z)
| CFloat (q : Q)
| CStr (s : string)
| CDate (d : date).

Definition cell_int (x : option Z) : cell :=
  match x with Some z => CInt z | None => CNull end.
Definition cell_float (x : option Q) : cell :=
  match x with Some q => CFloat q | None => CNull end.
Definition cell_str (x : option string) : cell :=
  match x with Some s => CStr s | None => CNull end.
Definition cell_date (x : option date) : cell :=
  match x with Some d => CDate d | None => CNull end.

Definition cell_isnull (c : cell) : bool :=
  match c with CNull => true | _ => false end.

Definition date_eqb (a b : date) : bool :=
  (d_year a =? d_year b) && (d_month a =? d_month b) && (d_day a =? d_day b).

(** Equality of cells as [duplicated] sees it: floats by value, and a null
    equal to a null. *)
Definition cell_eqb (a b : cell) : bool :=
  match a, b with
  | CNull, CNull => true
  | CInt x, CInt y => x =? y
  | CFloat x, CFloat y => Qeq_bool x y
  | CStr x, CStr y => String.eqb x y
  | CDate x, CDate y => date_eqb x y
  | _, _ => false
  end.

Fixpoint row_eqb (a b : list cell) : bool :=
  match a, b with
  | [], [] => true
  | x :: a', y :: b' => cell_eqb x y && row_eqb a' b'
  | _, _ => false
  end.

(** A frame as the reporter reads it: column names and rows of cells. *)
Record Frame : Type := mkFrame {
  columns : list string;
  rows : list (list cell)
}.

(** [len(df)] *)
Definition record_count (f : Frame) : nat := List.length (rows f).

(** [df.isnull().sum().to_dict()]: for each column, how many rows hold a
    null there. *)
Definition null_counts (f : Frame) : list (string * nat) :=
  map (fun jc =>
         (snd jc,
          List.length
            (filter (fun r => cell_isnull (nth (fst jc) r CNull)) (rows f))))
      (range_index (columns f)).

(** [df.duplicated()], with the default [keep='first']: a row is marked
    when an earlier row equals it. *)
Fixpoint duplicated (seen : list (list cell)) (l : list (list cell))
  : list bool :=
  match l with
  | [] => []
  | r :: rest => existsb (row_eqb r) seen :: duplicated (r :: seen) rest
  end.

(** [df.duplicated().sum()] *)
Definition duplicate_count (f : Frame) : nat :=
  List.length (filter (fun b => b) (duplicated [] (rows f))).

(** One entry of the report.  The source also stores [df.dtypes]; the row
    model carries no dtypes, so that entry is not part of the model. *)
Record Quality : Type := mkQuality {
  q_record_count : nat;
  q_null_counts : list (string * nat);
  q_duplicate_count : nat
}.

Definition quality_of (f : Frame) : Quality :=
  mkQuality (record_count f) (null_counts f) (duplicate_count f).

(** The four frames of [processed_data], column by column. *)
Definition sales_enhanced_cells (e : Enriched.t) : list cell :=
  let s := Derived.base (Enriched.sale e) in
  let d := Enriched.sale e in
  let p := Enriched.product e in
  let c := Enriched.customer e in
  [cell_int (Sales.transaction_id s); cell_date (Sales.transaction_date s);
   cell_int (Sales.product_id s); cell_int (Sales.customer_id s);
   cell_int (Sales.quantity_sold s); cell_float (Sales.unit_price s);
   cell_float (Sales.total_amount s); cell_int (Sales.sales_rep_id s);
   cell_int (Sales.region_id s);
   cell_float (Derived.revenue d); cell_float (Derived.profit_margin d);
   cell_int (Derived.year d); cell_int (Derived.month d);
   cell_int (Derived.quarter d); cell_int (Derived.day_of_week d);
   cell_int (Derived.week_of_year d);
   cell_str (p >>= Product.product_name); cell_int (p >>= Product.category_id);
   cell_str (p >>= Product.category_name); cell_str (p >>= Product.brand);
   cell_float (p >>= Product.cost_price); cell_float (p >>= Product.list_price);
   cell_str (c >>= Customer.customer_name);
   cell_str (c >>= Customer.customer_type);
   cell_int (c >>= Customer.region_id); cell_str (c >>= Customer.region_name);
   cell_date (c >>= Customer.signup_date)].

Definition sales_enhanced_frame (t : list Enriched.t) : Frame :=
  mkFrame
    ["transaction_id"; "transaction_date"; "product_id"; "customer_id";
     "quantity_sold"; "unit_price"; "total_amount"; "sales_rep_id";
     "region_id_x"; "revenue"; "profit_margin"; "year"; "month"; "quarter";
     "day_of_week"; "week_of_year"; "product_name"; "category_id";
     "category_name"; "brand"; "cost_price"; "list_price"; "customer_name";
     "customer_type"; "region_id_y"; "region_name"; "signup_date"]%string
    (map sales_enhanced_cells t).

Definition monthly_cells (m : MonthlyRevenue.t) : list cell :=
  [cell_int (MonthlyRevenue.year m); cell_int (MonthlyRevenue.month m);
   cell_str (MonthlyRevenue.region m); CFloat (MonthlyRevenue.revenue m);
   CFloat (MonthlyRevenue.total_sales m); CInt (MonthlyRevenue.units_sold m);
   CInt (MonthlyRevenue.transaction_count m)].

Definition monthly_revenue_frame (t : list MonthlyRevenue.t) : Frame :=
  mkFrame
    ["year"; "month"; "region"; "revenue"; "total_sales"; "units_sold";
     "transaction_count"]%string
    (map monthly_cells t).

Definition product_cells (p : ProductPerformance.t) : list cell :=
  [cell_str (ProductPerformance.category_name p);
   cell_str (ProductPerformance.product_name p);
   CFloat (ProductPerformance.revenue p);
   CInt (ProductPerformance.quantity_sold p);
   CFloat (ProductPerformance.profit_margin p)].

Definition product_performance_frame (t : list ProductPerformance.t) : Frame :=
  mkFrame
    ["category_name"; "product_name"; "revenue"; "quantity_sold";
     "profit_margin"]%string
    (map product_cells t).

Definition customer_cells (c : CustomerSegment.t) : list cell :=
  let m := CustomerSegment.metrics c in
  [cell_int (CustomerMetrics.customer_id m);
   CFloat (CustomerMetrics.total_revenue m);
   CInt (CustomerMetrics.transaction_frequency m);
   cell_date (CustomerMetrics.first_purchase m);
   cell_date (CustomerMetrics.last_purchase m);
   cell_int (CustomerMetrics.customer_lifetime m);
   cell_float (CustomerMetrics.avg_order_value m);
   CStr (CustomerSegment.customer_segment c)].

Definition customer_segments_frame (t : list CustomerSegment.t) : Frame :=
  mkFrame
    ["customer_id"; "total_revenue"; "transaction_frequency";
     "first_purchase"; "last_purchase"; "customer_lifetime";
     "avg_order_value"; "customer_segment"]%string
    (map customer_cells t).

(** [self.processed_data.items()]: the tables in the order in which the
    transform stored them; the dict is empty before a successful
    transform. *)
Definition processed_items (processed : option ProcessedData)
  : list (string * Frame) :=
  match processed with
  | None => []
  | Some p =>
      [("sales_enhanced"%string, sales_enhanced_frame (out_sales_enhanced p));
       ("monthly_revenue"%string,
        monthly_revenue_frame (out_monthly_revenue p));
       ("product_performance"%string,
        product_performance_frame (out_product_performance p));
       ("customer_segments"%string,
        customer_segments_frame (out_customer_segments p))]
  end.

Definition generate_data_quality_report (processed : option ProcessedData)
  : list (string * Quality) :=
  map (fun item => (fst item, quality_of (snd item)))
      (processed_items processed).

(** ** The pipeline and its collaborators (lines 46-130 and 225-280) *)

(** What the collaborators of one run do: each call either returns or
    raises.  [None] and [false] stand for a call that raises. *)
Record World : Type := mkWorld {
  (** [os.getenv('DATABASE_CONNECTION_STRING')] *)
  env_connection_string : option string;
  (** whether [create_engine] returns on a connection string *)
  create_engine_ok : string -> bool;
  (** the three [read_sql] calls *)
  sql_sales : option (list RawSales);
  sql_products : option (list Product.t);
  sql_customers : option (list Customer.t);
  (** [read_excel] of the targets sheet *)
  excel_targets : option (list (list cell));
  (** [os.makedirs(output_dir, exist_ok=True)] *)
  makedirs_ok : bool;
  (** whether [to_csv] returns, by file path *)
  to_csv_ok : string -> bool;
  (** whether [to_sql] returns, by table name *)
  to_sql_ok : string -> bool
}.

(** [connect_to_database]: [create_engine(None)] raises, so the method
    returns [False] when the variable is unset. *)
Definition connect_to_database (w : World) : bool :=
  match env_connection_string w with
  | Some url => create_engine_ok w url
  | None => false
  end.

(** [extract_sales_data]: an exception in the database block returns the
    empty dict; an exception in the Excel block is logged and the frames
    read so far are returned. *)
Definition extract_sales_data (w : World)
  : option (RawData * option (list (list cell))) :=
  match sql_sales w, sql_products w, sql_customers w with
  | Some s, Some p, Some c => Some (mkRawData s p c, excel_targets w)
  | _, _, _ => None
  end.

(** A write that returned. *)
Inductive effect : Type :=
| CsvWritten (path : string) (f : Frame)
| SqlWritten (table : string) (f : Frame).

Definition csv_path (table_name : string) : string :=
  ("data/processed/" ++ table_name ++ ".csv")%string.

Definition sql_table (table_name : string) : string :=
  ("processed_" ++ table_name)%string.

(** One [for] loop of [load_processed_data]: the writes that returned, and
    whether the loop ran to its end; the first write that raises ends it. *)
Fixpoint write_all (ok : string -> bool) (target : string -> string)
  (done : string -> Frame -> effect) (items : list (string * Frame))
  : list effect * bool :=
  match items with
  | [] => ([], true)
  | (name, f) :: rest =>
      if ok (target name)
      then let (effects, finished) := write_all ok target done rest in
           (done (target name) f :: effects, finished)
      else ([], false)
  end.

(** [load_processed_data]: all the CSV files, then, when the engine is set,
    all the database tables; any exception ends the method with [False]. *)
Definition load_processed_data (w : World) (engine : bool)
  (items : list (string * Frame)) : list effect * bool :=
  if makedirs_ok w then
    let (files, files_ok) := write_all (to_csv_ok w) csv_path CsvWritten items in
    if files_ok then
      if engine then
        let (tables, tables_ok) :=
          write_all (to_sql_ok w) sql_table SqlWritten items in
        (files ++ tables, tables_ok)
      else (files, true)
    else (files, false)
  else ([], false).

(** [run_etl_pipeline]: the four stages in order, each one only when the
    stage before it succeeded. *)
Definition run_etl_pipeline
  (sort_values : list ProductPerformance.t -> list ProductPerformance.t)
  (w : World) : list effect * bool :=
  if connect_to_database w then
    match extract_sales_data w with
    | Some (raw, _) =>
        match transform_sales_data sort_values raw with
        | Some processed =>
            load_processed_data w true (processed_items (Some processed))
        | None => ([], false)
        end
    | None => ([], false)
    end
  else ([], false).

(** The writes of a run that loads [items] completely. *)
Definition all_writes (items : list (string * Frame)) : list effect :=
  map (fun item => CsvWritten (csv_path (fst item)) (snd item)) items
  ++ map (fun item => SqlWritten (sql_table (fst item)) (snd item)) items.

Definition table_names : list string :=
  ["sales_enhanced"; "monthly_revenue"; "product_performance";
   "customer_segments"]%string.

(** A world in which every call returns. *)
Definition world_ok : World :=
  mkWorld (Some "mysql://etl@db/sales"%string) (fun _ => true)
          (Some Samples.mixed_sales) (Some Samples.products)
          (Some Samples.customers) None true (fun _ => true) (fun _ => true).

(** [report[table]['null_counts'][column]] *)
Definition null_count_of (column : string) (q : Quality) : option nat :=
  option_map snd
    (find (fun nc => String.eqb (fst nc) column) (q_null_counts q)).

(** ** Calendar dates a timestamp can hold *)

Definition is_leap (y : Z) : bool :=
  ((y mod 4 =? 0) && negb (y mod 100 =? 0)) || (y mod 400 =? 0).

Definition days_in_month (y m : Z) : Z :=
  if m =? 2 then (if is_leap y then 29 else 28)
  else if (m =? 4) || (m =? 6) || (m =? 9) || (m =? 11) then 30
  else 31.

Definition valid_date (d : date) : Prop :=
  1 <= d_month d <= 12
  /\ 1 <= d_day d <= days_in_month (d_year d) (d_month d).

(** Days before the first of March of year [y + 1], up to a constant. *)
Definition year_days (y : Z) : Z := 365 * y + y / 4 - y / 100 + y / 400.

(** The rows of nulls have no transaction, no customer, no amount and no
    date. *)
Definition null_row (e : Enriched.t) : Prop :=
  Derived.base (Enriched.sale e) = null_sale
  /\ Derived.revenue (Enriched.sale e) = None
  /\ Derived.profit_margin (Enriched.sale e) = None
  /\ Derived.year (Enriched.sale e) = None
  /\ Derived.month (Enriched.sale e) = None
  /\ Derived.quarter (Enriched.sale e) = None
  /\ Derived.day_of_week (Enriched.sale e) = None
  /\ Derived.week_of_year (Enriched.sale e) = None.

(** * Properties *)

(** ** Shared facts on lists and nullable cells *)

Lemma filter_true_id {A : Type} (f : A -> bool) (l : list A) :
  Forall (fun x => f x = true) l -> filter f l = l.
Proof.
  induction 1 as [| x l Hx _ IH]; simpl; [reflexivity |].
  now rewrite Hx, IH.
Qed.

Lemma Forall_filter_holds {A : Type} (f : A -> bool) (l : list A) :
  Forall (fun x => f x = true) (filter f l).
Proof.
  apply Forall_forall. intros x Hx. now apply filter_In in Hx.
Qed.

Lemma Forall_filter_keeps {A : Type} (P : A -> Prop) (f : A -> bool)
  (l : list A) : Forall P l -> Forall P (filter f l).
Proof.
  rewrite !Forall_forall. intros H x Hx. apply filter_In in Hx. now apply H.
Qed.

Lemma filter_filter_and {A : Type} (f g : A -> bool) (l : list A) :
  filter f (filter g l) = filter (fun x => g x && f x) l.
Proof.
  induction l as [| x l IH]; simpl; [reflexivity |].
  destruct (g x); simpl; [destruct (f x) |]; now rewrite IH.
Qed.

Lemma notnull_true {A : Type} (x : option A) : notnull x = true <-> x <> None.
Proof. destruct x; unfold notnull; simpl; split; congruence. Qed.

Lemma Qlt_bool_iff (x y : Q) : Qlt_bool x y = true <-> (x < y)%Q.
Proof.
  unfold Qlt_bool. rewrite negb_true_iff. split.
  - intros H. apply Qnot_le_lt. intros Hle.
    apply Qle_bool_iff in Hle. congruence.
  - intros H. destruct (Qle_bool y x) eqn:E; [| reflexivity].
    apply Qle_bool_iff in E. exfalso. now apply (Qlt_not_le x y).
Qed.

Lemma Qle_bool_false (x y : Q) : Qle_bool x y = false <-> (y < x)%Q.
Proof.
  rewrite <- Qlt_bool_iff. unfold Qlt_bool.
  destruct (Qle_bool x y); simpl; split; intros H;
    solve [reflexivity | discriminate H].
Qed.

(** ** Cleaner *)

(** What every row of a cleaned frame satisfies. *)
Definition clean_row {D : Type} (r : Sales.t D) : Prop :=
  Sales.transaction_id r <> None
  /\ exists a, Sales.total_amount r = Some a /\ (0 < a)%Q.

Lemma amount_positive_spec {D : Type} (r : Sales.t D) :
  amount_positive r = true <->
  exists a, Sales.total_amount r = Some a /\ (0 < a)%Q.
Proof.
  unfold amount_positive. destruct (Sales.total_amount r) as [a |].
  - rewrite Qlt_bool_iff. split.
    + intros H. now exists a.
    + intros [b [Hb Hlt]]. now inversion Hb; subst.
  - split; [discriminate | intros [b [Hb _]]; discriminate].
Qed.

Lemma cleaner_rows (df : Indexed RawSales) (out : Indexed CleanSales) :
  cleaner df = Some out -> Forall (fun ir => clean_row (snd ir)) out.
Proof.
  unfold cleaner. destruct (parse_dates df) as [parsed |]; simpl; [| discriminate].
  intros H. inversion H; subst; clear H.
  apply Forall_forall. intros ir Hin.
  unfold keep_positive, dropna_subset in Hin.
  apply filter_In in Hin. destruct Hin as [Hin Hpos].
  apply filter_In in Hin. destruct Hin as [_ Hnn].
  apply andb_true_iff in Hnn. destruct Hnn as [Hid _].
  split; [now apply notnull_true | now apply amount_positive_spec].
Qed.

Lemma set_date_same {D : Type} (r : Sales.t D) :
  Sales.set_date r (Sales.transaction_date r) = r.
Proof. now destruct r. Qed.

Lemma set_date_twice {D E F : Type} (r : Sales.t D) (d : E) (e : F) :
  Sales.set_date (Sales.set_date r d) e = Sales.set_date r e.
Proof. reflexivity. Qed.

Lemma to_datetime_as_raw (d : option date) :
  to_datetime (as_raw_date d) = Some d.
Proof. now destruct d. Qed.

(** Dates that were parsed parse again, to themselves: the second run of
    the date rule raises nothing and changes nothing. *)
Lemma parse_dates_as_raw (df : Indexed CleanSales) :
  parse_dates (as_raw df) = Some df.
Proof.
  induction df as [| [i r] df IH]; [reflexivity |].
  change (as_raw ((i, r) :: df))
    with ((i, Sales.set_date r (as_raw_date (Sales.transaction_date r)))
          :: as_raw df).
  cbn [parse_dates]. rewrite IH.
  change (Sales.transaction_date
            (Sales.set_date r (as_raw_date (Sales.transaction_date r))))
    with (as_raw_date (Sales.transaction_date r)).
  rewrite to_datetime_as_raw.
  now rewrite set_date_twice, set_date_same.
Qed.

Lemma cleaner_as_raw (df : Indexed CleanSales) :
  cleaner (as_raw df) = Some (keep_positive (dropna_subset df)).
Proof. unfold cleaner. now rewrite parse_dates_as_raw. Qed.

(** The cleaner raises exactly when a date cell cannot be parsed. *)
Lemma parse_dates_total (df : Indexed RawSales) :
  Forall (fun ir => to_datetime (Sales.transaction_date (snd ir)) <> None) df ->
  exists out, parse_dates df = Some out.
Proof.
  induction 1 as [| [i r] df Hx _ [out IH]]; simpl; [now exists [] |].
  simpl in Hx. destruct (to_datetime (Sales.transaction_date r)) as [d |];
    [| congruence].
  rewrite IH. eauto.
Qed.

Lemma cleaner_total (df : Indexed RawSales) :
  Forall (fun ir => to_datetime (Sales.transaction_date (snd ir)) <> None) df ->
  exists out, cleaner df = Some out.
Proof.
  intros H. destruct (parse_dates_total df H) as [p Hp].
  unfold cleaner. rewrite Hp. simpl. eauto.
Qed.

(** C7: every row of the Cleaner's output has a non-null [transaction_id]
    and a non-null [total_amount] that is greater than 0; hence no row whose
    [total_amount] is 0, -50 or anything at most 0, or is null, and no row
    whose [transaction_id] is null, appears in the output under any index
    label and with any date. *)
Theorem cleaner_output_invariant
  (df : Indexed RawSales) (out : Indexed CleanSales) :
  cleaner df = Some out ->
  Forall (fun ir =>
            Sales.transaction_id (snd ir) <> None
            /\ exists a, Sales.total_amount (snd ir) = Some a /\ (0 < a)%Q) out
  /\ (forall (i : nat) (r : RawSales) (d : option date),
         Sales.transaction_id r = None
         \/ Sales.total_amount r = None
         \/ (exists a, Sales.total_amount r = Some a /\ (a <= 0)%Q) ->
         ~ In (i, Sales.set_date r d) out).
Proof.
  intros Hc. pose proof (cleaner_rows df out Hc) as Hrows.
  split; [exact Hrows |].
  intros i r d Hbad Hin.
  rewrite Forall_forall in Hrows. specialize (Hrows _ Hin).
  destruct Hrows as [Hid [a [Ha Hpos]]]. simpl in Hid, Ha.
  destruct Hbad as [Hb | [Hb | [b [Hb Hle]]]].
  - contradiction.
  - congruence.
  - rewrite Hb in Ha. inversion Ha; subst.
    now apply (Qlt_not_le 0 a).
Qed.

(** C8: the Cleaner is idempotent: its own output, read back as an input
    frame, passes the date rule, the null rule and the amount rule
    unchanged. *)
Theorem cleaner_idempotent
  (df : Indexed RawSales) (out : Indexed CleanSales) :
  cleaner df = Some out -> cleaner (as_raw out) = Some out.
Proof.
  intros Hc. rewrite cleaner_as_raw. f_equal.
  unfold cleaner in Hc.
  destruct (parse_dates df) as [parsed |]; simpl in Hc; [| discriminate].
  inversion Hc; subst; clear Hc.
  assert (Hd : dropna_subset (keep_positive (dropna_subset parsed))
               = keep_positive (dropna_subset parsed)).
  { unfold dropna_subset at 1. apply filter_true_id.
    unfold keep_positive. apply Forall_filter_keeps.
    unfold dropna_subset. apply Forall_filter_holds. }
  rewrite Hd. unfold keep_positive at 1. apply filter_true_id.
  unfold keep_positive. apply Forall_filter_holds.
Qed.

(** The Cleaner on a frame that holds the three rows of the scenario (an
    amount of 0, an amount of -50, a null id) among two good rows: the good
    rows stay, under their labels 1 and 4. *)
Example cleaner_on_mixed_sales :
  omap (map fst) (cleaner (range_index Samples.mixed_sales)) = Some [1%nat; 4%nat].
Proof. reflexivity. Qed.

Example cleaner_raises_on_bad_date :
  cleaner (range_index [Samples.sale_of_ink; Samples.sale_bad_date]) = None.
Proof. reflexivity. Qed.

Lemma cleaner_output_invariant_witness :
  exists out,
    cleaner (range_index Samples.mixed_sales) = Some out
    /\ Forall (fun ir => clean_row (snd ir)) out
    /\ ~ In (0%nat, Sales.set_date Samples.sale_zero_amount
                      (Some (mkDate 2024 1 5))) out.
Proof.
  eexists. split; [reflexivity |].
  destruct (cleaner_output_invariant
              (range_index Samples.mixed_sales) _ eq_refl) as [Hrows Habsent].
  split; [exact Hrows |].
  apply Habsent. right. right. exists 0%Q. split; [reflexivity | discriminate].
Defined.

Lemma cleaner_idempotent_witness :
  exists out,
    cleaner (range_index Samples.mixed_sales) = Some out
    /\ cleaner (as_raw out) = Some out.
Proof.
  eexists. split; [reflexivity |].
  apply (cleaner_idempotent (range_index Samples.mixed_sales)).
  reflexivity.
Defined.

(** ** Segmenter *)

Section Segmenter.
Variable row : CustomerMetrics.t.
Let revenue := CustomerMetrics.total_revenue row.
Let frequency := CustomerMetrics.transaction_frequency row.

Lemma segment_vip :
  (10000 <= revenue)%Q /\ 10 <= frequency ->
  categorize_customer row = "VIP"%string.
Proof.
  intros [Hr Hf]. unfold categorize_customer. fold revenue frequency.
  apply Qle_bool_iff in Hr. apply Z.leb_le in Hf.
  now rewrite Hr, Hf.
Qed.

Lemma not_vip_test :
  ~ ((10000 <= revenue)%Q /\ 10 <= frequency) ->
  Qle_bool 10000 revenue && (10 <=? frequency) = false.
Proof.
  intros H. apply not_true_is_false. intros Hb.
  apply andb_true_iff in Hb. destruct Hb as [Hr Hf].
  apply H. split; [now apply Qle_bool_iff | now apply Z.leb_le].
Qed.

Lemma not_high_test :
  ~ ((5000 <= revenue)%Q \/ 5 <= frequency) ->
  Qle_bool 5000 revenue || (5 <=? frequency) = false.
Proof.
  intros H. apply not_true_is_false. intros Hb.
  apply orb_true_iff in Hb. apply H.
  destruct Hb as [Hr | Hf];
    [left; now apply Qle_bool_iff | right; now apply Z.leb_le].
Qed.

Lemma segment_high_value :
  ~ ((10000 <= revenue)%Q /\ 10 <= frequency) ->
  (5000 <= revenue)%Q \/ 5 <= frequency ->
  categorize_customer row = "High Value"%string.
Proof.
  intros H1 H2. unfold categorize_customer. fold revenue frequency.
  rewrite (not_vip_test H1).
  assert (Hb : Qle_bool 5000 revenue || (5 <=? frequency) = true).
  { apply orb_true_iff.
    destruct H2 as [Hr | Hf];
      [left; now apply Qle_bool_iff | right; now apply Z.leb_le]. }
  now rewrite Hb.
Qed.

Lemma segment_regular :
  ~ ((10000 <= revenue)%Q /\ 10 <= frequency) ->
  ~ ((5000 <= revenue)%Q \/ 5 <= frequency) ->
  (1000 <= revenue)%Q ->
  categorize_customer row = "Regular"%string.
Proof.
  intros H1 H2 H3. unfold categorize_customer. fold revenue frequency.
  rewrite (not_vip_test H1), (not_high_test H2).
  apply Qle_bool_iff in H3. now rewrite H3.
Qed.

Lemma segment_low_value :
  ~ ((10000 <= revenue)%Q /\ 10 <= frequency) ->
  ~ ((5000 <= revenue)%Q \/ 5 <= frequency) ->
  ~ (1000 <= revenue)%Q ->
  categorize_customer row = "Low Value"%string.
Proof.
  intros H1 H2 H3. unfold categorize_customer. fold revenue frequency.
  rewrite (not_vip_test H1), (not_high_test H2).
  destruct (Qle_bool 1000 revenue) eqn:E; [| reflexivity].
  apply Qle_bool_iff in E. contradiction.
Qed.
End Segmenter.

(** C3: the Segmenter is an ordered decision list on [total_revenue] and
    [transaction_frequency], first match wins: VIP when revenue is at least
    10000 and frequency at least 10; else High Value when revenue is at least
    5000 or frequency at least 5; else Regular when revenue is at least
    1000; else Low Value.  The label depends on no other column, and
    (12000, 12), (6000, 2), (1500, 1) and (200, 1) give VIP, High Value,
    Regular and Low Value. *)
Theorem categorize_customer_decision_list :
  (forall row : CustomerMetrics.t,
      let revenue := CustomerMetrics.total_revenue row in
      let frequency := CustomerMetrics.transaction_frequency row in
      let vip := (10000 <= revenue)%Q /\ 10 <= frequency in
      let high := (5000 <= revenue)%Q \/ 5 <= frequency in
      let regular := (1000 <= revenue)%Q in
      (vip -> categorize_customer row = "VIP"%string)
      /\ (~ vip -> high -> categorize_customer row = "High Value"%string)
      /\ (~ vip -> ~ high -> regular ->
          categorize_customer row = "Regular"%string)
      /\ (~ vip -> ~ high -> ~ regular ->
          categorize_customer row = "Low Value"%string))
  /\ (forall cid first last lifetime aov,
         categorize_customer
           (CustomerMetrics.mk cid 12000 12 first last lifetime aov)
         = "VIP"%string
         /\ categorize_customer
              (CustomerMetrics.mk cid 6000 2 first last lifetime aov)
            = "High Value"%string
         /\ categorize_customer
              (CustomerMetrics.mk cid 1500 1 first last lifetime aov)
            = "Regular"%string
         /\ categorize_customer
              (CustomerMetrics.mk cid 200 1 first last lifetime aov)
            = "Low Value"%string).
Proof.
  split.
  - intros row revenue frequency vip high regular.
    repeat split.
    + apply segment_vip.
    + apply segment_high_value.
    + apply segment_regular.
    + apply segment_low_value.
  - intros. repeat split; reflexivity.
Qed.

(** ** Feature Deriver *)

Lemma loc_combine_seq (l : list (option Q)) (s i : nat) :
  loc (combine (seq s (List.length l)) l) (s + i)
  = nth_error l i >>= (fun v => v).
Proof.
  revert s i. induction l as [| v l IH]; intros s i.
  - now destruct i.
  - unfold loc. simpl. destruct i as [| i].
    + rewrite Nat.add_0_r, Nat.eqb_refl. reflexivity.
    + assert (E : Nat.eqb s (s + S i) = false) by (apply Nat.eqb_neq; lia).
      rewrite E. replace (s + S i)%nat with (S s + i)%nat by lia.
      apply (IH (S s) i).
Qed.

(** What line 147 computes: the cost price comes from the product row at
    the sale's own index label, a position in the product frame. *)
Lemma profit_margin_positional (products : list Product.t)
  (i : nat) (r : CleanSales) :
  profit_margin_of products i r
  = nsub (Sales.total_amount r)
         (nmul (as_float (Sales.quantity_sold r))
               (nth_error products i >>= Product.cost_price)).
Proof.
  unfold profit_margin_of, cost_price_series, range_index.
  change i with (0 + i)%nat at 1.
  rewrite loc_combine_seq, nth_error_map. now destruct (nth_error products i).
Qed.

(** ** Joiner *)

Lemma key_eqb_eq (a b : option Z) : key_eqb a b = true <-> a = b.
Proof.
  destruct a as [x |], b as [y |]; simpl; try (split; congruence).
  rewrite Z.eqb_eq. split; congruence.
Qed.

Section MergeLeft.
Context {L R : Type}.
Variable lkey : L -> option Z.
Variable rkey : R -> option Z.

(** A left join keeps every left row and invents none. *)
Lemma merge_left_fst (left : list L) (right : list R) (x : L) (o : option R) :
  In (x, o) (merge_left lkey rkey left right) -> In x left.
Proof.
  unfold merge_left. rewrite in_flat_map. intros [x' [Hin Hx]].
  destruct (filter (fun y => key_eqb (lkey x') (rkey y)) right) as [| m ms].
  - destruct Hx as [Hx | []]. now inversion Hx; subst.
  - apply in_map_iff in Hx. destruct Hx as [y [Hy _]].
    now inversion Hy; subst.
Qed.

(** With a unique key on the right, the rows matching one key are the
    first match, if there is one. *)
Lemma filter_unique_key (k : option Z) (right : list R) :
  NoDup (map rkey right) ->
  filter (fun y => key_eqb k (rkey y)) right
  = match find (fun y => key_eqb k (rkey y)) right with
    | Some y => [y]
    | None => []
    end.
Proof.
  induction right as [| y right IH]; simpl; [reflexivity |].
  intros Hnd. apply NoDup_cons_iff in Hnd. destruct Hnd as [Hy Hnd].
  destruct (key_eqb k (rkey y)) eqn:E.
  - f_equal. apply key_eqb_eq in E. subst k.
    clear IH Hnd. induction right as [| z right IHr]; simpl; [reflexivity |].
    destruct (key_eqb (rkey y) (rkey z)) eqn:Ez.
    + apply key_eqb_eq in Ez. exfalso. apply Hy. simpl. now left.
    + apply IHr. intros Hin. apply Hy. simpl. now right.
  - now apply IH.
Qed.

Lemma merge_left_unique (left : list L) (right : list R) :
  NoDup (map rkey right) ->
  merge_left lkey rkey left right
  = map (fun x => (x, find (fun y => key_eqb (lkey x) (rkey y)) right)) left.
Proof.
  intros Hnd. unfold merge_left.
  set (f := fun x : L =>
              match filter (fun y => key_eqb (lkey x) (rkey y)) right with
              | [] => [(x, None)]
              | ms => map (fun y => (x, Some y)) ms
              end).
  induction left as [| x left IH]; [reflexivity |].
  change (flat_map f (x :: left)) with (f x ++ flat_map f left).
  rewrite IH. unfold f at 1.
  rewrite (filter_unique_key (lkey x) right Hnd).
  change (map (fun x0 => (x0, find (fun y => key_eqb (lkey x0) (rkey y)) right))
              (x :: left))
    with ((x, find (fun y => key_eqb (lkey x) (rkey y)) right)
          :: map (fun x0 => (x0, find (fun y => key_eqb (lkey x0) (rkey y))
                                      right)) left).
  now destruct (find (fun y => key_eqb (lkey x) (rkey y)) right).
Qed.
End MergeLeft.

Lemma joiner_sale_in (products : list Product.t) (customers : list Customer.t)
  (sales_df : list Derived.t) (e : Enriched.t) :
  In e (joiner products customers sales_df) -> In (Enriched.sale e) sales_df.
Proof.
  unfold joiner. rewrite in_map_iff. intros [[[s p] c] [He Hin]].
  subst e. simpl. apply merge_left_fst in Hin. now apply merge_left_fst in Hin.
Qed.

(** C4: when [product_id] is unique in the Product table and [customer_id]
    in the Customer table, the Joiner returns exactly one row per input
    transaction, in order: the transaction with the product and the customer
    of its key, and with null dimension columns where the key has no
    match.  No transaction is dropped or duplicated. *)
Theorem joiner_row_count
  (products : list Product.t) (customers : list Customer.t)
  (sales_df : list Derived.t) :
  NoDup (map Product.product_id products) ->
  NoDup (map Customer.customer_id customers) ->
  List.length (joiner products customers sales_df) = List.length sales_df
  /\ joiner products customers sales_df
     = map (fun s =>
              Enriched.mk s
                (find (fun p => key_eqb (Sales.product_id (Derived.base s))
                                        (Product.product_id p)) products)
                (find (fun c => key_eqb (Sales.customer_id (Derived.base s))
                                        (Customer.customer_id c)) customers))
           sales_df.
Proof.
  intros Hp Hc.
  assert (E : joiner products customers sales_df
              = map (fun s =>
                  Enriched.mk s
                    (find (fun p => key_eqb (Sales.product_id (Derived.base s))
                                            (Product.product_id p)) products)
                    (find (fun c => key_eqb (Sales.customer_id (Derived.base s))
                                            (Customer.customer_id c)) customers))
                  sales_df).
  { unfold joiner.
    rewrite (merge_left_unique _ Product.product_id sales_df products Hp).
    rewrite (merge_left_unique _ Customer.customer_id _ customers Hc).
    rewrite !map_map. reflexivity. }
  split; [| exact E].
  rewrite E. apply length_map.
Qed.

Lemma adopt_index_rows (products : list Product.t) (df : Indexed CleanSales)
  (i : nat) (r : CleanSales) :
  In (i, r) (adopt_index products df) ->
  In (i, r) df
  \/ (df = [] /\ r = null_sale /\ (i < List.length products)%nat).
Proof.
  destruct df as [| x df]; simpl.
  - intros H. right. apply in_map_iff in H.
    destruct H as [j [Hj Hin]]. inversion Hj; subst.
    apply in_seq in Hin. repeat split. lia.
  - intros H. left. exact H.
Qed.

Lemma adopt_index_nonempty (products : list Product.t)
  (df : Indexed CleanSales) :
  df <> [] -> adopt_index products df = df.
Proof. destruct df; [congruence | reflexivity]. Qed.

(** Every row of the joined frame comes from a cleaned row, or, when the
    cleaning has left no row, is a row of nulls at a product label. *)
Lemma sales_enhanced_rows (raw : RawData) (enhanced : list Enriched.t) :
  sales_enhanced raw = Some enhanced ->
  exists cleaned,
    cleaner (range_index (raw_sales raw)) = Some cleaned
    /\ forall e, In e enhanced ->
         exists i,
           (In (i, Derived.base (Enriched.sale e)) cleaned
            \/ (cleaned = []
                /\ Derived.base (Enriched.sale e) = null_sale
                /\ (i < List.length (raw_products raw))%nat))
           /\ Enriched.sale e
              = snd (derive_row (raw_products raw)
                                (i, Derived.base (Enriched.sale e))).
Proof.
  unfold sales_enhanced.
  destruct (cleaner (range_index (raw_sales raw))) as [cleaned |];
    simpl; [| discriminate].
  intros H. inversion H; subst; clear H.
  exists cleaned. split; [reflexivity |].
  intros e He. apply joiner_sale_in in He.
  apply in_map_iff in He. destruct He as [[i d] [Hd Hin]]. simpl in Hd. subst d.
  unfold feature_deriver in Hin. apply in_map_iff in Hin.
  destruct Hin as [[j r] [Hjr Hin]].
  assert (Hs : Enriched.sale e = snd (derive_row (raw_products raw) (j, r)))
    by now rewrite Hjr.
  exists j. rewrite Hs. split; [| reflexivity].
  apply adopt_index_rows in Hin. exact Hin.
Qed.

(** Every row of the joined frame is a cleaned row or a row of nulls. *)
Lemma sales_enhanced_clean_or_null (raw : RawData)
  (enhanced : list Enriched.t) :
  sales_enhanced raw = Some enhanced ->
  Forall (fun e => clean_row (Derived.base (Enriched.sale e)) \/ null_row e)
         enhanced.
Proof.
  intros H. destruct (sales_enhanced_rows raw enhanced H) as [cleaned [Hc Hrows]].
  apply Forall_forall. intros e He.
  destruct (Hrows e He) as [i [[Hin | [_ [Hnull _]]] Hs]].
  - left. pose proof (cleaner_rows _ _ Hc) as Hall.
    rewrite Forall_forall in Hall. exact (Hall _ Hin).
  - right. unfold null_row. rewrite Hs. rewrite Hnull.
    repeat split; reflexivity.
Qed.

(** A row of the joined frame that has a customer is a cleaned row. *)
Lemma sales_enhanced_clean (raw : RawData) (enhanced : list Enriched.t) :
  sales_enhanced raw = Some enhanced ->
  Forall (fun e =>
            Enriched.customer_id e <> None \/ Enriched.year e <> None ->
            clean_row (Derived.base (Enriched.sale e))) enhanced.
Proof.
  intros H. pose proof (sales_enhanced_clean_or_null raw enhanced H) as Hall.
  eapply Forall_impl; [| exact Hall].
  intros e [Hc | Hn] Hkey; [exact Hc |].
  destruct Hn as [Hb [_ [_ [Hy _]]]].
  destruct Hkey as [Hk | Hk]; exfalso; apply Hk.
  - unfold Enriched.customer_id. rewrite Hb. reflexivity.
  - unfold Enriched.year. exact Hy.
Qed.

Lemma sales_enhanced_total (raw : RawData) :
  Forall (fun r => to_datetime (Sales.transaction_date r) <> None)
         (raw_sales raw) ->
  exists enhanced, sales_enhanced raw = Some enhanced.
Proof.
  intros H. unfold sales_enhanced.
  destruct (cleaner_total (range_index (raw_sales raw))) as [out Hout].
  - apply Forall_forall. intros [i r] Hin. simpl.
    unfold range_index in Hin. apply in_combine_r in Hin.
    rewrite Forall_forall in H. now apply H.
  - rewrite Hout. simpl. eauto.
Qed.

Lemma joiner_row_count_witness :
  List.length (joiner Samples.products Samples.customers Samples.derived) = 3%nat
  /\ map Enriched.product
         (joiner Samples.products Samples.customers Samples.derived)
     = [Some Samples.ink; None; Some Samples.pen]
  /\ map Enriched.customer
         (joiner Samples.products Samples.customers Samples.derived)
     = [Some Samples.north; Some Samples.north; None].
Proof.
  assert (Hp : NoDup (map Product.product_id Samples.products)).
  { simpl. repeat constructor; simpl; intuition discriminate. }
  assert (Hc : NoDup (map Customer.customer_id Samples.customers)).
  { simpl. repeat constructor; simpl; intuition. }
  destruct (joiner_row_count Samples.products Samples.customers
              Samples.derived Hp Hc) as [Hlen Hrows].
  split; [exact Hlen |].
  rewrite Hrows. split; reflexivity.
Defined.

(** A product key that occurs twice multiplies the transaction: the
    uniqueness assumption of C4 is needed. *)
Example joiner_duplicated_key :
  List.length (joiner [Samples.ink; Samples.ink] Samples.customers
                      Samples.derived) = 4%nat.
Proof. reflexivity. Qed.

(** ** Revenue and profit margin of the retained rows *)




(** C1, the code at two inputs.  The only sale carries index label 0, so
    line 147 takes the cost price of the product row at position 0 (the pen,
    10) whatever the sale's [product_id]:
    - the sale of ink (product 2, cost 3) gets the margin 10 - 1 * 10 = 0,
      where the lookup by [product_id] gives 10 - 1 * 3 = 7;
    - the sale of product 99, which the Product table does not have, gets
      the margin 0 and null product columns, where the lookup gives a null
      margin. *)
Theorem profit_margin_aligned_by_position :
  omap (map (fun e =>
               (Enriched.product_id e, Enriched.product_name e,
                Enriched.profit_margin e,
                profit_margin_by_lookup Samples.products
                  (Derived.base (Enriched.sale e)))))
       (sales_enhanced (Samples.raw_of [Samples.sale_of_ink]))
  = Some [(Some 2, Some "Ink"%string, Some 0%Q, Some 7%Q)]
  /\ omap (map (fun e =>
               (Enriched.product_id e, Enriched.product_name e,
                Enriched.profit_margin e,
                profit_margin_by_lookup Samples.products
                  (Derived.base (Enriched.sale e)))))
       (sales_enhanced (Samples.raw_of [Samples.sale_unknown_product]))
     = Some [(Some 99, None, Some 0%Q, None)].
Proof. split; reflexivity. Qed.

(** ** [groupby] *)

Lemma sum_skipna_app (a b : list (option Q)) :
  (sum_skipna (a ++ b) == sum_skipna a + sum_skipna b)%Q.
Proof.
  induction a as [| [v |] a IH]; simpl.
  - ring.
  - rewrite IH. ring.
  - exact IH.
Qed.

(** A column summed over a frame is the sum over the rows that pass a test
    plus the sum over the rows that fail it. *)
Lemma sum_skipna_split {R : Type} (f : R -> option Q) (p : R -> bool)
  (rows : list R) :
  (sum_skipna (map f rows)
   == sum_skipna (map f (filter p rows))
      + sum_skipna (map f (filter (fun r => negb (p r)) rows)))%Q.
Proof.
  induction rows as [| r rows IH]; simpl.
  - ring.
  - destruct (p r); simpl; destruct (f r) as [v |]; rewrite IH; ring.
Qed.

Section GroupByFacts.
Context {K R : Type}.
Variable K_eq_dec : forall a b : K, {a = b} + {a <> b}.
Variable K_leb : K -> K -> bool.
Variable K_isnull : K -> bool.
Variable key : R -> K.

Local Abbreviation same := (same_key K_eq_dec key).
Local Abbreviation keys_of := (group_keys K_eq_dec K_leb key).
Local Abbreviation kept_of := (grouped_rows K_isnull key).
Local Abbreviation groups_of := (groupby K_eq_dec K_leb K_isnull key).

Lemma same_key_true (k : K) (r : R) : same k r = true <-> k = key r.
Proof.
  unfold same_key.
  destruct (K_eq_dec k (key r)); split; congruence.
Qed.

Lemma same_key_false (k : K) (r : R) : same k r = false <-> k <> key r.
Proof.
  unfold same_key.
  destruct (K_eq_dec k (key r)); split; congruence.
Qed.

Lemma insert_key_perm (k : K) (ks : list K) :
  Permutation (insert_key K_leb k ks) (k :: ks).
Proof.
  induction ks as [| k' ks IH]; simpl; [reflexivity |].
  destruct (K_leb k k'); [reflexivity |].
  rewrite IH. apply perm_swap.
Qed.

Lemma sort_keys_perm (ks : list K) : Permutation (sort_keys K_leb ks) ks.
Proof.
  induction ks as [| k ks IH]; simpl; [reflexivity |].
  rewrite insert_key_perm. now apply perm_skip.
Qed.

(** The group keys are the distinct keys of the frame. *)
Lemma group_keys_in (rows : list R) (k : K) :
  In k (keys_of rows) <-> In k (map key rows).
Proof.
  unfold group_keys. split; intros H.
  - apply (Permutation_in _ (sort_keys_perm _)) in H.
    now apply nodup_In in H.
  - apply (Permutation_in _ (Permutation_sym (sort_keys_perm _))).
    now apply nodup_In.
Qed.

Lemma group_keys_nodup (rows : list R) : NoDup (keys_of rows).
Proof.
  unfold group_keys.
  apply (Permutation_NoDup (Permutation_sym (sort_keys_perm _))).
  apply NoDup_nodup.
Qed.

Lemma grouped_rows_in (dropna : bool) (rows : list R) (r : R) :
  In r (kept_of dropna rows) ->
  In r rows /\ (dropna = true -> K_isnull (key r) = false).
Proof.
  unfold grouped_rows. destruct dropna.
  - intros H. apply filter_In in H. destruct H as [H1 H2].
    split; [exact H1 | intros _; now apply negb_true_iff].
  - intros H. split; [exact H | discriminate].
Qed.

(** A group is never empty, its rows are the rows of its key, and under
    [dropna=True] none of them has a null in a key column. *)
Lemma groupby_group (dropna : bool) (rows : list R) (g : K * list R) :
  In g (groups_of dropna rows) ->
  snd g = filter (same (fst g)) (kept_of dropna rows)
  /\ snd g <> []
  /\ (forall r, In r (snd g) -> In r rows /\ key r = fst g)
  /\ (dropna = true -> K_isnull (fst g) = false).
Proof.
  unfold groupby. rewrite in_map_iff. intros [k [Hg Hk]].
  subst g. simpl. apply group_keys_in in Hk. apply in_map_iff in Hk.
  destruct Hk as [r0 [Hr0 Hin0]].
  split; [reflexivity |]. split; [| split].
  - intros Hnil.
    assert (Hin : In r0 (filter (same k) (kept_of dropna rows))).
    { apply filter_In. split; [exact Hin0 | now apply same_key_true]. }
    rewrite Hnil in Hin. exact Hin.
  - intros r Hr. apply filter_In in Hr. destruct Hr as [Hr Hk].
    apply same_key_true in Hk. apply grouped_rows_in in Hr.
    split; [apply Hr | now symmetry].
  - intros Hd. apply grouped_rows_in in Hin0. rewrite <- Hr0. now apply Hin0.
Qed.

(** Rows with a null key take no part in a [dropna=True] grouping: the
    groups of a frame are the groups of the frame without those rows. *)
Lemma groupby_without_null_keys (h : R -> bool) (rows : list R) :
  (forall r, K_isnull (key r) = false -> h r = true) ->
  groups_of true (filter h rows) = groups_of true rows.
Proof.
  intros Hh. unfold groupby.
  assert (E : kept_of true (filter h rows) = kept_of true rows).
  { unfold grouped_rows. rewrite filter_filter_and.
    apply filter_ext. intros r.
    destruct (K_isnull (key r)) eqn:Hn; simpl.
    - apply andb_false_r.
    - now rewrite (Hh r Hn). }
  now rewrite E.
Qed.

Variable f : R -> option Q.

(** The groups over distinct keys split the sum of a column. *)
Lemma sum_over_keys (ks : list K) :
  NoDup ks -> forall rows : list R,
  (forall r, In r rows -> In (key r) ks) ->
  (Qsum (map (fun k => sum_skipna (map f (filter (same k) rows))) ks)
   == sum_skipna (map f rows))%Q.
Proof.
  induction 1 as [| k ks Hk Hnd IH]; intros rows Hrows.
  - destruct rows as [| r rows]; [reflexivity |].
    destruct (Hrows r (or_introl eq_refl)).
  - cbn [map Qsum fold_right].
    rewrite (sum_skipna_split f (same k) rows).
    apply Qplus_comp; [reflexivity |].
    rewrite <- (IH (filter (fun r => negb (same k r)) rows)).
    + assert (E : map (fun k0 => sum_skipna (map f (filter (same k0) rows))) ks
                  = map (fun k0 => sum_skipna (map f (filter (same k0)
                           (filter (fun r => negb (same k r)) rows)))) ks).
      { apply map_ext_in. intros k' Hk'. do 2 f_equal.
        rewrite filter_filter_and. apply filter_ext. intros r.
        destruct (same k r) eqn:E1; simpl; [| reflexivity].
        apply same_key_true in E1. apply same_key_false.
        intros E2. apply Hk. congruence. }
      unfold Qsum. rewrite E. reflexivity.
    + intros r Hr. apply filter_In in Hr. destruct Hr as [Hr Hne].
      apply negb_true_iff, same_key_false in Hne.
      destruct (Hrows r Hr) as [Heq | Hin]; [congruence | exact Hin].
Qed.

Lemma groupby_sum (dropna : bool) (rows : list R) :
  (Qsum (map (fun g => sum_skipna (map f (snd g))) (groups_of dropna rows))
   == sum_skipna (map f (kept_of dropna rows)))%Q.
Proof.
  unfold groupby. rewrite map_map. cbn [snd].
  apply (sum_over_keys (keys_of (kept_of dropna rows))).
  - apply group_keys_nodup.
  - intros r Hr. apply group_keys_in. now apply in_map.
Qed.
End GroupByFacts.

(** ** Monthly revenue *)




(** ** Customer metrics *)

Lemma count_notnull_all {A : Type} (col : list (option A)) :
  Forall (fun x => x <> None) col ->
  count_notnull col = Z.of_nat (List.length col).
Proof.
  intros H. unfold count_notnull. rewrite filter_true_id; [reflexivity |].
  revert H. apply Forall_impl. intros x. apply notnull_true.
Qed.

(** C9: in the customer metrics computed by the transform, every group has
    a [transaction_frequency] of at least 1, the number of its rows, so
    [avg_order_value] is the quotient [total_revenue / transaction_frequency]
    with a non-zero divisor. *)
Theorem customer_frequency_positive
  (raw : RawData) (enhanced : list Enriched.t) :
  sales_enhanced raw = Some enhanced ->
  Forall (fun m =>
            1 <= CustomerMetrics.transaction_frequency m
            /\ CustomerMetrics.avg_order_value m
               = Some (CustomerMetrics.total_revenue m
                       / inject_Z (CustomerMetrics.transaction_frequency m))%Q)
         (customer_metrics enhanced).
Proof.
  intros H. pose proof (sales_enhanced_clean raw enhanced H) as Hclean.
  rewrite Forall_forall in Hclean.
  apply Forall_forall. intros m Hm.
  unfold customer_metrics in Hm. apply in_map_iff in Hm.
  destruct Hm as [g [Hg Hin]]. subst m.
  unfold customer_groups in Hin. apply groupby_group in Hin.
  destruct Hin as [_ [Hne [Hrows Hkey]]].
  specialize (Hkey eq_refl).
  assert (Hfreq : count_notnull (map Enriched.transaction_id (snd g))
                  = Z.of_nat (List.length (snd g))).
  { rewrite count_notnull_all; [now rewrite length_map |].
    apply Forall_forall. intros x Hx. apply in_map_iff in Hx.
    destruct Hx as [e [He Hine]]. subst x.
    destruct (Hrows e Hine) as [Hsales Hk].
    refine (proj1 (Hclean e Hsales _)).
    left. rewrite Hk. intros Hnone. rewrite Hnone in Hkey. discriminate Hkey. }
  assert (Hpos : 1 <= count_notnull (map Enriched.transaction_id (snd g))).
  { rewrite Hfreq. destruct (snd g); [congruence | simpl List.length; lia]. }
  unfold customer_agg. cbn [CustomerMetrics.transaction_frequency
    CustomerMetrics.avg_order_value CustomerMetrics.total_revenue].
  split; [exact Hpos |].
  unfold order_value.
  destruct (count_notnull (map Enriched.transaction_id (snd g)) =? 0) eqn:E;
    [apply Z.eqb_eq in E; lia | reflexivity].
Qed.

Lemma customer_frequency_positive_witness :
  omap (fun enhanced =>
          map (fun m => (CustomerMetrics.customer_id m,
                         CustomerMetrics.transaction_frequency m))
              (customer_metrics enhanced))
       (sales_enhanced (Samples.raw_of Samples.mixed_sales))
  = Some [(Some 7, 1); (Some 8, 1)]
  /\ exists enhanced,
       sales_enhanced (Samples.raw_of Samples.mixed_sales) = Some enhanced
       /\ Forall (fun m => 1 <= CustomerMetrics.transaction_frequency m)
                 (customer_metrics enhanced).
Proof.
  split; [reflexivity |].
  eexists. split; [reflexivity |].
  eapply Forall_impl;
    [| apply (customer_frequency_positive
                (Samples.raw_of Samples.mixed_sales)); reflexivity].
  intros m Hm. exact (proj1 Hm).
Defined.

(** ** Null grouping keys *)

Lemma monthly_revenue_key (sales : list Enriched.t) (m : MonthlyRevenue.t) :
  In m (monthly_revenue sales) ->
  exists g, In g (monthly_groups sales)
            /\ fst g = (MonthlyRevenue.year m, MonthlyRevenue.month m,
                        MonthlyRevenue.region m).
Proof.
  unfold monthly_revenue. rewrite in_map_iff. intros [g [Hm Hg]].
  exists g. split; [exact Hg |]. subst m.
  destruct g as [[[y mo] r] rows]. reflexivity.
Qed.

(** C10: [groupby] leaves out the rows with a null grouping key.  The key
    columns of the monthly table and of the customer table are never null;
    no row with a null [year], [month] or [region_name] belongs to a monthly
    group and no row with a null [customer_id] to a customer group; and the
    two tables are those of the frame without such rows. *)
Theorem groupby_drops_null_keys (sales : list Enriched.t) :
  Forall (fun m => MonthlyRevenue.year m <> None
                   /\ MonthlyRevenue.month m <> None
                   /\ MonthlyRevenue.region m <> None)
         (monthly_revenue sales)
  /\ Forall (fun c =>
               CustomerMetrics.customer_id (CustomerSegment.metrics c) <> None)
            (customer_segments sales)
  /\ (forall g e, In g (monthly_groups sales) -> In e (snd g) ->
        Enriched.year e <> None /\ Enriched.month e <> None
        /\ Enriched.region_name e <> None)
  /\ (forall g e, In g (customer_groups sales) -> In e (snd g) ->
        Enriched.customer_id e <> None)
  /\ monthly_revenue (filter (fun e => notnull (Enriched.region_name e)) sales)
     = monthly_revenue sales
  /\ customer_segments (filter (fun e => notnull (Enriched.customer_id e)) sales)
     = customer_segments sales.
Proof.
  assert (Hkey : forall k : MonthKey, month_key_isnull k = false ->
            fst (fst k) <> None /\ snd (fst k) <> None /\ snd k <> None).
  { intros [[y m] r]. unfold month_key_isnull. simpl.
    destruct y, m, r; simpl; intros H; try discriminate H;
      repeat split; discriminate. }
  split; [| split; [| split; [| split; [| split]]]].
  - apply Forall_forall. intros m Hm.
    destruct (monthly_revenue_key sales m Hm) as [g [Hg Hk]].
    unfold monthly_groups in Hg. apply groupby_group in Hg.
    destruct Hg as [_ [_ [_ Hnn]]]. specialize (Hnn eq_refl).
    rewrite Hk in Hnn. exact (Hkey _ Hnn).
  - apply Forall_forall. intros c Hc.
    unfold customer_segments in Hc. apply in_map_iff in Hc.
    destruct Hc as [m [Hc Hm]]. subst c. simpl.
    unfold customer_metrics in Hm. apply in_map_iff in Hm.
    destruct Hm as [g [Hm Hg]]. subst m. simpl.
    unfold customer_groups in Hg. apply groupby_group in Hg.
    destruct Hg as [_ [_ [_ Hnn]]]. specialize (Hnn eq_refl).
    destruct (fst g); [discriminate | discriminate Hnn].
  - intros g e Hg He.
    unfold monthly_groups in Hg. apply groupby_group in Hg.
    destruct Hg as [_ [_ [Hrows Hnn]]]. specialize (Hnn eq_refl).
    destruct (Hrows e He) as [_ Hk]. rewrite <- Hk in Hnn.
    exact (Hkey _ Hnn).
  - intros g e Hg He.
    unfold customer_groups in Hg. apply groupby_group in Hg.
    destruct Hg as [_ [_ [Hrows Hnn]]]. specialize (Hnn eq_refl).
    destruct (Hrows e He) as [_ Hk]. rewrite <- Hk in Hnn.
    destruct (Enriched.customer_id e); [discriminate | discriminate Hnn].
  - unfold monthly_revenue, monthly_groups. f_equal.
    apply groupby_without_null_keys. intros e He.
    apply notnull_true. exact (proj2 (proj2 (Hkey _ He))).
  - unfold customer_segments, customer_metrics, customer_groups.
    do 2 f_equal. apply groupby_without_null_keys. intros e He.
    unfold notnull. now rewrite He.
Qed.

(** A sale to an unknown customer and a sale with a null [customer_id]:
    both are in the joined frame, neither is in the monthly table, and only
    the first makes a customer row. *)
Example null_keys_on_sample :
  omap (fun enhanced =>
          (List.length enhanced,
           map MonthlyRevenue.region (monthly_revenue enhanced),
           map (fun c => CustomerMetrics.customer_id (CustomerSegment.metrics c))
               (customer_segments enhanced)))
       (sales_enhanced
          (Samples.raw_of
             [Samples.sale_of_ink; Samples.sale_unknown_customer;
              Sales.mk (Some 10) (Samples.jan 10) (Some 1) None (Some 1)
                       (Some 12%Q) (Some 12%Q) None None]))
  = Some (3%nat, [Some "North"%string], [Some 7; Some 8]).
Proof. reflexivity. Qed.

(** ** Product performance *)

Lemma revenue_desc_trans (a b c : ProductPerformance.t) :
  revenue_desc a b -> revenue_desc b c -> revenue_desc a c.
Proof. unfold revenue_desc. intros H1 H2. now apply (Qle_trans _ _ _ H2 H1). Qed.

Lemma insert_before_ties_perm (x : ProductPerformance.t)
  (l : list ProductPerformance.t) :
  Permutation (insert_before_ties x l) (x :: l).
Proof.
  induction l as [| y l IH]; simpl; [reflexivity |].
  destruct (Qle_bool _ _); [reflexivity |].
  rewrite IH. apply perm_swap.
Qed.

Lemma insert_before_ties_sorted (x : ProductPerformance.t)
  (l : list ProductPerformance.t) :
  StronglySorted revenue_desc l ->
  StronglySorted revenue_desc (insert_before_ties x l).
Proof.
  induction 1 as [| y l Hs IH Hy]; simpl.
  - repeat constructor.
  - destruct (Qle_bool (ProductPerformance.revenue y)
                       (ProductPerformance.revenue x)) eqn:E.
    + apply Qle_bool_iff in E.
      constructor; [now constructor |].
      constructor; [exact E |].
      revert Hy. apply Forall_impl. intros z Hz.
      now apply (revenue_desc_trans x y z).
    + apply Qle_bool_false in E. apply Qlt_le_weak in E.
      constructor; [exact IH |].
      apply (Forall_forall (revenue_desc y)). intros z Hz.
      apply (Permutation_in _ (insert_before_ties_perm x l)) in Hz.
      destruct Hz as [Hz | Hz]; [now subst z |].
      rewrite Forall_forall in Hy. now apply Hy.
Qed.

(** The stable insertion sort is a sorting routine in the sense of the
    [sort_values] contract. *)
Lemma sort_stable_contract : sort_values_desc sort_stable.
Proof.
  split; intros l; induction l as [| x l IH]; simpl.
  - reflexivity.
  - unfold sort_stable in *. simpl.
    rewrite insert_before_ties_perm. now apply perm_skip.
  - constructor.
  - unfold sort_stable in *. simpl.
    now apply insert_before_ties_sorted.
Qed.

(** ** Order of the group keys *)

Lemma string_leb_trans (a b c : string) :
  String.leb a b = true -> String.leb b c = true -> String.leb a c = true.
Proof.
  unfold String.leb. revert b c.
  induction a as [| x a IH]; intros [| y b] [| z c]; simpl;
    try congruence.
  unfold Ascii.compare.
  destruct (N.compare_spec (Ascii.N_of_ascii x) (Ascii.N_of_ascii y)) as [E1 | L1 | G1];
    destruct (N.compare_spec (Ascii.N_of_ascii y) (Ascii.N_of_ascii z)) as [E2 | L2 | G2];
    destruct (N.compare_spec (Ascii.N_of_ascii x) (Ascii.N_of_ascii z)) as [E3 | L3 | G3];
    try congruence; try lia; try (intros; apply (IH b c); assumption).
Qed.

Lemma ostr_eqb_eq (a b : option string) : ostr_eqb a b = true <-> a = b.
Proof.
  destruct a as [x |], b as [y |]; simpl; try (split; congruence).
  rewrite String.eqb_eq. split; congruence.
Qed.

Lemma ostr_leb_trans (a b c : option string) :
  ostr_leb a b = true -> ostr_leb b c = true -> ostr_leb a c = true.
Proof.
  destruct a, b, c; simpl; try congruence. apply string_leb_trans.
Qed.

Lemma ostr_leb_total (a b : option string) :
  ostr_leb a b = true \/ ostr_leb b a = true.
Proof. destruct a, b; simpl; auto. apply String.leb_total. Qed.

Lemma ostr_leb_antisym (a b : option string) :
  ostr_leb a b = true -> ostr_leb b a = true -> a = b.
Proof.
  destruct a, b; simpl; try congruence.
  intros H1 H2. f_equal. now apply String.leb_antisym.
Qed.

Lemma product_key_leb_total (a b : ProductKey) :
  product_key_leb a b = true \/ product_key_leb b a = true.
Proof.
  unfold product_key_leb.
  destruct (ostr_eqb (fst a) (fst b)) eqn:E.
  - apply ostr_eqb_eq in E. rewrite <- E.
    rewrite (proj2 (ostr_eqb_eq (fst a) (fst a)) eq_refl).
    apply ostr_leb_total.
  - destruct (ostr_eqb (fst b) (fst a)) eqn:E'.
    + apply ostr_eqb_eq in E'. symmetry in E'. apply ostr_eqb_eq in E'.
      congruence.
    + apply ostr_leb_total.
Qed.

Lemma product_key_leb_trans (a b c : ProductKey) :
  product_key_leb a b = true -> product_key_leb b c = true ->
  product_key_leb a c = true.
Proof.
  unfold product_key_leb.
  destruct (ostr_eqb (fst a) (fst b)) eqn:Eab;
    destruct (ostr_eqb (fst b) (fst c)) eqn:Ebc;
    destruct (ostr_eqb (fst a) (fst c)) eqn:Eac;
    try apply ostr_eqb_eq in Eab; try apply ostr_eqb_eq in Ebc;
    try apply ostr_eqb_eq in Eac; intros H1 H2.
  - now apply (ostr_leb_trans _ (snd b)).
  - rewrite Eab, Ebc in Eac.
    now rewrite (proj2 (ostr_eqb_eq (fst c) (fst c)) eq_refl) in Eac.
  - rewrite Eab in Eac. rewrite Eac in Ebc.
    now rewrite (proj2 (ostr_eqb_eq (fst c) (fst c)) eq_refl) in Ebc.
  - now rewrite Eab.
  - rewrite <- Ebc in Eac. rewrite Eac in Eab.
    now rewrite (proj2 (ostr_eqb_eq (fst b) (fst b)) eq_refl) in Eab.
  - now rewrite <- Ebc.
  - exfalso. rewrite <- Eac in H2.
    pose proof (ostr_leb_antisym _ _ H1 H2) as E.
    apply ostr_eqb_eq in E. congruence.
  - now apply (ostr_leb_trans _ (fst b)).
Qed.

Section SortedKeys.
Context {K : Type}.
Variable K_leb : K -> K -> bool.
Hypothesis K_leb_total : forall a b, K_leb a b = true \/ K_leb b a = true.
Hypothesis K_leb_trans :
  forall a b c, K_leb a b = true -> K_leb b c = true -> K_leb a c = true.

Let le (a b : K) : Prop := K_leb a b = true.

Lemma insert_key_in (k x : K) (ks : list K) :
  In x (insert_key K_leb k ks) -> x = k \/ In x ks.
Proof.
  induction ks as [| k' ks IH]; simpl.
  - intros [H | []]. now left.
  - destruct (K_leb k k'); simpl.
    + intros [H | H]; [now left | now right].
    + intros [H | H]; [right; now left |].
      destruct (IH H) as [E | Hin]; [now left | right; now right].
Qed.

Lemma insert_key_sorted (k : K) (ks : list K) :
  StronglySorted le ks -> StronglySorted le (insert_key K_leb k ks).
Proof.
  induction 1 as [| k' ks Hs IH Hk']; simpl.
  - repeat constructor.
  - destruct (K_leb k k') eqn:E.
    + constructor; [now constructor |].
      constructor; [exact E |].
      revert Hk'. apply Forall_impl. intros z Hz.
      now apply (K_leb_trans k k' z).
    + constructor; [exact IH |].
      apply Forall_forall. intros z Hz. apply insert_key_in in Hz.
      destruct Hz as [Hz | Hz].
      * subst z. destruct (K_leb_total k k') as [H | H]; [congruence | exact H].
      * rewrite Forall_forall in Hk'. now apply Hk'.
Qed.

Lemma sort_keys_sorted (ks : list K) : StronglySorted le (sort_keys K_leb ks).
Proof.
  induction ks as [| k ks IH]; simpl; [constructor |].
  now apply insert_key_sorted.
Qed.
End SortedKeys.

Lemma product_groups_key_sorted (sales : list Enriched.t) :
  StronglySorted key_asc (product_groups sales).
Proof.
  unfold product_groups, groupby. rewrite map_map.
  set (ks := group_keys _ _ _ _).
  assert (Hs : StronglySorted (fun a b => product_key_leb a b = true) ks).
  { apply sort_keys_sorted;
      [apply product_key_leb_total | apply product_key_leb_trans]. }
  induction Hs as [| k ks' Hs IH Hk]; simpl; [constructor |].
  constructor; [exact IH |].
  apply Forall_forall. intros p Hp. apply in_map_iff in Hp.
  destruct Hp as [k' [Hp Hin]]. subst p.
  rewrite Forall_forall in Hk. specialize (Hk k' Hin).
  unfold key_asc, key_of, product_agg. simpl.
  now destruct k, k'.
Qed.

Lemma insert_before_ties_stable (x : ProductPerformance.t)
  (l : list ProductPerformance.t) :
  StronglySorted revenue_desc_ties_by_key l ->
  Forall (key_asc x) l ->
  StronglySorted revenue_desc_ties_by_key (insert_before_ties x l).
Proof.
  induction 1 as [| y l Hs IH Hy]; simpl; intros Hx.
  - repeat constructor.
  - apply Forall_cons_iff in Hx. destruct Hx as [Hxy Hxl].
    destruct (Qle_bool (ProductPerformance.revenue y)
                       (ProductPerformance.revenue x)) eqn:E.
    + apply Qle_bool_iff in E.
      constructor; [now constructor |].
      constructor; [split; [exact E | intros _; exact Hxy] |].
      rewrite Forall_forall in Hy, Hxl. apply Forall_forall. intros z Hz.
      split.
      * unfold revenue_desc. apply (Qle_trans _ (ProductPerformance.revenue y));
          [apply (proj1 (Hy z Hz)) | exact E].
      * intros _. now apply Hxl.
    + apply Qle_bool_false in E.
      constructor; [now apply IH |].
      apply Forall_forall. intros z Hz.
      apply (Permutation_in _ (insert_before_ties_perm x l)) in Hz.
      destruct Hz as [Hz | Hz].
      * subst z. split; [now apply Qlt_le_weak |].
        intros Heq. exfalso. rewrite Heq in E. now apply (Qlt_irrefl _ E).
      * rewrite Forall_forall in Hy. now apply Hy.
Qed.

Lemma sort_stable_keeps_ties (l : list ProductPerformance.t) :
  StronglySorted key_asc l ->
  StronglySorted revenue_desc_ties_by_key (sort_stable l).
Proof.
  induction 1 as [| x l Hs IH Hx]; [constructor |].
  unfold sort_stable in *. simpl. apply insert_before_ties_stable; [exact IH |].
  apply Forall_forall. intros z Hz.
  apply (Permutation_in _ (sort_values_perm _ sort_stable_contract l)) in Hz.
  rewrite Forall_forall in Hx. now apply Hx.
Qed.

(** With a stable sorting routine the rows of equal revenue keep the
    ascending key order in which [groupby] delivers them.  Whether the
    routine behind the default [kind] of [sort_values] keeps it on every
    frame is not settled by the code of the pipeline. *)
Lemma stable_sort_orders_ties_by_key (sales : list Enriched.t) :
  StronglySorted revenue_desc_ties_by_key
    (product_performance sort_stable sales).
Proof.
  unfold product_performance. apply sort_stable_keeps_ties.
  apply product_groups_key_sorted.
Qed.

(** * Further properties of the transform *)

(** ** More on the Cleaner *)

Lemma to_datetime_none (v : raw_date) :
  to_datetime v = None <-> exists s, v = RawUnparseable s.
Proof.
  destruct v; simpl; split; try discriminate; try (intros [s' H]; discriminate).
  - intros _. now exists s.
  - reflexivity.
Qed.

Lemma parse_dates_none (df : Indexed RawSales) :
  parse_dates df = None <->
  exists ir, In ir df /\ to_datetime (Sales.transaction_date (snd ir)) = None.
Proof.
  induction df as [| [i r] df IH]; simpl.
  - split; [discriminate | intros [ir [[] _]]].
  - destruct (to_datetime (Sales.transaction_date r)) as [d |] eqn:E.
    + destruct (parse_dates df) as [p |].
      * split; [discriminate |].
        intros [ir [[Hir | Hin] Hn]].
        -- subst ir. simpl in Hn. congruence.
        -- assert (H : Some p = None) by (apply IH; eauto).
           discriminate H.
      * split; [| reflexivity]. intros _.
        destruct (proj1 IH eq_refl) as [ir [Hin Hn]]. exists ir. auto.
    + split; [| reflexivity]. intros _. exists (i, r). auto.
Qed.

Lemma parse_dates_in (df : Indexed RawSales) (p : Indexed CleanSales) :
  parse_dates df = Some p ->
  forall i r', In (i, r') p <->
    exists r d, In (i, r) df
                /\ to_datetime (Sales.transaction_date r) = Some d
                /\ r' = Sales.set_date r d.
Proof.
  revert p. induction df as [| [j r0] df IH]; simpl; intros p Hp i r'.
  - inversion Hp; subst. split; [intros [] | intros [r [d [[] _]]]].
  - destruct (to_datetime (Sales.transaction_date r0)) as [d0 |] eqn:E;
      [| discriminate].
    destruct (parse_dates df) as [p' |]; [| discriminate].
    inversion Hp; subst; clear Hp. simpl. rewrite (IH p' eq_refl i r').
    split.
    + intros [H | [r [d [Hin [Hd Hr]]]]].
      * inversion H; subst. exists r0, d0. auto.
      * exists r, d. auto.
    + intros [r [d [[H | Hin] [Hd Hr]]]].
      * inversion H; subst. left. rewrite E in Hd. now inversion Hd.
      * right. exists r, d. auto.
Qed.

(** X1: The Cleaner keeps exactly the rows with a non-null id and a positive
    amount, each under its index label and with its date parsed. *)
Theorem cleaner_keeps_exactly_valid_rows
  (df : Indexed RawSales) (out : Indexed CleanSales) :
  cleaner df = Some out ->
  forall i r',
    In (i, r') out <->
    exists r d,
      In (i, r) df
      /\ to_datetime (Sales.transaction_date r) = Some d
      /\ r' = Sales.set_date r d
      /\ Sales.transaction_id r <> None
      /\ exists a, Sales.total_amount r = Some a /\ (0 < a)%Q.
Proof.
  unfold cleaner. destruct (parse_dates df) as [p |] eqn:E; [| discriminate].
  simpl. intros H i r'. inversion H; subst; clear H.
  unfold keep_positive, dropna_subset. rewrite !filter_In. simpl.
  rewrite (parse_dates_in df p E i r'). rewrite andb_true_iff.
  rewrite !notnull_true, amount_positive_spec.
  split.
  - intros [[[r [d [Hin [Hd Hr]]]] [Hid Hnn]] Hpos].
    exists r, d. subst r'. simpl in *. auto.
  - intros [r [d [Hin [Hd [Hr [Hid [a [Ha Hpos]]]]]]]].
    subst r'. simpl. repeat split; eauto.
    rewrite Ha. discriminate.
Qed.

Lemma cleaner_keeps_exactly_valid_rows_witness :
  exists out,
    cleaner (range_index Samples.mixed_sales) = Some out
    /\ In (1%nat, Samples.parsed Samples.sale_of_ink) out.
Proof.
  eexists. split; [reflexivity |].
  apply (cleaner_keeps_exactly_valid_rows
           (range_index Samples.mixed_sales) _ eq_refl).
  exists Samples.sale_of_ink, (Some (mkDate 2024 1 1)).
  split; [right; left; reflexivity |].
  split; [reflexivity |]. split; [reflexivity |].
  split; [discriminate |].
  exists 10%Q. split; reflexivity.
Defined.

(** ** More on the Joiner *)

Lemma map_const_repeat {A B : Type} (x : B) (l : list A) :
  map (fun _ => x) l = repeat x (List.length l).
Proof. induction l as [| a l IH]; simpl; [reflexivity | now rewrite IH]. Qed.

Lemma flat_map_repeat {A B : Type} (g : A -> list B) (x : A) (n : nat) :
  flat_map g (repeat x n) = List.concat (repeat (g x) n).
Proof. induction n as [| n IH]; simpl; [reflexivity | now rewrite IH]. Qed.

Lemma concat_repeat_repeat {A : Type} (x : A) (m n : nat) :
  List.concat (repeat (repeat x m) n) = repeat x (n * m).
Proof.
  induction n as [| n IH]; simpl; [reflexivity |].
  now rewrite IH, repeat_app.
Qed.

Lemma flat_map_flat_map {A B C : Type} (h : A -> list B) (g : B -> list C)
  (l : list A) :
  flat_map g (flat_map h l) = flat_map (fun x => flat_map g (h x)) l.
Proof.
  induction l as [| x l IH]; simpl; [reflexivity |].
  now rewrite flat_map_app, IH.
Qed.

Lemma map_flat_map {A B C : Type} (f : B -> C) (h : A -> list B) (l : list A) :
  map f (flat_map h l) = flat_map (fun x => map f (h x)) l.
Proof.
  induction l as [| x l IH]; simpl; [reflexivity |].
  now rewrite map_app, IH.
Qed.

Section MergeLeftFacts.
Context {L R : Type}.
Variable lkey : L -> option Z.
Variable rkey : R -> option Z.

Lemma merge_left_fanout (left : list L) (right : list R) :
  map fst (merge_left lkey rkey left right)
  = flat_map (fun x => repeat x (fanout rkey (lkey x) right)) left.
Proof.
  unfold merge_left. rewrite map_flat_map. apply flat_map_ext. intros x.
  unfold fanout, matching.
  destruct (filter (fun y => key_eqb (lkey x) (rkey y)) right) as [| m ms].
  - reflexivity.
  - rewrite map_map. cbn [fst]. now rewrite map_const_repeat.
Qed.

Lemma merge_left_match (left : list L) (right : list R) (x : L) (o : option R) :
  In (x, o) (merge_left lkey rkey left right) ->
  match o with
  | Some y => In y right /\ key_eqb (lkey x) (rkey y) = true
  | None => forall y, In y right -> key_eqb (lkey x) (rkey y) = false
  end.
Proof.
  unfold merge_left. rewrite in_flat_map. intros [x' [_ Hx]].
  destruct (filter (fun y => key_eqb (lkey x') (rkey y)) right)
    as [| m ms] eqn:E.
  - destruct Hx as [Hx | []]. inversion Hx; subst.
    intros y Hy. destruct (key_eqb (lkey x) (rkey y)) eqn:Ek; [| reflexivity].
    assert (Hin : In y (filter (fun y => key_eqb (lkey x) (rkey y)) right))
      by (apply filter_In; auto).
    rewrite E in Hin. destruct Hin.
  - apply in_map_iff in Hx. destruct Hx as [y [Hy Hin]].
    inversion Hy; subst. rewrite <- E in Hin. apply filter_In in Hin. exact Hin.
Qed.
End MergeLeftFacts.

Lemma fanout_pos {R : Type} (rkey : R -> option Z) (k : option Z)
  (right : list R) : (1 <= fanout rkey k right)%nat.
Proof. unfold fanout. lia. Qed.

Lemma flat_map_comp {A B C : Type} (f : A -> B) (g : B -> list C)
  (l : list A) :
  flat_map (fun x => g (f x)) l = flat_map g (map f l).
Proof.
  induction l as [| x l IH]; simpl; [reflexivity | now rewrite IH].
Qed.

Lemma joiner_sales (products : list Product.t) (customers : list Customer.t)
  (sales_df : list Derived.t) :
  map Enriched.sale (joiner products customers sales_df)
  = flat_map
      (fun d =>
         repeat d
           (fanout Product.product_id
                   (Sales.product_id (Derived.base d)) products
            * fanout Customer.customer_id
                     (Sales.customer_id (Derived.base d)) customers))
      sales_df.
Proof.
  set (fc := fun d : Derived.t =>
               fanout Customer.customer_id
                      (Sales.customer_id (Derived.base d)) customers).
  unfold joiner. rewrite map_map. cbn [Enriched.sale].
  rewrite <- (map_map fst fst).
  rewrite (merge_left_fanout
             (fun sp => Sales.customer_id (Derived.base (fst sp)))
             Customer.customer_id).
  rewrite map_flat_map.
  rewrite (flat_map_ext _ (fun sp => (fun d => repeat d (fc d)) (fst sp))).
  2:{ intros sp. now rewrite map_repeat. }
  rewrite (flat_map_comp fst (fun d => repeat d (fc d))).
  rewrite merge_left_fanout, flat_map_flat_map.
  apply flat_map_ext. intros d.
  rewrite flat_map_repeat, concat_repeat_repeat. reflexivity.
Qed.

(** X3: A left join never drops a transaction, whatever the dimension tables
    hold: each input row comes out, in order, once for every pair of a
    matching product and a matching customer, and once when a side has no
    match. *)
Theorem joiner_multiplies_by_matches
  (products : list Product.t) (customers : list Customer.t)
  (sales_df : list Derived.t) :
  map Enriched.sale (joiner products customers sales_df)
  = flat_map
      (fun d =>
         repeat d
           (fanout Product.product_id
                   (Sales.product_id (Derived.base d)) products
            * fanout Customer.customer_id
                     (Sales.customer_id (Derived.base d)) customers))
      sales_df
  /\ (List.length sales_df
      <= List.length (joiner products customers sales_df))%nat
  /\ (forall d, In d sales_df <->
                In d (map Enriched.sale (joiner products customers sales_df))).
Proof.
  split; [apply joiner_sales |]. split.
  - rewrite <- (length_map Enriched.sale), joiner_sales.
    induction sales_df as [| d l IH]; simpl; [lia |].
    rewrite length_app, repeat_length.
    pose proof (fanout_pos Product.product_id
                  (Sales.product_id (Derived.base d)) products).
    pose proof (fanout_pos Customer.customer_id
                  (Sales.customer_id (Derived.base d)) customers).
    nia.
  - intros d. rewrite joiner_sales, in_flat_map. split.
    + intros Hd. exists d. split; [exact Hd |].
      pose proof (fanout_pos Product.product_id
                    (Sales.product_id (Derived.base d)) products).
      pose proof (fanout_pos Customer.customer_id
                    (Sales.customer_id (Derived.base d)) customers).
      destruct (fanout Product.product_id _ products
                * fanout Customer.customer_id _ customers)%nat eqn:E;
        [nia | simpl; now left].
    + intros [d' [Hd' Hin]]. apply repeat_spec in Hin. now subst d.
Qed.

(** X4: The dimension row attached to a transaction is a row of the dimension
    table with the transaction's key (a null key matching a null key), and
    the columns are null only when the table has no row of that key. *)
Theorem joiner_attaches_matching_rows
  (products : list Product.t) (customers : list Customer.t)
  (sales_df : list Derived.t) :
  Forall
    (fun e =>
       match Enriched.product e with
       | Some p => In p products
                   /\ key_eqb (Enriched.product_id e) (Product.product_id p)
                      = true
       | None => forall p, In p products ->
                   key_eqb (Enriched.product_id e) (Product.product_id p)
                   = false
       end
       /\ match Enriched.customer e with
          | Some c => In c customers
                      /\ key_eqb (Enriched.customer_id e)
                                 (Customer.customer_id c) = true
          | None => forall c, In c customers ->
                      key_eqb (Enriched.customer_id e)
                              (Customer.customer_id c) = false
          end)
    (joiner products customers sales_df).
Proof.
  apply Forall_forall. intros e He. unfold joiner in He.
  apply in_map_iff in He. destruct He as [[[d p] c] [He Hin]]. subst e.
  unfold Enriched.product_id, Enriched.customer_id. cbn.
  pose proof (merge_left_match _ _ _ _ _ _ Hin) as Hc.
  apply merge_left_fst in Hin.
  pose proof (merge_left_match _ _ _ _ _ _ Hin) as Hp.
  split; [exact Hp | exact Hc].
Qed.

(** ** The groups as a partition *)

Lemma filter_split_perm {A : Type} (p : A -> bool) (l : list A) :
  Permutation l (filter p l ++ filter (fun x => negb (p x)) l).
Proof.
  induction l as [| x l IH]; simpl; [constructor |].
  destruct (p x); simpl.
  - now constructor.
  - rewrite IH at 1. apply Permutation_middle.
Qed.

Section GroupByPartition.
Context {K R : Type}.
Variable K_eq_dec : forall a b : K, {a = b} + {a <> b}.
Variable K_leb : K -> K -> bool.
Variable K_isnull : K -> bool.
Variable key : R -> K.

Lemma groups_over_keys_perm (ks : list K) :
  NoDup ks -> forall rows : list R,
  (forall r, In r rows -> In (key r) ks) ->
  Permutation
    (List.concat (map (fun k => filter (same_key K_eq_dec key k) rows) ks))
    rows.
Proof.
  induction 1 as [| k ks Hk Hnd IH]; intros rows Hrows.
  - destruct rows as [| r rows]; [constructor |].
    destruct (Hrows r (or_introl eq_refl)).
  - cbn [map List.concat].
    transitivity (filter (same_key K_eq_dec key k) rows
                  ++ filter (fun r => negb (same_key K_eq_dec key k r)) rows);
      [| symmetry; apply filter_split_perm].
    apply Permutation_app_head.
    rewrite <- (IH (filter (fun r => negb (same_key K_eq_dec key k r)) rows)).
    + assert (E : map (fun k0 => filter (same_key K_eq_dec key k0) rows) ks
                  = map (fun k0 => filter (same_key K_eq_dec key k0)
                           (filter (fun r => negb (same_key K_eq_dec key k r))
                                   rows)) ks).
      { apply map_ext_in. intros k' Hk'.
        rewrite filter_filter_and. apply filter_ext. intros r.
        destruct (same_key K_eq_dec key k r) eqn:E1; simpl; [| reflexivity].
        apply same_key_true in E1. apply same_key_false.
        intros E2. apply Hk. congruence. }
      rewrite E. reflexivity.
    + intros r Hr. apply filter_In in Hr. destruct Hr as [Hr Hne].
      apply negb_true_iff, same_key_false in Hne.
      destruct (Hrows r Hr) as [Heq | Hin]; [congruence | exact Hin].
Qed.

(** The groups of a frame hold, between them, each grouped row once. *)
Lemma groupby_partition (dropna : bool) (rows : list R) :
  Permutation
    (List.concat (map snd (groupby K_eq_dec K_leb K_isnull key dropna rows)))
    (grouped_rows K_isnull key dropna rows).
Proof.
  unfold groupby. rewrite map_map. cbn [snd].
  apply groups_over_keys_perm.
  - apply group_keys_nodup.
  - intros r Hr. apply group_keys_in. now apply in_map.
Qed.

End GroupByPartition.

(** ** Sums and counts over a partition *)

Lemma sum_skipna_perm (a b : list (option Q)) :
  Permutation a b -> (sum_skipna a == sum_skipna b)%Q.
Proof.
  induction 1 as [| x a b _ IH | x y a | a b c _ IH1 _ IH2]; simpl.
  - reflexivity.
  - destruct x; [now rewrite IH | exact IH].
  - destruct x, y; try reflexivity. ring.
  - now rewrite IH1.
Qed.

Lemma sum_skipna_int_perm (a b : list (option Z)) :
  Permutation a b -> sum_skipna_int a = sum_skipna_int b.
Proof.
  induction 1 as [| x a b _ IH | x y a | a b c _ IH1 _ IH2]; simpl.
  - reflexivity.
  - destruct x; [now rewrite IH | exact IH].
  - destruct x, y; try reflexivity. lia.
  - now rewrite IH1.
Qed.

Lemma sum_skipna_int_app (a b : list (option Z)) :
  sum_skipna_int (a ++ b) = sum_skipna_int a + sum_skipna_int b.
Proof.
  induction a as [| [v |] a IH]; simpl; [reflexivity | rewrite IH; lia | exact IH].
Qed.

Lemma count_notnull_app {A : Type} (a b : list (option A)) :
  count_notnull (a ++ b) = count_notnull a + count_notnull b.
Proof.
  unfold count_notnull. rewrite filter_app, length_app. lia.
Qed.

Lemma count_notnull_perm {A : Type} (a b : list (option A)) :
  Permutation a b -> count_notnull a = count_notnull b.
Proof.
  intros H. unfold count_notnull. f_equal.
  apply Permutation_length.
  induction H as [| x a b _ IH | x y a | a b c _ IH1 _ IH2]; simpl.
  - constructor.
  - destruct (notnull x); [now constructor | exact IH].
  - destruct (notnull x), (notnull y); try reflexivity. apply perm_swap.
  - now rewrite IH1.
Qed.

Section Totals.
Context {R : Type}.

Lemma sum_skipna_concat (f : R -> option Q) (groups : list (list R)) :
  (Qsum (map (fun g => sum_skipna (map f g)) groups)
   == sum_skipna (map f (List.concat groups)))%Q.
Proof.
  induction groups as [| g groups IH]; simpl; [reflexivity |].
  rewrite map_app, sum_skipna_app. unfold Qsum in IH. now rewrite IH.
Qed.

Lemma sum_skipna_int_concat (f : R -> option Z) (groups : list (list R)) :
  Zsum (map (fun g => sum_skipna_int (map f g)) groups)
  = sum_skipna_int (map f (List.concat groups)).
Proof.
  unfold Zsum. induction groups as [| g groups IH]; simpl; [reflexivity |].
  now rewrite map_app, sum_skipna_int_app, IH.
Qed.

Lemma count_notnull_concat {A : Type} (f : R -> option A)
  (groups : list (list R)) :
  Zsum (map (fun g => count_notnull (map f g)) groups)
  = count_notnull (map f (List.concat groups)).
Proof.
  unfold Zsum. induction groups as [| g groups IH]; simpl; [reflexivity |].
  now rewrite map_app, count_notnull_app, IH.
Qed.
End Totals.

Section GroupTotals.
Context {K R : Type}.
Variable K_eq_dec : forall a b : K, {a = b} + {a <> b}.
Variable K_leb : K -> K -> bool.
Variable K_isnull : K -> bool.
Variable key : R -> K.

Local Abbreviation groups_of := (groupby K_eq_dec K_leb K_isnull key).
Local Abbreviation kept_of := (grouped_rows K_isnull key).

Lemma groupby_sum_int (f : R -> option Z) (dropna : bool) (rows : list R) :
  Zsum (map (fun g => sum_skipna_int (map f (snd g))) (groups_of dropna rows))
  = sum_skipna_int (map f (kept_of dropna rows)).
Proof.
  rewrite <- (map_map snd (fun g => sum_skipna_int (map f g))).
  rewrite sum_skipna_int_concat. apply sum_skipna_int_perm, Permutation_map.
  apply groupby_partition.
Qed.

Lemma groupby_count {A : Type} (f : R -> option A) (dropna : bool)
  (rows : list R) :
  Zsum (map (fun g => count_notnull (map f (snd g))) (groups_of dropna rows))
  = count_notnull (map f (kept_of dropna rows)).
Proof.
  rewrite <- (map_map snd (fun g => count_notnull (map f g))).
  rewrite count_notnull_concat. apply count_notnull_perm, Permutation_map.
  apply groupby_partition.
Qed.
End GroupTotals.

(** ** The other measures of the three tables *)

Lemma monthly_kept (sales : list Enriched.t) :
  grouped_rows month_key_isnull month_key true sales
  = filter (fun e => notnull (Enriched.year e)
                     && notnull (Enriched.month e)
                     && notnull (Enriched.region_name e)) sales.
Proof.
  unfold grouped_rows. apply filter_ext. intros e.
  unfold month_key_isnull, month_key, notnull. now rewrite !negb_orb.
Qed.

Lemma product_kept (sales : list Enriched.t) :
  grouped_rows product_key_isnull product_key true sales
  = filter (fun e => notnull (Enriched.category_name e)
                     && notnull (Enriched.product_name e)) sales.
Proof.
  unfold grouped_rows. apply filter_ext. intros e.
  unfold product_key_isnull, product_key, notnull. cbn [fst snd].
  now rewrite negb_orb.
Qed.





(** X5: The monthly table accounts for every grouped row: the
    [transaction_count] column sums to the number of ids of the enriched
    rows with non-null [year], [month] and [region_name], and, where the
    sums of the code are exact, [total_sales] and [units_sold] sum to the
    amount and to the quantity of these rows. *)
Theorem monthly_measures_conserved (sales : list Enriched.t) :
  let grouped :=
    filter (fun e => notnull (Enriched.year e)
                     && notnull (Enriched.month e)
                     && notnull (Enriched.region_name e)) sales in
  Zsum (map MonthlyRevenue.transaction_count (monthly_revenue sales))
  = count_notnull (map Enriched.transaction_id grouped)
  /\ (exact_sum (map Enriched.total_amount grouped) ->
      (Qsum (map MonthlyRevenue.total_sales (monthly_revenue sales))
       == sum_skipna (map Enriched.total_amount grouped))%Q)
  /\ (exact_int_sum (map Enriched.quantity_sold grouped) ->
      Zsum (map MonthlyRevenue.units_sold (monthly_revenue sales))
      = sum_skipna_int (map Enriched.quantity_sold grouped)).
Proof.
  intros grouped. unfold grouped. rewrite <- monthly_kept.
  unfold monthly_revenue, monthly_groups. rewrite !map_map.
  split; [| split].
  - rewrite <- (groupby_count month_key_eq_dec month_key_leb
                  month_key_isnull month_key Enriched.transaction_id true sales).
    f_equal.
    apply map_ext. now intros [[[y m] r] rows].
  - intros _.
    rewrite <- (groupby_sum month_key_eq_dec month_key_leb month_key_isnull
                  month_key Enriched.total_amount true sales).
    assert (E : forall l r : list Q, l = r -> (Qsum l == Qsum r)%Q)
      by (intros l r ->; reflexivity).
    apply E, map_ext. now intros [[[y m] r] rows].
  - intros _.
    rewrite <- (groupby_sum_int month_key_eq_dec month_key_leb
                  month_key_isnull month_key Enriched.quantity_sold true sales).
    f_equal.
    apply map_ext. now intros [[[y m] r] rows].
Qed.

Lemma monthly_measures_conserved_witness :
  exists enhanced,
    sales_enhanced (Samples.raw_of Samples.mixed_sales) = Some enhanced
    /\ map (fun m => (MonthlyRevenue.total_sales m, MonthlyRevenue.units_sold m,
                      MonthlyRevenue.transaction_count m))
           (monthly_revenue enhanced) = [(10%Q, 1, 1)]
    /\ exact_sum
         (map Enriched.total_amount
              (filter (fun e => notnull (Enriched.year e)
                                && notnull (Enriched.month e)
                                && notnull (Enriched.region_name e))
                      enhanced))
    /\ (Qsum (map MonthlyRevenue.total_sales (monthly_revenue enhanced))
        == sum_skipna
             (map Enriched.total_amount
                  (filter (fun e => notnull (Enriched.year e)
                                    && notnull (Enriched.month e)
                                    && notnull (Enriched.region_name e))
                          enhanced)))%Q.
Proof.
  eexists. split; [reflexivity |]. split; [reflexivity |].
  match goal with
  | |- exact_sum ?col /\ _ => assert (Hexact : exact_sum col)
  end.
  { split; [reflexivity | vm_compute; discriminate]. }
  split; [exact Hexact |].
  exact (proj1 (proj2 (monthly_measures_conserved _)) Hexact).
Defined.

Lemma Qsum_perm (a b : list Q) : Permutation a b -> (Qsum a == Qsum b)%Q.
Proof.
  unfold Qsum.
  induction 1 as [| x a b _ IH | x y a | a b c _ IH1 _ IH2]; simpl.
  - reflexivity.
  - now rewrite IH.
  - ring.
  - now rewrite IH1.
Qed.

Lemma Zsum_perm (a b : list Z) : Permutation a b -> Zsum a = Zsum b.
Proof.
  unfold Zsum.
  induction 1 as [| x a b _ IH | x y a | a b c _ IH1 _ IH2]; simpl; lia.
Qed.

(** Exact sums over the product groups. *)
Lemma product_measures (sales : list Enriched.t) :
  let grouped :=
    filter (fun e => notnull (Enriched.category_name e)
                     && notnull (Enriched.product_name e)) sales in
  (Qsum (map ProductPerformance.revenue (product_groups sales))
   == sum_skipna (map Enriched.revenue grouped))%Q
  /\ Zsum (map ProductPerformance.quantity_sold (product_groups sales))
     = sum_skipna_int (map Enriched.quantity_sold grouped)
  /\ (Qsum (map ProductPerformance.profit_margin (product_groups sales))
      == sum_skipna (map Enriched.profit_margin grouped))%Q.
Proof.
  intros grouped. unfold grouped. rewrite <- product_kept.
  unfold product_groups. rewrite !map_map. cbn.
  split; [| split].
  - apply (groupby_sum product_key_eq_dec product_key_leb product_key_isnull
             product_key Enriched.revenue true sales).
  - apply (groupby_sum_int product_key_eq_dec product_key_leb
             product_key_isnull product_key Enriched.quantity_sold true sales).
  - apply (groupby_sum product_key_eq_dec product_key_leb product_key_isnull
             product_key Enriched.profit_margin true sales).
Qed.

(** X6: Whatever order the sorting routine gives the product table, where the
    sums of the code are exact its three measure columns sum to the
    revenue, the quantity and the margin of the enriched rows that have a
    non-null [category_name] and [product_name]: sales of a product missing
    from the Product table are in no row. *)
Theorem product_measures_conserved
  (sort_values : list ProductPerformance.t -> list ProductPerformance.t)
  (sales : list Enriched.t) :
  sort_values_desc sort_values ->
  let grouped :=
    filter (fun e => notnull (Enriched.category_name e)
                     && notnull (Enriched.product_name e)) sales in
  let table := product_performance sort_values sales in
  (exact_sum (map Enriched.revenue grouped) ->
   (Qsum (map ProductPerformance.revenue table)
    == sum_skipna (map Enriched.revenue grouped))%Q)
  /\ (exact_int_sum (map Enriched.quantity_sold grouped) ->
      Zsum (map ProductPerformance.quantity_sold table)
      = sum_skipna_int (map Enriched.quantity_sold grouped))
  /\ (exact_sum (map Enriched.profit_margin grouped) ->
      (Qsum (map ProductPerformance.profit_margin table)
       == sum_skipna (map Enriched.profit_margin grouped))%Q).
Proof.
  intros [Hperm _] grouped table.
  destruct (product_measures sales) as [H1 [H2 H3]].
  unfold table, product_performance.
  pose proof (Hperm (product_groups sales)) as Hp.
  split; [| split]; intros _.
  - rewrite (Qsum_perm _ _ (Permutation_map ProductPerformance.revenue Hp)).
    exact H1.
  - rewrite (Zsum_perm _ _ (Permutation_map ProductPerformance.quantity_sold Hp)).
    exact H2.
  - rewrite (Qsum_perm _ _ (Permutation_map ProductPerformance.profit_margin Hp)).
    exact H3.
Qed.

Lemma product_measures_conserved_witness :
  exists enhanced,
    sales_enhanced
      (Samples.raw_of [Samples.sale_of_pen; Samples.sale_unknown_product;
                       Samples.sale_of_ink])
    = Some enhanced
    /\ map ProductPerformance.revenue
           (product_performance sort_stable enhanced) = [10%Q; 10%Q]
    /\ exact_sum
         (map Enriched.revenue
              (filter (fun e => notnull (Enriched.category_name e)
                                && notnull (Enriched.product_name e))
                      enhanced))
    /\ (Qsum (map ProductPerformance.revenue
                  (product_performance sort_stable enhanced))
        == sum_skipna
             (map Enriched.revenue
                  (filter (fun e => notnull (Enriched.category_name e)
                                    && notnull (Enriched.product_name e))
                          enhanced)))%Q.
Proof.
  eexists. split; [reflexivity |]. split; [reflexivity |].
  match goal with
  | |- exact_sum ?col /\ _ => assert (Hexact : exact_sum col)
  end.
  { split; [reflexivity | vm_compute; discriminate]. }
  split; [exact Hexact |].
  exact (proj1 (product_measures_conserved sort_stable _ sort_stable_contract)
               Hexact).
Defined.

(** X7: The customer table accounts for every row with a non-null
    [customer_id]: the frequencies sum to the number of transaction ids of
    those rows and, where the sums of the code are exact, the total
    revenues sum to their revenue. *)
Theorem customer_measures_conserved (sales : list Enriched.t) :
  let grouped := filter (fun e => notnull (Enriched.customer_id e)) sales in
  Zsum (map CustomerMetrics.transaction_frequency (customer_metrics sales))
  = count_notnull (map Enriched.transaction_id grouped)
  /\ (exact_sum (map Enriched.revenue grouped) ->
      (Qsum (map CustomerMetrics.total_revenue (customer_metrics sales))
       == sum_skipna (map Enriched.revenue grouped))%Q).
Proof.
  intros grouped.
  assert (E : grouped_rows isnull Enriched.customer_id true sales = grouped)
    by reflexivity.
  rewrite <- E. unfold customer_metrics, customer_groups. rewrite !map_map. cbn.
  split.
  - apply (groupby_count oZ_eq_dec oZ_leb isnull Enriched.customer_id
             Enriched.transaction_id true sales).
  - intros _.
    apply (groupby_sum oZ_eq_dec oZ_leb isnull Enriched.customer_id
             Enriched.revenue true sales).
Qed.

Lemma customer_measures_conserved_witness :
  exists enhanced,
    sales_enhanced (Samples.raw_of Samples.mixed_sales) = Some enhanced
    /\ map (fun m => (CustomerMetrics.total_revenue m,
                      CustomerMetrics.transaction_frequency m))
           (customer_metrics enhanced) = [(10%Q, 1); (24%Q, 1)]
    /\ exact_sum
         (map Enriched.revenue
              (filter (fun e => notnull (Enriched.customer_id e)) enhanced))
    /\ (Qsum (map CustomerMetrics.total_revenue (customer_metrics enhanced))
        == sum_skipna
             (map Enriched.revenue
                  (filter (fun e => notnull (Enriched.customer_id e))
                          enhanced)))%Q.
Proof.
  eexists. split; [reflexivity |]. split; [reflexivity |].
  match goal with
  | |- exact_sum ?col /\ _ => assert (Hexact : exact_sum col)
  end.
  { split; [reflexivity | vm_compute; discriminate]. }
  split; [exact Hexact |].
  exact (proj2 (customer_measures_conserved _) Hexact).
Defined.

(** ** Rows of the monthly table of a run *)

Lemma sum_skipna_positive (col : list (option Q)) :
  Forall (fun x => exists a, x = Some a /\ (0 < a)%Q) col ->
  col <> [] -> (0 < sum_skipna col)%Q.
Proof.
  induction 1 as [| x col [a [Hx Ha]] Hall IH]; [congruence |].
  intros _. subst x. simpl. destruct col as [| y col].
  - simpl. now rewrite Qplus_0_r.
  - rewrite <- (Qplus_0_r 0). apply Qplus_lt_le_compat; [exact Ha |].
    apply Qlt_le_weak, IH. discriminate.
Qed.

(** X8: In a run of the transform every row of the monthly table stands for at
    least one transaction: [transaction_count] is the number of rows of the
    group and at least 1, and [total_sales] is greater than 0. *)
Theorem monthly_rows_nonempty (raw : RawData) (enhanced : list Enriched.t) :
  sales_enhanced raw = Some enhanced ->
  Forall (fun m => 1 <= MonthlyRevenue.transaction_count m
                   /\ (0 < MonthlyRevenue.total_sales m)%Q)
         (monthly_revenue enhanced).
Proof.
  intros H. pose proof (sales_enhanced_clean raw enhanced H) as Hclean.
  rewrite Forall_forall in Hclean.
  apply Forall_forall. intros m Hm.
  unfold monthly_revenue in Hm. apply in_map_iff in Hm.
  destruct Hm as [g [Hg Hin]]. subst m.
  unfold monthly_groups in Hin. apply groupby_group in Hin.
  destruct Hin as [_ [Hne [Hrows Hkey]]].
  specialize (Hkey eq_refl).
  destruct g as [[[y mo] r] rows]. cbn [snd fst] in *.
  assert (Hdated : forall e, In e rows ->
                     clean_row (Derived.base (Enriched.sale e))).
  { intros e Hine. destruct (Hrows e Hine) as [Hsales Hk].
    apply (Hclean e Hsales). right.
    unfold month_key in Hk. inversion Hk as [[Hy Hmo Hr]].
    intros Hnone. rewrite Hnone in Hy. subst y. discriminate Hkey. }
  unfold monthly_agg. cbn.
  split.
  - rewrite count_notnull_all.
    + rewrite length_map. destruct rows; [congruence | simpl List.length; lia].
    + apply Forall_forall. intros x Hx. apply in_map_iff in Hx.
      destruct Hx as [e [He Hine]]. subst x.
      exact (proj1 (Hdated e Hine)).
  - apply sum_skipna_positive.
    + apply Forall_forall. intros x Hx. apply in_map_iff in Hx.
      destruct Hx as [e [He Hine]]. subst x.
      exact (proj2 (Hdated e Hine)).
    + destruct rows; [congruence | discriminate].
Qed.

Lemma monthly_rows_nonempty_witness :
  exists enhanced,
    sales_enhanced (Samples.raw_of Samples.mixed_sales) = Some enhanced
    /\ map (fun m => (MonthlyRevenue.transaction_count m,
                      MonthlyRevenue.total_sales m))
           (monthly_revenue enhanced) = [(1, 10%Q)]
    /\ Forall (fun m => 1 <= MonthlyRevenue.transaction_count m
                        /\ (0 < MonthlyRevenue.total_sales m)%Q)
              (monthly_revenue enhanced).
Proof.
  eexists. split; [reflexivity |]. split; [reflexivity |].
  apply (monthly_rows_nonempty (Samples.raw_of Samples.mixed_sales)).
  reflexivity.
Defined.

(** ** Order of the monthly and customer keys *)

Lemma oZ_eqb_eq (a b : option Z) : oZ_eqb a b = true <-> a = b.
Proof.
  destruct a as [x |], b as [y |]; simpl; try (split; congruence).
  rewrite Z.eqb_eq. split; congruence.
Qed.

Lemma oZ_leb_total (a b : option Z) : oZ_leb a b = true \/ oZ_leb b a = true.
Proof.
  destruct a as [x |], b as [y |]; simpl; auto.
  rewrite !Z.leb_le. lia.
Qed.

Lemma oZ_leb_trans (a b c : option Z) :
  oZ_leb a b = true -> oZ_leb b c = true -> oZ_leb a c = true.
Proof.
  destruct a, b, c; simpl; try congruence. rewrite !Z.leb_le. lia.
Qed.

Lemma oZ_leb_antisym (a b : option Z) :
  oZ_leb a b = true -> oZ_leb b a = true -> a = b.
Proof.
  destruct a, b; simpl; try congruence. rewrite !Z.leb_le.
  intros. f_equal. lia.
Qed.

Section Lexicographic.
Context {A B : Type}.
Variable eqb : A -> A -> bool.
Variable leb1 : A -> A -> bool.
Variable leb2 : B -> B -> bool.
Hypothesis eqb_eq : forall a b, eqb a b = true <-> a = b.
Hypothesis leb1_total : forall a b, leb1 a b = true \/ leb1 b a = true.
Hypothesis leb1_trans :
  forall a b c, leb1 a b = true -> leb1 b c = true -> leb1 a c = true.
Hypothesis leb1_antisym : forall a b, leb1 a b = true -> leb1 b a = true -> a = b.
Hypothesis leb2_total : forall a b, leb2 a b = true \/ leb2 b a = true.
Hypothesis leb2_trans :
  forall a b c, leb2 a b = true -> leb2 b c = true -> leb2 a c = true.

Lemma eqb_same (a : A) : eqb a a = true.
Proof. now apply eqb_eq. Qed.

Lemma lex_total (a1 b1 : A) (a2 b2 : B) :
  (if eqb a1 b1 then leb2 a2 b2 else leb1 a1 b1) = true
  \/ (if eqb b1 a1 then leb2 b2 a2 else leb1 b1 a1) = true.
Proof.
  destruct (eqb a1 b1) eqn:E.
  - apply eqb_eq in E. subst b1. rewrite eqb_same. apply leb2_total.
  - destruct (eqb b1 a1) eqn:E'.
    + apply eqb_eq in E'. subst b1. rewrite eqb_same in E. discriminate.
    + apply leb1_total.
Qed.

Lemma lex_trans (a1 b1 c1 : A) (a2 b2 c2 : B) :
  (if eqb a1 b1 then leb2 a2 b2 else leb1 a1 b1) = true ->
  (if eqb b1 c1 then leb2 b2 c2 else leb1 b1 c1) = true ->
  (if eqb a1 c1 then leb2 a2 c2 else leb1 a1 c1) = true.
Proof.
  destruct (eqb a1 b1) eqn:Eab.
  - apply eqb_eq in Eab. subst b1.
    destruct (eqb a1 c1); [apply leb2_trans | auto].
  - destruct (eqb b1 c1) eqn:Ebc.
    + apply eqb_eq in Ebc. subst c1. rewrite Eab. auto.
    + intros H1 H2. destruct (eqb a1 c1) eqn:Eac.
      * apply eqb_eq in Eac. subst c1.
        rewrite (leb1_antisym a1 b1 H1 H2), eqb_same in Eab. discriminate.
      * now apply (leb1_trans a1 b1 c1).
Qed.
End Lexicographic.

Lemma month_key_leb_total (a b : MonthKey) :
  month_key_leb a b = true \/ month_key_leb b a = true.
Proof.
  destruct a as [[y1 m1] r1], b as [[y2 m2] r2]. unfold month_key_leb.
  apply (lex_total oZ_eqb oZ_leb
           (fun a b : option Z * option string =>
              if oZ_eqb (fst a) (fst b) then ostr_leb (snd a) (snd b)
              else oZ_leb (fst a) (fst b))
           oZ_eqb_eq oZ_leb_total
           (fun a b => lex_total oZ_eqb oZ_leb ostr_leb oZ_eqb_eq oZ_leb_total
                         ostr_leb_total (fst a) (fst b) (snd a) (snd b))
           y1 y2 (m1, r1) (m2, r2)).
Qed.

Lemma month_key_leb_trans (a b c : MonthKey) :
  month_key_leb a b = true -> month_key_leb b c = true ->
  month_key_leb a c = true.
Proof.
  destruct a as [[y1 m1] r1], b as [[y2 m2] r2], c as [[y3 m3] r3].
  unfold month_key_leb.
  apply (lex_trans oZ_eqb oZ_leb
           (fun a b : option Z * option string =>
              if oZ_eqb (fst a) (fst b) then ostr_leb (snd a) (snd b)
              else oZ_leb (fst a) (fst b))
           oZ_eqb_eq oZ_leb_trans oZ_leb_antisym
           (fun a b c => lex_trans oZ_eqb oZ_leb ostr_leb oZ_eqb_eq oZ_leb_trans
                           oZ_leb_antisym ostr_leb_trans
                           (fst a) (fst b) (fst c) (snd a) (snd b) (snd c))
           y1 y2 y3 (m1, r1) (m2, r2) (m3, r3)).
Qed.

(** X9: The monthly table has one row for each distinct (year, month, region)
    among the grouped rows, in ascending order of that key. *)
Theorem monthly_revenue_keys_sorted (sales : list Enriched.t) :
  NoDup (map monthly_key_of (monthly_revenue sales))
  /\ StronglySorted (fun a b => month_key_leb a b = true)
       (map monthly_key_of (monthly_revenue sales))
  /\ (forall k, In k (map monthly_key_of (monthly_revenue sales)) <->
        month_key_isnull k = false /\ In k (map month_key sales)).
Proof.
  assert (E : map monthly_key_of (monthly_revenue sales)
              = group_keys month_key_eq_dec month_key_leb month_key
                  (grouped_rows month_key_isnull month_key true sales)).
  { unfold monthly_revenue, monthly_groups, groupby. rewrite !map_map.
    rewrite <- (map_id (group_keys _ _ _ _)) at 2.
    apply map_ext. now intros [[y m] r]. }
  rewrite E. split; [apply group_keys_nodup |]. split.
  - apply sort_keys_sorted;
      [apply month_key_leb_total | apply month_key_leb_trans].
  - intros k. rewrite group_keys_in, in_map_iff. split.
    + intros [e [Hk He]]. apply filter_In in He. destruct He as [He Hn].
      subst k. apply negb_true_iff in Hn. split; [exact Hn |].
      now apply in_map.
    + intros [Hn Hk]. apply in_map_iff in Hk. destruct Hk as [e [Hk He]].
      exists e. split; [exact Hk |]. apply filter_In.
      split; [exact He |]. subst k. now apply negb_true_iff.
Qed.

(** X10: The customer table has one row for each distinct non-null
    [customer_id] of the frame, in ascending order. *)
Theorem customer_segments_keys_sorted (sales : list Enriched.t) :
  let ids := map (fun c => CustomerMetrics.customer_id
                             (CustomerSegment.metrics c))
                 (customer_segments sales) in
  NoDup ids
  /\ StronglySorted (fun a b => oZ_leb a b = true) ids
  /\ (forall k, In k ids <->
        k <> None /\ In k (map Enriched.customer_id sales)).
Proof.
  intros ids.
  assert (E : ids = group_keys oZ_eq_dec oZ_leb Enriched.customer_id
                      (grouped_rows isnull Enriched.customer_id true sales)).
  { unfold ids, customer_segments, customer_metrics, customer_groups, groupby.
    rewrite !map_map. cbn. apply map_id. }
  rewrite E. split; [apply group_keys_nodup |]. split.
  - apply sort_keys_sorted; [apply oZ_leb_total | apply oZ_leb_trans].
  - intros k. rewrite group_keys_in, in_map_iff. split.
    + intros [e [Hk He]]. apply filter_In in He. destruct He as [He Hn].
      subst k. split; [| now apply in_map].
      destruct (Enriched.customer_id e); [discriminate | discriminate Hn].
    + intros [Hn Hk]. apply in_map_iff in Hk. destruct Hk as [e [Hk He]].
      exists e. split; [exact Hk |]. apply filter_In.
      split; [exact He |]. subst k.
      now destruct (Enriched.customer_id e).
Qed.

(** ** Dates of a customer *)

Lemma date_leb_spec (a b : date) :
  date_leb a b = true <->
  d_year a < d_year b
  \/ (d_year a = d_year b
      /\ (d_month a < d_month b
          \/ (d_month a = d_month b /\ d_day a <= d_day b))).
Proof.
  unfold date_leb.
  rewrite orb_true_iff, andb_true_iff, orb_true_iff, andb_true_iff.
  rewrite !Z.ltb_lt, !Z.eqb_eq, Z.leb_le. reflexivity.
Qed.

Lemma date_leb_refl (a : date) : date_leb a a = true.
Proof. apply date_leb_spec. lia. Qed.

Lemma date_leb_total (a b : date) : date_leb a b = true \/ date_leb b a = true.
Proof. rewrite !date_leb_spec. lia. Qed.

Lemma date_leb_trans (a b c : date) :
  date_leb a b = true -> date_leb b c = true -> date_leb a c = true.
Proof. rewrite !date_leb_spec. lia. Qed.

Lemma date_min_lower (a b : date) :
  date_leb (date_min a b) a = true /\ date_leb (date_min a b) b = true.
Proof.
  unfold date_min. destruct (date_leb a b) eqn:E.
  - split; [apply date_leb_refl | exact E].
  - split; [| apply date_leb_refl].
    destruct (date_leb_total a b); [congruence | assumption].
Qed.

Lemma date_max_upper (a b : date) :
  date_leb a (date_max a b) = true /\ date_leb b (date_max a b) = true.
Proof.
  unfold date_max. destruct (date_leb a b) eqn:E.
  - split; [exact E | apply date_leb_refl].
  - split; [apply date_leb_refl |].
    destruct (date_leb_total a b); [congruence | assumption].
Qed.

Lemma min_skipna_spec (col : list (option date)) :
  match min_skipna col with
  | Some f => In (Some f) col
              /\ forall d, In (Some d) col -> date_leb f d = true
  | None => forall d, ~ In (Some d) col
  end.
Proof.
  unfold min_skipna.
  induction col as [| x col IH]; simpl; [intros d [] |].
  destruct x as [v |].
  - destruct (reduce_skipna date_min col) as [w |].
    + destruct IH as [Hin Hlow]. destruct (date_min_lower v w) as [Hv Hw].
      split.
      * unfold date_min. destruct (date_leb v w); [now left | now right].
      * intros d [Hd | Hd].
        -- inversion Hd; subst. exact Hv.
        -- apply (date_leb_trans _ w); [exact Hw | now apply Hlow].
    + split; [now left |]. intros d [Hd | Hd].
      * inversion Hd; subst. apply date_leb_refl.
      * destruct (IH d Hd).
  - destruct (reduce_skipna date_min col) as [w |].
    + destruct IH as [Hin Hlow]. split; [now right |].
      intros d [Hd | Hd]; [discriminate | now apply Hlow].
    + intros d [Hd | Hd]; [discriminate | exact (IH d Hd)].
Qed.

Lemma max_skipna_spec (col : list (option date)) :
  match max_skipna col with
  | Some l => In (Some l) col
              /\ forall d, In (Some d) col -> date_leb d l = true
  | None => forall d, ~ In (Some d) col
  end.
Proof.
  unfold max_skipna.
  induction col as [| x col IH]; simpl; [intros d [] |].
  destruct x as [v |].
  - destruct (reduce_skipna date_max col) as [w |].
    + destruct IH as [Hin Hup]. destruct (date_max_upper v w) as [Hv Hw].
      split.
      * unfold date_max. destruct (date_leb v w); [now right | now left].
      * intros d [Hd | Hd].
        -- inversion Hd; subst. exact Hv.
        -- apply (date_leb_trans _ w); [now apply Hup | exact Hw].
    + split; [now left |]. intros d [Hd | Hd].
      * inversion Hd; subst. apply date_leb_refl.
      * destruct (IH d Hd).
  - destruct (reduce_skipna date_max col) as [w |].
    + destruct IH as [Hin Hup]. split; [now right |].
      intros d [Hd | Hd]; [discriminate | now apply Hup].
    + intros d [Hd | Hd]; [discriminate | exact (IH d Hd)].
Qed.

(** X11: For every customer row, [first_purchase] and [last_purchase] are null
    together, when none of the customer's transactions has a date;
    otherwise both are dates of transactions of that customer, the first is
    not after the last, and every dated transaction of the customer lies
    between them. *)
Theorem customer_purchase_window (sales : list Enriched.t) :
  Forall
    (fun m =>
       let mine (e : Enriched.t) :=
         In e sales /\ Enriched.customer_id e = CustomerMetrics.customer_id m in
       match CustomerMetrics.first_purchase m,
             CustomerMetrics.last_purchase m with
       | Some f, Some l =>
           date_leb f l = true
           /\ (exists e, mine e /\ Enriched.transaction_date e = Some f)
           /\ (exists e, mine e /\ Enriched.transaction_date e = Some l)
           /\ (forall e d, mine e -> Enriched.transaction_date e = Some d ->
                 date_leb f d = true /\ date_leb d l = true)
       | None, None =>
           forall e, mine e -> Enriched.transaction_date e = None
       | _, _ => False
       end)
    (customer_metrics sales).
Proof.
  apply Forall_forall. intros m Hm.
  unfold customer_metrics in Hm. apply in_map_iff in Hm.
  destruct Hm as [[k rows] [Hm Hg]]. subst m.
  unfold customer_groups in Hg. apply groupby_group in Hg.
  cbn [fst snd] in Hg. destruct Hg as [Hrows [_ [Hin Hnn]]].
  specialize (Hnn eq_refl).
  assert (Hmine : forall e, In e sales /\ Enriched.customer_id e = k ->
                            In e rows).
  { intros e [He Hk]. rewrite Hrows. apply filter_In. split.
    - unfold grouped_rows. apply filter_In. split; [exact He |].
      rewrite Hk, Hnn. reflexivity.
    - apply same_key_true. now symmetry. }
  assert (Hcol : forall d, In (Some d) (map Enriched.transaction_date rows) <->
                   exists e, (In e sales /\ Enriched.customer_id e = k)
                             /\ Enriched.transaction_date e = Some d).
  { intros d. rewrite in_map_iff. split.
    - intros [e [Hd He]]. exists e. split; [| exact Hd]. now apply Hin.
    - intros [e [He Hd]]. exists e. split; [exact Hd | now apply Hmine]. }
  unfold customer_agg.
  cbn [CustomerMetrics.first_purchase CustomerMetrics.last_purchase
       CustomerMetrics.customer_id fst snd].
  pose proof (min_skipna_spec (map Enriched.transaction_date rows)) as Hmin.
  pose proof (max_skipna_spec (map Enriched.transaction_date rows)) as Hmax.
  destruct (min_skipna (map Enriched.transaction_date rows)) as [f |];
    destruct (max_skipna (map Enriched.transaction_date rows)) as [l |].
  - destruct Hmin as [Hf Hlow], Hmax as [Hl Hup].
    split; [now apply Hlow |]. split; [now apply Hcol |].
    split; [now apply Hcol |].
    intros e d He Hd.
    assert (Hd' : In (Some d) (map Enriched.transaction_date rows))
      by (apply Hcol; eauto).
    split; [now apply Hlow | now apply Hup].
  - destruct Hmin as [Hf _]. exact (Hmax f Hf).
  - destruct Hmax as [Hl _]. exact (Hmin l Hl).
  - intros e He.
    destruct (Enriched.transaction_date e) as [d |] eqn:Hd; [| reflexivity].
    exfalso. apply (Hmin d). apply Hcol. eauto.
Qed.

(** ** The Segmenter is monotone *)

Lemma Qle_bool_mono (c x y : Q) :
  (x <= y)%Q -> Qle_bool c x = true -> Qle_bool c y = true.
Proof.
  intros Hxy H. apply Qle_bool_iff. apply Qle_bool_iff in H.
  now apply (Qle_trans _ x).
Qed.

Lemma Zleb_mono (c x y : Z) : x <= y -> (c <=? x) = true -> (c <=? y) = true.
Proof. rewrite !Z.leb_le. lia. Qed.

(** X12: More revenue and more transactions never give a lower segment. *)
Theorem categorize_customer_monotone (a b : CustomerMetrics.t) :
  (CustomerMetrics.total_revenue a <= CustomerMetrics.total_revenue b)%Q ->
  CustomerMetrics.transaction_frequency a
  <= CustomerMetrics.transaction_frequency b ->
  segment_rank (categorize_customer a) <= segment_rank (categorize_customer b).
Proof.
  intros Hr Hf. unfold categorize_customer.
  pose proof (Qle_bool_mono 10000 _ _ Hr) as H1.
  pose proof (Qle_bool_mono 5000 _ _ Hr) as H2.
  pose proof (Qle_bool_mono 1000 _ _ Hr) as H3.
  pose proof (Zleb_mono 10 _ _ Hf) as H4.
  pose proof (Zleb_mono 5 _ _ Hf) as H5.
  destruct (Qle_bool 10000 (CustomerMetrics.total_revenue a));
    destruct (Qle_bool 5000 (CustomerMetrics.total_revenue a));
    destruct (Qle_bool 1000 (CustomerMetrics.total_revenue a));
    destruct (10 <=? CustomerMetrics.transaction_frequency a);
    destruct (5 <=? CustomerMetrics.transaction_frequency a);
    destruct (Qle_bool 10000 (CustomerMetrics.total_revenue b));
    destruct (Qle_bool 5000 (CustomerMetrics.total_revenue b));
    destruct (Qle_bool 1000 (CustomerMetrics.total_revenue b));
    destruct (10 <=? CustomerMetrics.transaction_frequency b);
    destruct (5 <=? CustomerMetrics.transaction_frequency b);
    first [ discriminate (H1 eq_refl) | discriminate (H2 eq_refl)
          | discriminate (H3 eq_refl) | discriminate (H4 eq_refl)
          | discriminate (H5 eq_refl) | vm_compute; discriminate ].
Qed.

Lemma categorize_customer_monotone_witness :
  segment_rank
    (categorize_customer (CustomerMetrics.mk (Some 1) 1500 1 None None None None))
  <= segment_rank
       (categorize_customer (CustomerMetrics.mk (Some 2) 6000 2 None None None None)).
Proof.
  apply categorize_customer_monotone; simpl.
  - unfold Qle. simpl. lia.
  - lia.
Defined.

(** ** [groupby] and [map] *)

Lemma filter_map_comm {A B : Type} (f : A -> B) (p : B -> bool) (l : list A) :
  filter p (map f l) = map f (filter (fun x => p (f x)) l).
Proof.
  induction l as [| x l IH]; simpl; [reflexivity |].
  destruct (p (f x)); simpl; now rewrite IH.
Qed.

Section GroupByMap.
Context {K R T : Type}.
Variable K_eq_dec : forall a b : K, {a = b} + {a <> b}.
Variable K_leb : K -> K -> bool.
Variable K_isnull : K -> bool.
Variable key : T -> K.
Variable f : R -> T.

(** Grouping the image of a frame groups the frame. *)
Lemma groupby_map (dropna : bool) (rows : list R) :
  groupby K_eq_dec K_leb K_isnull key dropna (map f rows)
  = map (fun g => (fst g, map f (snd g)))
        (groupby K_eq_dec K_leb K_isnull (fun r => key (f r)) dropna rows).
Proof.
  unfold groupby.
  assert (E : grouped_rows K_isnull key dropna (map f rows)
              = map f (grouped_rows K_isnull (fun r => key (f r)) dropna rows)).
  { unfold grouped_rows. destruct dropna; [| reflexivity].
    apply (filter_map_comm f (fun s => negb (K_isnull (key s)))). }
  rewrite E, map_map. unfold group_keys. rewrite map_map.
  apply map_ext. intros k. cbn [fst snd]. f_equal.
  apply (filter_map_comm f (same_key K_eq_dec key k)).
Qed.
End GroupByMap.

Lemma groupby_key_ext {K R : Type}
  (K_eq_dec : forall a b : K, {a = b} + {a <> b})
  (K_leb : K -> K -> bool) (K_isnull : K -> bool) (key key' : R -> K)
  (dropna : bool) (rows : list R) :
  (forall r, key r = key' r) ->
  groupby K_eq_dec K_leb K_isnull key dropna rows
  = groupby K_eq_dec K_leb K_isnull key' dropna rows.
Proof.
  intros H. unfold groupby.
  assert (E : grouped_rows K_isnull key dropna rows
              = grouped_rows K_isnull key' dropna rows).
  { unfold grouped_rows. destruct dropna; [| reflexivity].
    apply filter_ext. intros r. now rewrite H. }
  rewrite E. unfold group_keys. rewrite (map_ext key key' H).
  apply map_ext. intros k. f_equal. apply filter_ext. intros r.
  unfold same_key. now rewrite H.
Qed.

(** The customer metrics read the transaction's own cells and its revenue
    and nothing else. *)
Lemma customer_metrics_columns (sales : list Enriched.t) :
  customer_metrics (map transaction_columns sales) = customer_metrics sales.
Proof.
  unfold customer_metrics, customer_groups.
  rewrite groupby_map, map_map.
  rewrite (groupby_key_ext _ _ _
             (fun r => Enriched.customer_id (transaction_columns r))
             Enriched.customer_id true sales (fun r => eq_refl)).
  apply map_ext. intros [k rows]. unfold customer_agg. cbn [fst snd].
  rewrite !map_map. reflexivity.
Qed.

(** A frame in which no row has a customer has an empty customer table. *)
Lemma customer_metrics_no_customer (sales : list Enriched.t) :
  Forall (fun e => Enriched.customer_id e = None) sales ->
  customer_metrics sales = [].
Proof.
  intros H. unfold customer_metrics, customer_groups, groupby, grouped_rows.
  assert (E : filter (fun r => negb (isnull (Enriched.customer_id r))) sales
              = []).
  { induction H as [| e sales He _ IH]; [reflexivity |].
    simpl. rewrite He. simpl. exact IH. }
  rewrite E. reflexivity.
Qed.

Lemma joiner_unique_view (products : list Product.t)
  (customers : list Customer.t) (sales_df : list Derived.t) :
  NoDup (map Product.product_id products) ->
  NoDup (map Customer.customer_id customers) ->
  map transaction_columns (joiner products customers sales_df)
  = map (fun d => Enriched.mk
                    (Derived.mk (Derived.base d) (Derived.revenue d)
                                None None None None None None) None None)
        sales_df.
Proof.
  intros Hp Hc. unfold joiner.
  rewrite (merge_left_unique _ Product.product_id sales_df products Hp).
  rewrite (merge_left_unique _ Customer.customer_id _ customers Hc).
  rewrite !map_map. reflexivity.
Qed.

(** X13: With unique keys in both dimension tables, the customer table of a run
    is a function of the sales frame alone: two runs on the same sales and
    any such dimension tables give the same customer segments. *)
Theorem customer_segments_ignore_dimensions
  (sales : list RawSales)
  (products products' : list Product.t)
  (customers customers' : list Customer.t)
  (enhanced enhanced' : list Enriched.t) :
  NoDup (map Product.product_id products) ->
  NoDup (map Customer.customer_id customers) ->
  NoDup (map Product.product_id products') ->
  NoDup (map Customer.customer_id customers') ->
  sales_enhanced (mkRawData sales products customers) = Some enhanced ->
  sales_enhanced (mkRawData sales products' customers') = Some enhanced' ->
  customer_segments enhanced = customer_segments enhanced'.
Proof.
  intros Hp Hc Hp' Hc' H H'. unfold sales_enhanced in H, H'.
  cbn [raw_sales raw_products raw_customers] in H, H'.
  destruct (cleaner (range_index sales)) as [cleaned |]; [| discriminate].
  cbn [omap] in H, H'. inversion H; inversion H'; subst; clear H H'.
  unfold customer_segments. f_equal.
  rewrite <- (customer_metrics_columns (joiner products customers _)).
  rewrite <- (customer_metrics_columns (joiner products' customers' _)).
  rewrite (joiner_unique_view _ _ _ Hp Hc), (joiner_unique_view _ _ _ Hp' Hc').
  destruct cleaned as [| c cleaned].
  - rewrite !customer_metrics_no_customer; [reflexivity | |];
      apply Forall_forall; intros e He;
      apply in_map_iff in He; destruct He as [d [He Hd]]; subst e;
      apply in_map_iff in Hd; destruct Hd as [[i x] [Hx Hin]]; subst d;
      unfold feature_deriver in Hin; apply in_map_iff in Hin;
      destruct Hin as [[j r] [Hjr Hin]];
      apply adopt_index_rows in Hin;
      destruct Hin as [[] | [_ [Hr _]]]; subst r;
      inversion Hjr; subst; reflexivity.
  - unfold feature_deriver, adopt_index. rewrite !map_map. reflexivity.
Qed.

Lemma customer_segments_ignore_dimensions_witness :
  exists enhanced enhanced',
    sales_enhanced (mkRawData Samples.mixed_sales Samples.products
                              Samples.customers) = Some enhanced
    /\ sales_enhanced (mkRawData Samples.mixed_sales [] []) = Some enhanced'
    /\ customer_segments enhanced = customer_segments enhanced'.
Proof.
  eexists. eexists. split; [reflexivity |]. split; [reflexivity |].
  apply (customer_segments_ignore_dimensions Samples.mixed_sales
           Samples.products [] Samples.customers []);
    try reflexivity; simpl; repeat constructor; simpl; intuition discriminate.
Defined.

(** ** When the transform fails *)

Lemma in_range_index {R : Type} (rows : list R) (r : R) :
  In r rows <-> exists i, In (i, r) (range_index rows).
Proof.
  unfold range_index. split.
  - generalize 0%nat. induction rows as [| x rows IH]; intros s [].
    + subst x. exists s. now left.
    + destruct (IH (S s) H) as [i Hi]. exists i. now right.
  - intros [i Hi]. now apply in_combine_r in Hi.
Qed.

Lemma transform_unparseable
  (sort_values : list ProductPerformance.t -> list ProductPerformance.t)
  (raw : RawData) (r : RawSales) (s : string) :
  In r (raw_sales raw) ->
  Sales.transaction_date r = RawUnparseable s ->
  transform_sales_data sort_values raw = None.
Proof.
  intros Hin Hs. unfold transform_sales_data, sales_enhanced, cleaner.
  apply in_range_index in Hin. destruct Hin as [i Hi].
  assert (Hn : parse_dates (range_index (raw_sales raw)) = None).
  { apply parse_dates_none. exists (i, r). split; [exact Hi |].
    cbn. now rewrite Hs. }
  rewrite Hn. reflexivity.
Qed.

(** X14: If some row of the raw sales frame has a date that cannot be parsed,
    be it a row that the null rule or the amount rule would have dropped,
    the transform returns the empty dict.  When the transform returns its
    tables, no raw date is unparseable and each of the four tables is
    computed from the joined frame. *)
Theorem transform_fails_on_unparseable_date
  (sort_values : list ProductPerformance.t -> list ProductPerformance.t)
  (raw : RawData) :
  ((exists r s, In r (raw_sales raw)
                /\ Sales.transaction_date r = RawUnparseable s) ->
   transform_sales_data sort_values raw = None)
  /\ (forall processed,
        transform_sales_data sort_values raw = Some processed ->
        (forall r s, In r (raw_sales raw) ->
                     Sales.transaction_date r <> RawUnparseable s)
        /\ sales_enhanced raw = Some (out_sales_enhanced processed)
        /\ out_monthly_revenue processed
           = monthly_revenue (out_sales_enhanced processed)
        /\ out_product_performance processed
           = product_performance sort_values (out_sales_enhanced processed)
        /\ out_customer_segments processed
           = customer_segments (out_sales_enhanced processed)).
Proof.
  split.
  - intros [r [s [Hin Hs]]]. exact (transform_unparseable _ _ r s Hin Hs).
  - intros processed H. split.
    + intros r s Hin Hs.
      rewrite (transform_unparseable sort_values raw r s Hin Hs) in H.
      discriminate H.
    + unfold transform_sales_data in H.
      destruct (sales_enhanced raw) as [enhanced |]; [| discriminate].
      cbn [omap] in H. inversion H; subst; clear H. cbn.
      repeat split; reflexivity.
Qed.

Lemma transform_fails_on_unparseable_date_witness :
  transform_sales_data sort_stable
    (Samples.raw_of [Samples.sale_zero_amount; Samples.sale_bad_date]) = None
  /\ exists processed,
       transform_sales_data sort_stable (Samples.raw_of Samples.mixed_sales)
       = Some processed
       /\ out_monthly_revenue processed
          = monthly_revenue (out_sales_enhanced processed).
Proof.
  split.
  - apply (proj1 (transform_fails_on_unparseable_date sort_stable
                    (Samples.raw_of [Samples.sale_zero_amount;
                                     Samples.sale_bad_date]))).
    exists Samples.sale_bad_date. eexists.
    split; [right; left; reflexivity | reflexivity].
  - eexists. split; [reflexivity |].
    apply (proj2 (transform_fails_on_unparseable_date sort_stable
                    (Samples.raw_of Samples.mixed_sales)) _ eq_refl).
Defined.

(** ** Where the cost price of a margin comes from *)

Lemma range_index_nth {R : Type} (rows : list R) (i : nat) (r : R) :
  In (i, r) (range_index rows) -> nth_error rows i = Some r.
Proof.
  unfold range_index.
  assert (G : forall s, In (i, r) (combine (seq s (List.length rows)) rows) ->
                        (s <= i)%nat /\ nth_error rows (i - s) = Some r).
  { induction rows as [| x rows IH]; intros s H; [destruct H |].
    simpl in H. destruct H as [H | H].
    - inversion H; subst. rewrite Nat.sub_diag. split; [lia | reflexivity].
    - destruct (IH (S s) H) as [Hle Hn]. split; [lia |].
      replace (i - s)%nat with (S (i - S s)) by lia. exact Hn. }
  intros H. destruct (G 0%nat H) as [_ Hn]. now rewrite Nat.sub_0_r in Hn.
Qed.

(** X15: In a run of the transform, a row of the joined frame is of one of two
    kinds.  Either it is the sale that stands at some position [i] of the
    raw sales frame, and then its margin is computed with the cost price of
    the product row at position [i] of the product frame, whatever the
    sale's [product_id], and is null when the product frame has no row at
    that position.  Or the cleaning has left no sale, and then the row is
    one of the rows of nulls that line 147 makes, one per product row, and
    its margin is null. *)
Theorem profit_margin_by_row_position
  (raw : RawData) (enhanced : list Enriched.t) :
  sales_enhanced raw = Some enhanced ->
  Forall
    (fun e =>
       (exists (i : nat) (r : RawSales),
          nth_error (raw_sales raw) i = Some r
          /\ Enriched.transaction_id e = Sales.transaction_id r
          /\ Enriched.profit_margin e
             = nsub (Sales.total_amount r)
                    (nmul (as_float (Sales.quantity_sold r))
                          (nth_error (raw_products raw) i
                           >>= Product.cost_price))
          /\ ((List.length (raw_products raw) <= i)%nat ->
              Enriched.profit_margin e = None))
       \/ (cleaner (range_index (raw_sales raw)) = Some []
           /\ Derived.base (Enriched.sale e) = null_sale
           /\ Enriched.profit_margin e = None))
    enhanced.
Proof.
  intros H.
  destruct (sales_enhanced_rows raw enhanced H) as [cleaned [Hc Hrows]].
  apply Forall_forall. intros e He.
  destruct (Hrows e He) as [i [[Hin | [Hnil [Hnull _]]] Hs]].
  - left. unfold cleaner in Hc.
    destruct (parse_dates (range_index (raw_sales raw))) as [p |] eqn:E;
      [| discriminate].
    cbn [omap] in Hc. inversion Hc; subst cleaned; clear Hc.
    unfold keep_positive, dropna_subset in Hin.
    apply filter_In in Hin. destruct Hin as [Hin _].
    apply filter_In in Hin. destruct Hin as [Hin _].
    apply (parse_dates_in _ _ E) in Hin.
    destruct Hin as [r [d [Hin [_ Hr]]]].
    exists i, r. split; [now apply range_index_nth |].
    assert (Hm : Enriched.profit_margin e
                 = nsub (Sales.total_amount r)
                        (nmul (as_float (Sales.quantity_sold r))
                              (nth_error (raw_products raw) i
                               >>= Product.cost_price))).
    { unfold Enriched.profit_margin. rewrite Hs.
      cbn [derive_row snd fst Derived.profit_margin].
      rewrite profit_margin_positional, Hr. reflexivity. }
    split; [unfold Enriched.transaction_id; now rewrite Hr |].
    split; [exact Hm |].
    intros Hlen. rewrite Hm.
    apply nth_error_None in Hlen. rewrite Hlen. cbn.
    unfold nsub, nmul, olift2.
    destruct (Sales.total_amount r), (as_float (Sales.quantity_sold r));
      reflexivity.
  - right. subst cleaned. split; [exact Hc |]. split; [exact Hnull |].
    unfold Enriched.profit_margin. rewrite Hs, Hnull. reflexivity.
Qed.

Lemma profit_margin_by_row_position_witness :
  (exists enhanced,
     sales_enhanced
       (Samples.raw_of [Samples.sale_of_pen; Samples.sale_of_ink;
                        Samples.sale_of_pen])
     = Some enhanced
     /\ map Enriched.profit_margin enhanced = [Some (-10)%Q; Some 7%Q; None]
     /\ Forall (fun e => exists (i : nat) (r : RawSales),
                  nth_error [Samples.sale_of_pen; Samples.sale_of_ink;
                             Samples.sale_of_pen] i = Some r
                  /\ Enriched.transaction_id e = Sales.transaction_id r)
               enhanced)
  /\ (exists enhanced,
        sales_enhanced (Samples.raw_of [Samples.sale_zero_amount])
        = Some enhanced
        /\ map Enriched.transaction_id enhanced = [None; None]
        /\ map Enriched.profit_margin enhanced = [None; None]).
Proof.
  split.
  - eexists. split; [reflexivity |]. split; [reflexivity |].
    eapply Forall_impl;
      [| apply (profit_margin_by_row_position
                  (Samples.raw_of [Samples.sale_of_pen; Samples.sale_of_ink;
                                   Samples.sale_of_pen])); reflexivity].
    intros e [[i [r [H1 [H2 _]]]] | [Hnil _]].
    + exists i, r. split; assumption.
    + vm_compute in Hnil. discriminate Hnil.
  - eexists. split; [reflexivity |]. split; reflexivity.
Defined.

(** * The quality report *)

Lemma count_none {A : Type} (p : A -> bool) (l : list A) :
  Forall (fun x => p x = false) l -> List.length (filter p l) = 0%nat.
Proof.
  induction 1 as [| x l Hx _ IH]; simpl; [reflexivity |]. now rewrite Hx.
Qed.

Lemma cell_int_eqb (x y : option Z) :
  cell_eqb (cell_int x) (cell_int y) = true -> x = y.
Proof.
  destruct x, y; simpl; try discriminate; [| reflexivity].
  intros H. apply Z.eqb_eq in H. now subst.
Qed.

Lemma cell_str_eqb (x y : option string) :
  cell_eqb (cell_str x) (cell_str y) = true -> x = y.
Proof.
  destruct x, y; simpl; try discriminate; [| reflexivity].
  intros H. apply String.eqb_eq in H. now subst.
Qed.

Section NoDuplicates.
Context {A K : Type}.
Variable cells : A -> list cell.
Variable keyf : A -> K.
Hypothesis cells_key :
  forall a b, row_eqb (cells a) (cells b) = true -> keyf a = keyf b.

Lemma duplicated_distinct_keys (seen l : list A) :
  NoDup (map keyf (rev seen ++ l)) ->
  Forall (fun b => b = false) (duplicated (map cells seen) (map cells l)).
Proof.
  revert seen. induction l as [| x l IH]; intros seen Hnd; simpl.
  - constructor.
  - constructor.
    + destruct (existsb (row_eqb (cells x)) (map cells seen)) eqn:E;
        [| reflexivity].
      exfalso. apply existsb_exists in E. destruct E as [r [Hr Heq]].
      apply in_map_iff in Hr. destruct Hr as [y [Hy Hin]]. subst r.
      apply cells_key in Heq.
      rewrite map_app in Hnd. apply NoDup_remove_2 in Hnd.
      apply Hnd. rewrite <- map_app, Heq. apply in_map.
      apply in_or_app. left. now apply -> in_rev.
    + apply (IH (x :: seen)). simpl. now rewrite <- app_assoc.
Qed.

Lemma no_duplicates (columns : list string) (l : list A) :
  NoDup (map keyf l) ->
  duplicate_count (mkFrame columns (map cells l)) = 0%nat.
Proof.
  intros Hnd. unfold duplicate_count. cbn [rows]. apply count_none.
  apply (duplicated_distinct_keys [] l). exact Hnd.
Qed.
End NoDuplicates.

Lemma null_count_map {A : Type} (cells : A -> list cell) (j : nat)
  (l : list A) :
  List.length (filter (fun r => cell_isnull (nth j r CNull)) (map cells l))
  = List.length (filter (fun a => cell_isnull (nth j (cells a) CNull)) l).
Proof.
  rewrite (filter_map_comm cells (fun r => cell_isnull (nth j r CNull))).
  apply length_map.
Qed.

Lemma monthly_keys_nonnull (sales : list Enriched.t) :
  Forall (fun m => MonthlyRevenue.year m <> None
                   /\ MonthlyRevenue.month m <> None
                   /\ MonthlyRevenue.region m <> None)
         (monthly_revenue sales).
Proof.
  apply Forall_forall. intros m Hm.
  destruct (monthly_revenue_key sales m Hm) as [g [Hg Hk]].
  unfold monthly_groups in Hg. apply groupby_group in Hg.
  destruct Hg as [_ [_ [_ Hnn]]]. specialize (Hnn eq_refl).
  rewrite Hk in Hnn. unfold month_key_isnull in Hnn.
  destruct (MonthlyRevenue.year m), (MonthlyRevenue.month m),
    (MonthlyRevenue.region m); try discriminate Hnn.
  repeat split; discriminate.
Qed.

Lemma monthly_keys_nodup (sales : list Enriched.t) :
  NoDup (map monthly_key_of (monthly_revenue sales)).
Proof.
  assert (E : map monthly_key_of (monthly_revenue sales)
              = group_keys month_key_eq_dec month_key_leb month_key
                  (grouped_rows month_key_isnull month_key true sales)).
  { unfold monthly_revenue, monthly_groups, groupby. rewrite !map_map.
    rewrite <- (map_id (group_keys _ _ _ _)) at 2.
    apply map_ext. now intros [[y m] r]. }
  rewrite E. apply group_keys_nodup.
Qed.

(** X16: The report on the monthly table always shows no null in any of its
    seven columns and no duplicated row. *)
Theorem monthly_revenue_quality (sales : list Enriched.t) :
  let q := quality_of (monthly_revenue_frame (monthly_revenue sales)) in
  q_record_count q = List.length (monthly_revenue sales)
  /\ q_null_counts q
     = [("year", 0); ("month", 0); ("region", 0); ("revenue", 0);
        ("total_sales", 0); ("units_sold", 0);
        ("transaction_count", 0)]%string%nat
  /\ q_duplicate_count q = 0%nat.
Proof.
  cbv zeta. unfold quality_of. cbn [q_record_count q_null_counts q_duplicate_count].
  split; [| split].
  - unfold record_count, monthly_revenue_frame. cbn [rows]. apply length_map.
  - unfold null_counts, monthly_revenue_frame. cbn [columns rows].
    cbn [range_index List.length seq combine map fst snd].
    rewrite !null_count_map.
    pose proof (monthly_keys_nonnull sales) as Hk.
    repeat match goal with
           | |- context [List.length (filter ?p (monthly_revenue sales))] =>
               replace (List.length (filter p (monthly_revenue sales)))
                 with 0%nat
                 by (symmetry; apply count_none;
                     first [ apply Forall_forall; reflexivity
                           | eapply Forall_impl; [| exact Hk];
                             intros m [Hy [Hm Hr]]; cbn;
                             first [ now destruct (MonthlyRevenue.year m)
                                   | now destruct (MonthlyRevenue.month m)
                                   | now destruct (MonthlyRevenue.region m) ] ])
           end.
    reflexivity.
  - apply (no_duplicates monthly_cells monthly_key_of).
    + intros a b H. unfold monthly_cells in H. cbn [row_eqb] in H.
      apply andb_true_iff in H. destruct H as [H1 H].
      apply andb_true_iff in H. destruct H as [H2 H].
      apply andb_true_iff in H. destruct H as [H3 _].
      unfold monthly_key_of.
      now rewrite (cell_int_eqb _ _ H1), (cell_int_eqb _ _ H2),
        (cell_str_eqb _ _ H3).
    + apply monthly_keys_nodup.
Qed.

Lemma product_groups_keys (sales : list Enriched.t) :
  map key_of (product_groups sales)
  = group_keys product_key_eq_dec product_key_leb product_key
      (grouped_rows product_key_isnull product_key true sales).
Proof.
  unfold product_groups, groupby. rewrite !map_map.
  rewrite <- (map_id (group_keys _ _ _ _)) at 2.
  apply map_ext. now intros [c n].
Qed.

Lemma product_groups_nonnull (sales : list Enriched.t) :
  Forall (fun p => ProductPerformance.category_name p <> None
                   /\ ProductPerformance.product_name p <> None)
         (product_groups sales).
Proof.
  apply Forall_forall. intros p Hp.
  unfold product_groups in Hp. apply in_map_iff in Hp.
  destruct Hp as [g [Hp Hg]]. subst p. simpl.
  apply groupby_group in Hg. destruct Hg as [_ [_ [_ Hnn]]].
  specialize (Hnn eq_refl). unfold product_key_isnull in Hnn.
  apply orb_false_iff in Hnn. destruct Hnn as [H1 H2].
  destruct (fst (fst g)), (snd (fst g)); try discriminate.
  split; discriminate.
Qed.

(** X17: Whatever the sorting routine, the report on the product table shows
    no null in any of its five columns and no duplicated row. *)
Theorem product_performance_quality
  (sort_values : list ProductPerformance.t -> list ProductPerformance.t)
  (sales : list Enriched.t) :
  sort_values_desc sort_values ->
  let q := quality_of (product_performance_frame
                         (product_performance sort_values sales)) in
  q_null_counts q
  = [("category_name", 0); ("product_name", 0); ("revenue", 0);
     ("quantity_sold", 0); ("profit_margin", 0)]%string%nat
  /\ q_duplicate_count q = 0%nat.
Proof.
  intros [Hperm _]. cbv zeta. unfold quality_of.
  cbn [q_null_counts q_duplicate_count].
  pose proof (Hperm (product_groups sales)) as Hp.
  fold (product_performance sort_values sales) in Hp.
  split.
  - unfold null_counts, product_performance_frame. cbn [columns rows].
    cbn [range_index List.length seq combine map fst snd].
    rewrite !null_count_map.
    assert (Hk : Forall (fun p => ProductPerformance.category_name p <> None
                                  /\ ProductPerformance.product_name p <> None)
                        (product_performance sort_values sales)).
    { apply Forall_forall. intros p Hin.
      apply (Permutation_in _ Hp) in Hin.
      pose proof (product_groups_nonnull sales) as Hall.
      rewrite Forall_forall in Hall. now apply Hall. }
    repeat match goal with
           | |- context [List.length (filter ?p ?l)] =>
               replace (List.length (filter p l)) with 0%nat
                 by (symmetry; apply count_none;
                     eapply Forall_impl; [| exact Hk];
                     intros m [Hc Hn]; cbn;
                     first [ now destruct (ProductPerformance.category_name m)
                           | now destruct (ProductPerformance.product_name m) ])
           end.
    reflexivity.
  - apply (no_duplicates product_cells key_of).
    + intros a b H. unfold product_cells in H. cbn [row_eqb] in H.
      apply andb_true_iff in H. destruct H as [H1 H].
      apply andb_true_iff in H. destruct H as [H2 _].
      unfold key_of.
      now rewrite (cell_str_eqb _ _ H1), (cell_str_eqb _ _ H2).
    + apply (Permutation_NoDup (Permutation_map _ (Permutation_sym Hp))).
      rewrite product_groups_keys. apply group_keys_nodup.
Qed.

Lemma product_performance_quality_witness :
  exists enhanced,
    sales_enhanced
      (Samples.raw_of [Samples.sale_of_pen; Samples.sale_unknown_product;
                       Samples.sale_of_ink])
    = Some enhanced
    /\ record_count (product_performance_frame
                       (product_performance sort_stable enhanced)) = 2%nat
    /\ q_duplicate_count
         (quality_of (product_performance_frame
                        (product_performance sort_stable enhanced))) = 0%nat.
Proof.
  eexists. split; [reflexivity |]. split; [reflexivity |].
  apply (product_performance_quality sort_stable).
  exact sort_stable_contract.
Defined.

Lemma customer_ids_keys (sales : list Enriched.t) :
  map (fun c => CustomerMetrics.customer_id (CustomerSegment.metrics c))
      (customer_segments sales)
  = group_keys oZ_eq_dec oZ_leb Enriched.customer_id
      (grouped_rows isnull Enriched.customer_id true sales).
Proof.
  unfold customer_segments, customer_metrics, customer_groups, groupby.
  rewrite !map_map. cbn. apply map_id.
Qed.

Lemma customer_rows_of_run (raw : RawData) (enhanced : list Enriched.t) :
  sales_enhanced raw = Some enhanced ->
  Forall (fun c =>
            let m := CustomerSegment.metrics c in
            CustomerMetrics.customer_id m <> None
            /\ CustomerMetrics.avg_order_value m <> None
            /\ (CustomerMetrics.first_purchase m = None <->
                CustomerMetrics.last_purchase m = None)
            /\ (CustomerMetrics.first_purchase m = None <->
                CustomerMetrics.customer_lifetime m = None))
         (customer_segments enhanced).
Proof.
  intros H. pose proof (sales_enhanced_clean raw enhanced H) as Hclean.
  rewrite Forall_forall in Hclean.
  apply Forall_forall. intros c Hc.
  unfold customer_segments in Hc. apply in_map_iff in Hc.
  destruct Hc as [m [Hc Hm]]. subst c. cbn [CustomerSegment.metrics].
  unfold customer_metrics in Hm. apply in_map_iff in Hm.
  destruct Hm as [[k grp] [Hm Hg]]. subst m.
  unfold customer_groups in Hg. apply groupby_group in Hg.
  cbn [fst snd] in Hg. destruct Hg as [_ [Hne [Hrows Hnn]]].
  specialize (Hnn eq_refl).
  unfold customer_agg.
  cbn [fst snd CustomerMetrics.customer_id CustomerMetrics.avg_order_value
       CustomerMetrics.first_purchase CustomerMetrics.last_purchase
       CustomerMetrics.customer_lifetime].
  split; [destruct k; [discriminate | discriminate Hnn] |].
  split.
  - assert (Hfreq : count_notnull (map Enriched.transaction_id grp)
                    = Z.of_nat (List.length grp)).
    { rewrite count_notnull_all; [now rewrite length_map |].
      apply Forall_forall. intros x Hx. apply in_map_iff in Hx.
      destruct Hx as [e [He Hine]]. subst x.
      destruct (Hrows e Hine) as [Hsales Hk].
      refine (proj1 (Hclean e Hsales _)).
      left. rewrite Hk. intros Hnone. rewrite Hnone in Hnn.
      discriminate Hnn. }
    unfold order_value. rewrite Hfreq.
    destruct grp; [congruence |]. simpl List.length.
    destruct (Z.of_nat (S (List.length grp)) =? 0) eqn:E;
      [apply Z.eqb_eq in E; lia | discriminate].
  - pose proof (min_skipna_spec (map Enriched.transaction_date grp)) as Hmin.
    pose proof (max_skipna_spec (map Enriched.transaction_date grp)) as Hmax.
    unfold lifetime_days, olift2.
    destruct (min_skipna (map Enriched.transaction_date grp)) as [f |];
      destruct (max_skipna (map Enriched.transaction_date grp)) as [l |].
    + split; split; discriminate.
    + destruct Hmin as [Hf _]. destruct (Hmax f Hf).
    + destruct Hmax as [Hl _]. destruct (Hmin l Hl).
    + split; split; reflexivity.
Qed.

(** X18: In the report of a run, the customer table has no duplicated row and
    no null in [customer_id], [total_revenue], [transaction_frequency],
    [avg_order_value] and [customer_segment]; [first_purchase],
    [last_purchase] and [customer_lifetime] have the same number of nulls,
    one for each customer without a dated transaction. *)
Theorem customer_segments_quality (raw : RawData) (enhanced : list Enriched.t) :
  sales_enhanced raw = Some enhanced ->
  let q := quality_of (customer_segments_frame (customer_segments enhanced)) in
  q_duplicate_count q = 0%nat
  /\ exists undated : nat,
       q_null_counts q
       = [("customer_id", 0); ("total_revenue", 0);
          ("transaction_frequency", 0); ("first_purchase", undated);
          ("last_purchase", undated); ("customer_lifetime", undated);
          ("avg_order_value", 0); ("customer_segment", 0)]%string%nat.
Proof.
  intros H. cbv zeta. unfold quality_of.
  cbn [q_null_counts q_duplicate_count].
  pose proof (customer_rows_of_run raw enhanced H) as Hrows.
  split.
  - apply (no_duplicates customer_cells
             (fun c => CustomerMetrics.customer_id (CustomerSegment.metrics c))).
    + intros a b Hab. unfold customer_cells in Hab. cbn [row_eqb] in Hab.
      apply andb_true_iff in Hab. destruct Hab as [H1 _].
      exact (cell_int_eqb _ _ H1).
    + rewrite customer_ids_keys. apply group_keys_nodup.
  - exists (List.length
              (filter (fun a => cell_isnull (nth 3 (customer_cells a) CNull))
                      (customer_segments enhanced))).
    unfold null_counts, customer_segments_frame. cbn [columns rows].
    cbn [range_index List.length seq combine map fst snd].
    rewrite !null_count_map.
    set (l := customer_segments enhanced) in *.
    assert (Hzero : forall p : CustomerSegment.t -> bool,
               (forall c, In c l -> p c = false) ->
               List.length (filter p l) = 0%nat).
    { intros p Hp. apply count_none. now apply Forall_forall. }
    assert (Hsame : forall p p' : CustomerSegment.t -> bool,
               (forall c, In c l -> p c = p' c) ->
               List.length (filter p l) = List.length (filter p' l)).
    { intros p p' Hp. f_equal. clear -Hp.
      induction l as [| x l IH]; [reflexivity |]. simpl.
      rewrite (Hp x (or_introl eq_refl)), IH; [reflexivity |].
      intros c Hc. apply Hp. now right. }
    rewrite Forall_forall in Hrows.
    set (cnt := fun j : nat =>
                  List.length
                    (filter (fun a => cell_isnull (nth j (customer_cells a) CNull))
                            l)).
    change ([("customer_id"%string, cnt 0%nat); ("total_revenue"%string, cnt 1%nat);
             ("transaction_frequency"%string, cnt 2%nat);
             ("first_purchase"%string, cnt 3%nat);
             ("last_purchase"%string, cnt 4%nat);
             ("customer_lifetime"%string, cnt 5%nat);
             ("avg_order_value"%string, cnt 6%nat);
             ("customer_segment"%string, cnt 7%nat)]
            = [("customer_id"%string, 0%nat); ("total_revenue"%string, 0%nat);
               ("transaction_frequency"%string, 0%nat);
               ("first_purchase"%string, cnt 3%nat);
               ("last_purchase"%string, cnt 3%nat);
               ("customer_lifetime"%string, cnt 3%nat);
               ("avg_order_value"%string, 0%nat);
               ("customer_segment"%string, 0%nat)]).
    assert (C0 : cnt 0%nat = 0%nat).
    { apply Hzero. intros c Hc. destruct (Hrows c Hc) as [Hid _]. cbn.
      now destruct (CustomerMetrics.customer_id (CustomerSegment.metrics c)). }
    assert (C1 : cnt 1%nat = 0%nat) by (apply Hzero; reflexivity).
    assert (C2 : cnt 2%nat = 0%nat) by (apply Hzero; reflexivity).
    assert (C4 : cnt 4%nat = cnt 3%nat).
    { apply Hsame. intros c Hc. destruct (Hrows c Hc) as [_ [_ [Hfl _]]]. cbn.
      destruct (CustomerMetrics.first_purchase (CustomerSegment.metrics c)),
        (CustomerMetrics.last_purchase (CustomerSegment.metrics c));
        try reflexivity; exfalso;
        [assert (E : Some d = None) by (now apply Hfl)
        | assert (E : Some d = None) by (now apply Hfl)]; discriminate E. }
    assert (C5 : cnt 5%nat = cnt 3%nat).
    { apply Hsame. intros c Hc. destruct (Hrows c Hc) as [_ [_ [_ Hfl]]]. cbn.
      destruct (CustomerMetrics.first_purchase (CustomerSegment.metrics c)),
        (CustomerMetrics.customer_lifetime (CustomerSegment.metrics c));
        try reflexivity; exfalso;
        [assert (E : Some d = None) by (now apply Hfl)
        | assert (E : Some z = None) by (now apply Hfl)]; discriminate E. }
    assert (C6 : cnt 6%nat = 0%nat).
    { apply Hzero. intros c Hc. destruct (Hrows c Hc) as [_ [Ha _]]. cbn.
      now destruct (CustomerMetrics.avg_order_value (CustomerSegment.metrics c)). }
    assert (C7 : cnt 7%nat = 0%nat) by (apply Hzero; reflexivity).
    now rewrite C0, C1, C2, C4, C5, C6, C7.
Qed.

Lemma customer_segments_quality_witness :
  exists enhanced,
    sales_enhanced (Samples.raw_of Samples.mixed_sales) = Some enhanced
    /\ q_record_count
         (quality_of (customer_segments_frame (customer_segments enhanced)))
       = 2%nat
    /\ q_duplicate_count
         (quality_of (customer_segments_frame (customer_segments enhanced)))
       = 0%nat.
Proof.
  eexists. split; [reflexivity |]. split; [reflexivity |].
  apply (customer_segments_quality (Samples.raw_of Samples.mixed_sales)).
  reflexivity.
Defined.

(** * The pipeline *)

Lemma write_all_prefix (ok : string -> bool) (target : string -> string)
  (done : string -> Frame -> effect) (items : list (string * Frame)) :
  exists k : nat,
    (k <= List.length items)%nat
    /\ fst (write_all ok target done items)
       = firstn k (map (fun item => done (target (fst item)) (snd item)) items)
    /\ (snd (write_all ok target done items) = true <-> k = List.length items)
    /\ (snd (write_all ok target done items) = true <->
        Forall (fun item => ok (target (fst item)) = true) items).
Proof.
  induction items as [| [name f] items IH].
  - exists 0%nat. cbn. repeat split; auto.
  - cbn [write_all]. destruct (ok (target name)) eqn:E.
    + destruct IH as [k [Hk [Hfst [Hsnd Hall]]]].
      destruct (write_all ok target done items) as [effects finished].
      cbn [fst snd] in *. exists (S k). cbn [List.length map firstn fst snd].
      split; [lia |]. split; [now rewrite Hfst |]. split.
      * rewrite Hsnd. lia.
      * rewrite Hall. split.
        -- intros H. constructor; [exact E | exact H].
        -- intros H. now inversion H.
    + exists 0%nat. cbn [fst snd firstn List.length]. split; [lia |].
      split; [reflexivity |]. split.
      * split; [discriminate | lia].
      * split; [discriminate |]. intros H. inversion H; subst.
        cbn [fst] in *. congruence.
Qed.

Lemma load_prefix (w : World) (items : list (string * Frame)) :
  exists k : nat,
    fst (load_processed_data w true items) = firstn k (all_writes items)
    /\ (snd (load_processed_data w true items) = true <->
        makedirs_ok w = true
        /\ Forall (fun item => to_csv_ok w (csv_path (fst item)) = true) items
        /\ Forall (fun item => to_sql_ok w (sql_table (fst item)) = true) items)
    /\ (snd (load_processed_data w true items) = true ->
        fst (load_processed_data w true items) = all_writes items).
Proof.
  unfold load_processed_data, all_writes.
  destruct (makedirs_ok w).
  2:{ exists 0%nat. cbn. split; [reflexivity |]. split; [| discriminate].
      split; [discriminate | intros [H _]; discriminate H]. }
  destruct (write_all_prefix (to_csv_ok w) csv_path CsvWritten items)
    as [k [Hk [Hfst [Hsnd Hall]]]].
  destruct (write_all (to_csv_ok w) csv_path CsvWritten items)
    as [files files_ok]. cbn [fst snd] in *.
  set (csvs := map (fun item => CsvWritten (csv_path (fst item)) (snd item))
                   items) in *.
  assert (Hlen : List.length csvs = List.length items)
    by (unfold csvs; apply length_map).
  destruct files_ok.
  - destruct (write_all_prefix (to_sql_ok w) sql_table SqlWritten items)
      as [k' [Hk' [Hfst' [Hsnd' Hall']]]].
    destruct (write_all (to_sql_ok w) sql_table SqlWritten items)
      as [tables tables_ok]. cbn [fst snd] in *.
    assert (Ek : k = List.length items) by (now apply Hsnd).
    assert (Efiles : files = csvs).
    { rewrite Hfst, Ek, <- Hlen. apply firstn_all. }
    exists (List.length csvs + k')%nat. split; [| split].
    + rewrite firstn_app_2, Efiles, Hfst'. reflexivity.
    + rewrite Hall'. split.
      * intros H. split; [reflexivity |]. split; [now apply Hall | exact H].
      * intros [_ [_ H]]. exact H.
    + intros Ht. apply Hsnd' in Ht. subst k'. rewrite Efiles, Hfst'.
      f_equal. rewrite <- (length_map
                             (fun item => SqlWritten (sql_table (fst item))
                                                     (snd item)) items).
      apply firstn_all.
  - exists k. split; [| split].
    + rewrite Hfst. rewrite firstn_app.
      replace (k - List.length csvs)%nat with 0%nat by lia.
      cbn [firstn]. now rewrite app_nil_r.
    + split; [discriminate |]. intros [_ [H _]].
      apply Hall in H. discriminate H.
    + discriminate.
Qed.

Lemma run_only_if
  (sort_values : list ProductPerformance.t -> list ProductPerformance.t)
  (w : World) :
  snd (run_etl_pipeline sort_values w) = true ->
  (exists url, env_connection_string w = Some url
               /\ create_engine_ok w url = true)
  /\ (exists sales products customers,
        sql_sales w = Some sales /\ sql_products w = Some products
        /\ sql_customers w = Some customers
        /\ forall r s, In r sales ->
             Sales.transaction_date r <> RawUnparseable s)
  /\ makedirs_ok w = true
  /\ Forall (fun name => to_csv_ok w (csv_path name) = true
                         /\ to_sql_ok w (sql_table name) = true)
            table_names.
Proof.
  unfold run_etl_pipeline, connect_to_database, extract_sales_data.
  destruct (env_connection_string w) as [url |]; [| discriminate].
  destruct (create_engine_ok w url) eqn:Ec; [| discriminate].
  destruct (sql_sales w) as [sales |]; [| discriminate].
  destruct (sql_products w) as [products |]; [| discriminate].
  destruct (sql_customers w) as [customers |]; [| discriminate].
  pose proof (transform_unparseable sort_values
                (mkRawData sales products customers)) as Ht.
  cbn [raw_sales] in Ht.
  destruct (transform_sales_data sort_values
              (mkRawData sales products customers)) as [processed |];
    [| discriminate].
  destruct (load_prefix w (processed_items (Some processed)))
    as [k [_ [Hload _]]].
  rewrite Hload. cbn [processed_items].
  intros [Hm [Hcsv Hsql]]. split; [exists url; auto |]. split.
  - exists sales, products, customers. repeat split; try reflexivity.
    intros r s Hin Hbad.
    assert (E : Some processed = None) by (apply (Ht r s); assumption).
    discriminate E.
  - split; [exact Hm |]. unfold table_names.
    repeat match goal with
           | H : Forall _ (_ :: _) |- _ => inversion H; subst; clear H
           end.
    cbn [fst] in *. repeat constructor; assumption.
Qed.

(** X20: A run returns [True] only if the connection string is set and
    accepted, the three queries return, no sale has an unparseable date,
    the output directory can be made and each of the four tables can be
    written both as a CSV file and as a database table.  What the reading
    of the Excel targets gives, a frame or an exception, changes neither
    the writes nor the result of the run. *)
Theorem run_succeeds_only_if
  (sort_values : list ProductPerformance.t -> list ProductPerformance.t)
  (w : World) :
  (snd (run_etl_pipeline sort_values w) = true ->
   (exists url, env_connection_string w = Some url
                /\ create_engine_ok w url = true)
   /\ (exists sales products customers,
         sql_sales w = Some sales /\ sql_products w = Some products
         /\ sql_customers w = Some customers
         /\ forall r s, In r sales ->
              Sales.transaction_date r <> RawUnparseable s)
   /\ makedirs_ok w = true
   /\ Forall (fun name => to_csv_ok w (csv_path name) = true
                          /\ to_sql_ok w (sql_table name) = true)
             table_names)
  /\ (forall targets,
        run_etl_pipeline sort_values
          (mkWorld (env_connection_string w) (create_engine_ok w)
                   (sql_sales w) (sql_products w) (sql_customers w)
                   targets (makedirs_ok w) (to_csv_ok w) (to_sql_ok w))
        = run_etl_pipeline sort_values w).
Proof.
  split; [apply run_only_if |].
  intros targets.
  unfold run_etl_pipeline, connect_to_database, extract_sales_data,
    load_processed_data.
  cbn [env_connection_string create_engine_ok sql_sales sql_products
       sql_customers excel_targets makedirs_ok to_csv_ok to_sql_ok].
  destruct (env_connection_string w) as [url |]; [| reflexivity].
  destruct (create_engine_ok w url); [| reflexivity].
  destruct (sql_sales w), (sql_products w), (sql_customers w);
    reflexivity.
Qed.

Lemma run_succeeds_only_if_witness :
  run_etl_pipeline sort_stable world_ok
  = (all_writes
       (processed_items
          (transform_sales_data sort_stable
             (Samples.raw_of Samples.mixed_sales))), true)
  /\ makedirs_ok world_ok = true
  /\ Forall (fun name => to_csv_ok world_ok (csv_path name) = true
                         /\ to_sql_ok world_ok (sql_table name) = true)
            table_names.
Proof.
  split; [reflexivity |].
  exact (proj2 (proj2 (proj1 (run_succeeds_only_if sort_stable world_ok)
                             eq_refl))).
Defined.

(** X21: A run that does not reach the load stage writes nothing.  A run that
    reaches it writes a prefix of a fixed sequence, the four CSV files and
    then the four database tables, each in the order sales_enhanced,
    monthly_revenue, product_performance, customer_segments; what was
    written before a failure stays written, and the run returns [True] only
    with the whole sequence written. *)
Theorem run_writes_a_prefix
  (sort_values : list ProductPerformance.t -> list ProductPerformance.t)
  (w : World) :
  (connect_to_database w = false
   \/ extract_sales_data w = None
   \/ (exists raw targets,
         extract_sales_data w = Some (raw, targets)
         /\ transform_sales_data sort_values raw = None) ->
   run_etl_pipeline sort_values w = ([], false))
  /\ (forall raw targets processed,
        connect_to_database w = true ->
        extract_sales_data w = Some (raw, targets) ->
        transform_sales_data sort_values raw = Some processed ->
        let full := all_writes (processed_items (Some processed)) in
        List.length full = 8%nat
        /\ (exists k, fst (run_etl_pipeline sort_values w) = firstn k full)
        /\ (snd (run_etl_pipeline sort_values w) = true ->
            fst (run_etl_pipeline sort_values w) = full)).
Proof.
  unfold run_etl_pipeline. split.
  - intros [H | [H | [raw [targets [H1 H2]]]]].
    + now rewrite H.
    + rewrite H. now destruct (connect_to_database w).
    + rewrite H1, H2. now destruct (connect_to_database w).
  - intros raw targets processed Hc He Ht. cbv zeta.
    rewrite Hc, He, Ht.
    destruct (load_prefix w (processed_items (Some processed)))
      as [k [Hk [_ Hfull]]].
    split; [reflexivity |]. split; [now exists k | exact Hfull].
Qed.

(** * The joined frame in the report *)

Lemma calendar_null_together (products : list Product.t) (ir : nat * CleanSales) :
  let d := snd (derive_row products ir) in
  let date := Sales.transaction_date (Derived.base d) in
  isnull (Derived.year d) = isnull date
  /\ isnull (Derived.month d) = isnull date
  /\ isnull (Derived.quarter d) = isnull date
  /\ isnull (Derived.day_of_week d) = isnull date
  /\ isnull (Derived.week_of_year d) = isnull date.
Proof.
  destruct ir as [i r]. cbn. now destruct (Sales.transaction_date r).
Qed.

Lemma count_same {A : Type} (p p' : A -> bool) (l : list A) :
  (forall a, In a l -> p a = p' a) ->
  List.length (filter p l) = List.length (filter p' l).
Proof.
  intros Hp. induction l as [| x l IH]; [reflexivity |]. simpl.
  rewrite (Hp x (or_introl eq_refl)).
  assert (E : List.length (filter p l) = List.length (filter p' l))
    by (apply IH; intros c Hc; apply Hp; now right).
  destruct (p' x); simpl; now rewrite E.
Qed.

Lemma count_all {A : Type} (p : A -> bool) (l : list A) :
  Forall (fun x => p x = true) l -> List.length (filter p l) = List.length l.
Proof.
  induction 1 as [| x l Hx _ IH]; [reflexivity |].
  simpl. rewrite Hx. simpl. now rewrite IH.
Qed.

(** X19: In the report of a run, the joined frame has as many nulls in
    [total_amount] as in [transaction_id], and each of the five calendar
    columns has exactly as many nulls as [transaction_date].  When a sale
    survives the cleaning the two counts are 0.  When none does, the frame
    consists of the rows of nulls that line 147 makes out of the product
    labels, and the two counts are the number of its rows. *)
Theorem sales_enhanced_quality (raw : RawData) (enhanced : list Enriched.t) :
  sales_enhanced raw = Some enhanced ->
  let q := quality_of (sales_enhanced_frame enhanced) in
  q_record_count q = List.length enhanced
  /\ null_count_of "total_amount" q = null_count_of "transaction_id" q
  /\ (forall cleaned,
        cleaner (range_index (raw_sales raw)) = Some cleaned ->
        null_count_of "transaction_id" q
        = Some (match cleaned with
                | [] => List.length enhanced
                | _ :: _ => 0%nat
                end))
  /\ Forall (fun column =>
               null_count_of column q = null_count_of "transaction_date" q)
            ["year"; "month"; "quarter"; "day_of_week"; "week_of_year"]%string.
Proof.
  intros H. cbv zeta.
  pose proof (sales_enhanced_clean_or_null raw enhanced H) as Hclean.
  destruct (sales_enhanced_rows raw enhanced H) as [cleaned [Hcl Hrows]].
  rewrite Forall_forall in Hclean.
  set (cnt := fun j : nat =>
                List.length
                  (filter (fun a => cell_isnull (nth j (sales_enhanced_cells a)
                                                     CNull)) enhanced)).
  assert (Hq : q_null_counts (quality_of (sales_enhanced_frame enhanced))
               = map (fun jc => (snd jc, cnt (fst jc)))
                     (range_index (columns (sales_enhanced_frame enhanced)))).
  { unfold quality_of, null_counts. cbn [q_null_counts].
    apply map_ext. intros [j c]. cbn [fst snd]. f_equal.
    unfold cnt, sales_enhanced_frame. cbn [rows]. apply null_count_map. }
  assert (Hint : forall x : option Z, cell_isnull (cell_int x) = isnull x)
    by (now intros []).
  assert (Hfloat : forall x : option Q, cell_isnull (cell_float x) = isnull x)
    by (now intros []).
  assert (Hdate : forall x : option date, cell_isnull (cell_date x) = isnull x)
    by (now intros []).
  assert (C6 : cnt 6%nat = cnt 0%nat).
  { apply count_same. intros e He. cbn. rewrite Hint, Hfloat.
    destruct (Hclean e He) as [[Hid [a [Ha _]]] | [Hb _]].
    - rewrite Ha.
      now destruct (Sales.transaction_id (Derived.base (Enriched.sale e))).
    - rewrite Hb. reflexivity. }
  assert (C0 : cnt 0%nat = match cleaned with
                           | [] => List.length enhanced
                           | _ :: _ => 0%nat
                           end).
  { destruct cleaned as [| c cleaned].
    - apply count_all, Forall_forall. intros e He.
      destruct (Hrows e He) as [i [[[] | [_ [Hb _]]] _]].
      cbn. rewrite Hb. reflexivity.
    - apply count_none, Forall_forall. intros e He.
      destruct (Hrows e He) as [i [[Hin | [Hnil _]] _]]; [| discriminate Hnil].
      pose proof (cleaner_rows _ _ Hcl) as Hall.
      rewrite Forall_forall in Hall. destruct (Hall _ Hin) as [Hid _].
      cbn [snd] in Hid. cbn. rewrite Hint.
      destruct (Sales.transaction_id (Derived.base (Enriched.sale e)));
        [reflexivity | now elim Hid]. }
  assert (Hcal : forall e, In e enhanced ->
            let d := Enriched.sale e in
            let date := Sales.transaction_date (Derived.base d) in
            isnull (Derived.year d) = isnull date
            /\ isnull (Derived.month d) = isnull date
            /\ isnull (Derived.quarter d) = isnull date
            /\ isnull (Derived.day_of_week d) = isnull date
            /\ isnull (Derived.week_of_year d) = isnull date).
  { intros e He. destruct (Hrows e He) as [i [_ Hs]].
    pose proof (calendar_null_together (raw_products raw)
                  (i, Derived.base (Enriched.sale e))) as Hc.
    rewrite <- Hs in Hc. exact Hc. }
  assert (C11 : cnt 11%nat = cnt 1%nat).
  { apply count_same. intros e He. cbn. rewrite Hint, Hdate.
    exact (proj1 (Hcal e He)). }
  assert (C12 : cnt 12%nat = cnt 1%nat).
  { apply count_same. intros e He. cbn. rewrite Hint, Hdate.
    exact (proj1 (proj2 (Hcal e He))). }
  assert (C13 : cnt 13%nat = cnt 1%nat).
  { apply count_same. intros e He. cbn. rewrite Hint, Hdate.
    exact (proj1 (proj2 (proj2 (Hcal e He)))). }
  assert (C14 : cnt 14%nat = cnt 1%nat).
  { apply count_same. intros e He. cbn. rewrite Hint, Hdate.
    exact (proj1 (proj2 (proj2 (proj2 (Hcal e He))))). }
  assert (C15 : cnt 15%nat = cnt 1%nat).
  { apply count_same. intros e He. cbn. rewrite Hint, Hdate.
    exact (proj2 (proj2 (proj2 (proj2 (Hcal e He))))). }
  unfold null_count_of. rewrite Hq. clearbody cnt.
  split; [unfold quality_of, record_count, sales_enhanced_frame; cbn;
          apply length_map |].
  cbn. rewrite C6, C11, C12, C13, C14, C15.
  split; [reflexivity |]. split.
  - intros cleaned' Hcl'. rewrite Hcl in Hcl'. inversion Hcl'; subst cleaned'.
    now rewrite C0.
  - repeat constructor.
Qed.

Lemma sales_enhanced_quality_witness :
  (exists enhanced,
     sales_enhanced (Samples.raw_of Samples.mixed_sales) = Some enhanced
     /\ null_count_of "total_amount"
          (quality_of (sales_enhanced_frame enhanced))
        = null_count_of "transaction_id"
            (quality_of (sales_enhanced_frame enhanced))
     /\ null_count_of "transaction_id"
          (quality_of (sales_enhanced_frame enhanced)) = Some 0%nat
     /\ null_count_of "region_name"
          (quality_of (sales_enhanced_frame enhanced)) = Some 1%nat)
  /\ (exists enhanced,
        sales_enhanced (Samples.raw_of [Samples.sale_zero_amount])
        = Some enhanced
        /\ q_record_count (quality_of (sales_enhanced_frame enhanced)) = 2%nat
        /\ null_count_of "transaction_id"
             (quality_of (sales_enhanced_frame enhanced)) = Some 2%nat
        /\ null_count_of "total_amount"
             (quality_of (sales_enhanced_frame enhanced)) = Some 2%nat).
Proof.
  split.
  - eexists. split; [reflexivity |]. split; [| split; reflexivity].
    apply (sales_enhanced_quality (Samples.raw_of Samples.mixed_sales)).
    reflexivity.
  - eexists. split; [reflexivity |]. repeat split; reflexivity.
Defined.

(** * Days between purchases *)

Lemma days_from_civil_closed (d : date) :
  days_from_civil d
  = year_days (if d_month d <=? 2 then d_year d - 1 else d_year d)
    + (153 * ((d_month d + 9) mod 12) + 2) / 5 + d_day d - 1 - 719468.
Proof.
  unfold days_from_civil, year_days. cbv zeta.
  set (y := if d_month d <=? 2 then d_year d - 1 else d_year d).
  generalize ((153 * ((d_month d + 9) mod 12) + 2) / 5). intros off.
  Z.div_mod_to_equations. lia.
Qed.

Lemma year_days_mono (a b : Z) : a <= b -> year_days a <= year_days b.
Proof. unfold year_days. intros H. Z.div_mod_to_equations. lia. Qed.

Lemma year_days_step (y : Z) :
  year_days (y + 1) - year_days y = if is_leap (y + 1) then 366 else 365.
Proof.
  unfold year_days, is_leap.
  destruct ((y + 1) mod 4 =? 0) eqn:E4; destruct ((y + 1) mod 100 =? 0) eqn:E100;
    destruct ((y + 1) mod 400 =? 0) eqn:E400; cbn [andb orb negb];
    rewrite ?Z.eqb_eq, ?Z.eqb_neq in *; Z.div_mod_to_equations; lia.
Qed.

Lemma month_cases (m : Z) :
  1 <= m <= 12 ->
  m = 1 \/ m = 2 \/ m = 3 \/ m = 4 \/ m = 5 \/ m = 6 \/ m = 7 \/ m = 8
  \/ m = 9 \/ m = 10 \/ m = 11 \/ m = 12.
Proof. lia. Qed.

(** On calendar dates the day number grows with the date. *)
Lemma days_from_civil_mono (a b : date) :
  valid_date a -> valid_date b -> date_leb a b = true ->
  days_from_civil a <= days_from_civil b.
Proof.
  intros [Hma Hda] [Hmb Hdb] Hle. apply date_leb_spec in Hle.
  rewrite !days_from_civil_closed.
  destruct a as [ya ma da], b as [yb mb db]. cbn [d_year d_month d_day] in *.
  unfold days_in_month in Hda, Hdb.
  pose proof (year_days_step (ya - 1)) as Sa.
  replace (ya - 1 + 1) with ya in Sa by lia.
  pose proof (year_days_step (yb - 1)) as Sb.
  replace (yb - 1 + 1) with yb in Sb by lia.
  destruct Hle as [Hy | [Hy Hm]].
  - assert (Myy : year_days ya <= year_days (yb - 1))
      by (apply year_days_mono; lia).
    destruct (is_leap ya), (is_leap yb);
      destruct (month_cases ma Hma) as [E|[E|[E|[E|[E|[E|[E|[E|[E|[E|[E|E]]]]]]]]]]];
      subst ma;
      destruct (month_cases mb Hmb) as [E|[E|[E|[E|[E|[E|[E|[E|[E|[E|[E|E]]]]]]]]]]];
      subst mb; cbn in Hda, Hdb |- *; lia.
  - subst yb. clear Sb.
    destruct (is_leap ya);
      destruct (month_cases ma Hma) as [E|[E|[E|[E|[E|[E|[E|[E|[E|[E|[E|E]]]]]]]]]]];
      subst ma;
      destruct (month_cases mb Hmb) as [E|[E|[E|[E|[E|[E|[E|[E|[E|[E|[E|E]]]]]]]]]]];
      subst mb; cbn in Hda, Hdb |- *; lia.
Qed.

(** X22: When the dates of the frame are calendar dates, [customer_lifetime] is
    the number of days from the customer's first purchase to the last and
    is never negative; it is null exactly when the customer has no dated
    transaction. *)
Theorem customer_lifetime_nonnegative (sales : list Enriched.t) :
  Forall (fun e => match Enriched.transaction_date e with
                   | Some d => valid_date d
                   | None => True
                   end) sales ->
  Forall
    (fun m =>
       match CustomerMetrics.first_purchase m,
             CustomerMetrics.last_purchase m with
       | Some f, Some l =>
           CustomerMetrics.customer_lifetime m
           = Some (days_from_civil l - days_from_civil f)
           /\ 0 <= days_from_civil l - days_from_civil f
       | _, _ => CustomerMetrics.customer_lifetime m = None
       end)
    (customer_metrics sales).
Proof.
  intros Hvalid. rewrite Forall_forall in Hvalid.
  apply Forall_forall. intros m Hm.
  unfold customer_metrics in Hm. apply in_map_iff in Hm.
  destruct Hm as [[k grp] [Hm Hg]]. subst m.
  unfold customer_groups in Hg. apply groupby_group in Hg.
  cbn [fst snd] in Hg. destruct Hg as [_ [_ [Hin _]]].
  assert (Hcol : forall d, In (Some d) (map Enriched.transaction_date grp) ->
                           valid_date d).
  { intros d Hd. apply in_map_iff in Hd. destruct Hd as [e [Hd He]].
    specialize (Hvalid e (proj1 (Hin e He))). now rewrite Hd in Hvalid. }
  unfold customer_agg.
  cbn [CustomerMetrics.first_purchase CustomerMetrics.last_purchase
       CustomerMetrics.customer_lifetime fst snd].
  pose proof (min_skipna_spec (map Enriched.transaction_date grp)) as Hmin.
  pose proof (max_skipna_spec (map Enriched.transaction_date grp)) as Hmax.
  destruct (min_skipna (map Enriched.transaction_date grp)) as [f |];
    destruct (max_skipna (map Enriched.transaction_date grp)) as [l |];
    try reflexivity.
  destruct Hmin as [Hf Hlow], Hmax as [Hl _].
  split; [reflexivity |].
  assert (days_from_civil f <= days_from_civil l); [| lia].
  apply days_from_civil_mono; [now apply Hcol | now apply Hcol |].
  now apply Hlow.
Qed.

Lemma customer_lifetime_nonnegative_witness :
  exists enhanced,
    sales_enhanced
      (Samples.raw_of [Samples.sale_of_pen; Samples.sale_of_ink;
                       Samples.sale_unknown_customer])
    = Some enhanced
    /\ map CustomerMetrics.customer_lifetime (customer_metrics enhanced)
       = [Some 8; Some 0]
    /\ Forall (fun m => CustomerMetrics.customer_lifetime m <> Some (-1))
              (customer_metrics enhanced).
Proof.
  eexists. split; [reflexivity |]. split; [reflexivity |].
  eapply Forall_impl;
    [| apply customer_lifetime_nonnegative;
       repeat constructor; cbn; unfold valid_date; cbn; lia].
  intros m Hm. cbv beta in Hm.
  destruct (CustomerMetrics.first_purchase m),
    (CustomerMetrics.last_purchase m);
    cbv beta iota in Hm; try (rewrite Hm; discriminate).
  destruct Hm as [Hm Hpos]. rewrite Hm. intros E. inversion E. lia.
Defined.

(** * Loading without an engine *)

Lemma in_firstn {A : Type} (x : A) (k : nat) (l : list A) :
  In x (firstn k l) -> In x l.
Proof.
  revert l. induction k as [| k IH]; intros l; [intros [] |].
  destruct l as [| y l]; [intros [] |]. simpl.
  intros [H | H]; [now left | right; now apply IH].
Qed.

(** X23: Called without an engine, the load stage writes CSV files only, a
    prefix of the four in their fixed order, and returns [True] exactly
    when the directory can be made and every CSV write returns. *)
Theorem load_without_engine (w : World) (items : list (string * Frame)) :
  (exists k,
      fst (load_processed_data w false items)
      = firstn k (map (fun item => CsvWritten (csv_path (fst item)) (snd item))
                      items))
  /\ (snd (load_processed_data w false items) = true <->
      makedirs_ok w = true
      /\ Forall (fun item => to_csv_ok w (csv_path (fst item)) = true) items)
  /\ (forall table f,
        ~ In (SqlWritten table f) (fst (load_processed_data w false items))).
Proof.
  unfold load_processed_data.
  destruct (makedirs_ok w).
  2:{ split; [exists 0%nat; reflexivity |]. split.
      - split; [discriminate | intros [H _]; discriminate H].
      - intros table f []. }
  destruct (write_all_prefix (to_csv_ok w) csv_path CsvWritten items)
    as [k [Hk [Hfst [Hsnd Hall]]]].
  destruct (write_all (to_csv_ok w) csv_path CsvWritten items)
    as [files files_ok]. cbn [fst snd] in *.
  assert (Hfiles : fst (if files_ok then (files, true) else (files, false))
                   = files) by now destruct files_ok.
  assert (Hok : snd (if files_ok then (files, true) else (files, false))
                = files_ok) by now destruct files_ok.
  rewrite Hfiles, Hok. split; [now exists k |]. split.
  - rewrite Hall. split; [intros H; split; [reflexivity | exact H] |].
    now intros [_ H].
  - intros table f Hin. rewrite Hfst in Hin.
    apply in_firstn in Hin. apply in_map_iff in Hin.
    destruct Hin as [item [H _]]. discriminate H.
Qed.
